(** * Minecraft-Bedrock-Data-Handlers: chest forms, item metadata, world data

    A shallow embedding of [src/scripts/functions/forms.ts] (the chest form
    builder and [queueForm], the [ItemData] wrapper and the [WorldDataT]
    wrapper) together with the properties of its specification.

    Conventions of the embedding.
    - A JavaScript string is a [string] whose characters are UTF-16 code
      units below 256, so that [String.length] is the [.length] of the
      source; the section sign of the formatting codes is the character 167.
    - A JavaScript number is an integer ([Z]); [Math.floor] of the halves the
      source computes is taken over the rationals ([Q]), where it is exact.
    - A plain JavaScript object is an association list with distinct keys,
      in insertion order: the order [for ... in] and [Object.keys] enumerate
      when no key is an array index.
    - The host ([@minecraft/server], [@minecraft/server-ui]) is opaque: calls
      into it that leave the wrapped item are recorded as events, and the
      host is assumed to accept them. *)

From Stdlib Require Import ZArith QArith Qround String Ascii List Lia DecimalString.
From stdpp Require Import base gmap strings list.

Open Scope Z_scope.
Set Warnings "-register-all".

(** ** JavaScript values and the operations the source applies to them *)

Module JS.

(** The values that reach this code: what the host stores in a dynamic
    property, and what [JSON.parse] builds. *)
Inductive JSValue : Type :=
| JUndefined
| JNull
| JBool (b : bool)
| JNumber (n : Z)
| JString (s : string)
| JArray (elems : list JSValue)
| JObject (props : list (string * JSValue)).

(** The errors the source can meet. [Unmodelled] marks a JavaScript
    behaviour that lies outside this embedding (it is never used to state a
    result of the source). *)
Inductive JSError : Type :=
| InvalidValue            (* Error("Invalid value.") *)
| RangeError              (* String.prototype.repeat with a negative count *)
| TypeError               (* property access on undefined/null, call of a non-function,
                             property creation on a primitive in strict mode *)
| Unmodelled.

Inductive Completion (A : Type) : Type :=
| Normal (a : A)
| Throw (e : JSError).
Arguments Normal {A} a.
Arguments Throw {A} e.

(** [typeof v === "object"] *)
Definition typeof_object (v : JSValue) : bool :=
  match v with
  | JNull | JArray _ | JObject _ => true
  | _ => false
  end.

(** Truthiness, as [||] and [if] test it. *)
Definition truthy (v : JSValue) : bool :=
  match v with
  | JUndefined | JNull => false
  | JBool b => b
  | JNumber n => negb (n =? 0)
  | JString s => negb (String.eqb s "")
  | JArray _ | JObject _ => true
  end.

(** [a || b] *)
Definition js_or (a b : JSValue) : JSValue := if truthy a then a else b.

(** [n.toString()] for an integer. *)
Definition Z_toString (z : Z) : string := NilZero.string_of_int (Z.to_int z).

(** [" ".repeat(count)]: a negative count raises a RangeError. *)
Fixpoint replicate_string (n : nat) (s : string) : string :=
  match n with
  | O => EmptyString
  | S k => s +:+ replicate_string k s
  end.

Definition String_repeat (s : string) (count : Z) : Completion string :=
  if count <? 0 then Throw RangeError
  else Normal (replicate_string (Z.to_nat count) s).

(** [Math.floor] on the rationals. *)
Definition Math_floor (q : Q) : Z := Qfloor q.

(** [parts.join(sep)] *)
Fixpoint String_join (sep : string) (parts : list string) : string :=
  match parts with
  | [] => EmptyString
  | [p] => p
  | p :: rest => p +:+ sep +:+ String_join sep rest
  end.

(** [s.padStart(2, "0")] *)
Definition padStart2 (s : string) : string :=
  match String.length s with
  | O => "00"
  | S O => "0" +:+ s
  | _ => s
  end.

(** ToString, as string concatenation and property keys apply it. *)
Fixpoint js_ToString (v : JSValue) : string :=
  match v with
  | JUndefined => "undefined"
  | JNull => "null"
  | JBool true => "true"
  | JBool false => "false"
  | JNumber n => Z_toString n
  | JString s => s
  | JArray elems =>
      String_join ","
        (map (fun e => match e with
                       | JUndefined | JNull => EmptyString
                       | _ => js_ToString e
                       end) elems)
  | JObject _ => "[object Object]"
  end.

(** Own properties of a plain object. *)
Fixpoint props_lookup (props : list (string * JSValue)) (k : string) : option JSValue :=
  match props with
  | [] => None
  | (k', v) :: rest => if String.eqb k' k then Some v else props_lookup rest k
  end.

(** [obj[k] = v]: an existing key keeps its place, a new one goes last. *)
Fixpoint props_set (props : list (string * JSValue)) (k : string) (v : JSValue)
  : list (string * JSValue) :=
  match props with
  | [] => [(k, v)]
  | (k', v') :: rest =>
      if String.eqb k' k then (k', v) :: rest else (k', v') :: props_set rest k v
  end.

(** [delete obj[k]] *)
Fixpoint props_delete (props : list (string * JSValue)) (k : string)
  : list (string * JSValue) :=
  match props with
  | [] => []
  | (k', v') :: rest =>
      if String.eqb k' k then rest else (k', v') :: props_delete rest k
  end.

(** [v.k] for one of the members the source reads ([name], [level],
    [effect]): an own property of a plain object, [undefined] on an array or
    a primitive, a TypeError on [undefined] and [null]. *)
Definition js_get (v : JSValue) (k : string) : Completion JSValue :=
  match v with
  | JUndefined | JNull => Throw TypeError
  | JObject props => Normal (default JUndefined (props_lookup props k))
  | _ => Normal JUndefined
  end.

(** [v[k] = x] in strict mode (an ES module). Arrays used as mappings are
    outside the embedding. *)
Definition js_set (v : JSValue) (k : string) (x : JSValue) : Completion JSValue :=
  match v with
  | JObject props => Normal (JObject (props_set props k x))
  | JArray _ => Throw Unmodelled
  | _ => Throw TypeError
  end.

(** [delete v[k]] in strict mode. Arrays and strings, whose indices are
    properties of their own, are outside the embedding. *)
Definition js_delete (v : JSValue) (k : string) : Completion JSValue :=
  match v with
  | JObject props => Normal (JObject (props_delete props k))
  | JUndefined | JNull => Throw TypeError
  | JArray _ | JString _ => Throw Unmodelled
  | JBool _ | JNumber _ => Normal v
  end.

(** The characters of a string, each as a string of length one. *)
Fixpoint chars (s : string) : list string :=
  match s with
  | EmptyString => []
  | String c rest => String c EmptyString :: chars rest
  end.

(** Pairs each element with its index, counting from [i]. *)
Fixpoint indexed {A : Type} (i : Z) (l : list A) : list (Z * A) :=
  match l with
  | [] => []
  | x :: rest => (i, x) :: indexed (i + 1) rest
  end.

(** The pairs [(key, v[key])] that [for (const key in v)] visits, which are
    also the keys of [Object.keys(v)]. *)
Definition js_entries (v : JSValue) : list (string * JSValue) :=
  match v with
  | JObject props => props
  | JArray elems => map (fun p => (Z_toString (fst p), snd p)) (indexed 0 elems)
  | JString s => map (fun p => (Z_toString (fst p), JString (snd p))) (indexed 0 (chars s))
  | _ => []
  end.

End JS.
Export JS.

(** The section sign that starts a formatting code. *)
Definition section_sign : ascii := "167"%char.

(** [§c] for a code character [c]. *)
Definition fmt (c : ascii) : string := String section_sign (String c EmptyString).

(** ** forms.ts, first part: the chest form builder *)

(** The texture tables of [typeIds.js], which is not part of the sources:
    two lookups from a texture identifier to a numeric id. *)
Class TypeIds : Type := {
  typeIdToDataId : string -> option Z;
  typeIdToID : string -> option Z
}.

Module Forms.

Definition number_of_1_16_100_items : Z := 0.

Inductive ChestSize : Type :=
| SINGLE | SMALL | DOUBLE | LARGE
| SIZE_5 | SIZE_9 | SIZE_18 | SIZE_27 | SIZE_36 | SIZE_45 | SIZE_54.

(** [§c§h§e§s§t§a§b§r]: the marker of a chest layout with the digits [a b]. *)
Definition chest_title (a b : ascii) : string :=
  fmt "c" +:+ fmt "h" +:+ fmt "e" +:+ fmt "s" +:+ fmt "t" +:+ fmt a +:+ fmt b +:+ fmt "r".

(** The [sizes] map; [sizes size] is [sizes.get(size)]. *)
Definition sizes (size : ChestSize) : option (string * Z) :=
  match size with
  | SINGLE => Some (chest_title "2" "7", 27)
  | SMALL => Some (chest_title "2" "7", 27)
  | DOUBLE => Some (chest_title "5" "4", 54)
  | LARGE => Some (chest_title "5" "4", 54)
  | SIZE_5 => Some (chest_title "0" "5", 5)
  | SIZE_9 => Some (chest_title "0" "9", 9)
  | SIZE_18 => Some (chest_title "1" "8", 18)
  | SIZE_27 => Some (chest_title "2" "7", 27)
  | SIZE_36 => Some (chest_title "3" "6", 36)
  | SIZE_45 => Some (chest_title "4" "5", 45)
  | SIZE_54 => Some (chest_title "5" "4", 54)
  end.

(** The second component of a button: [string | number | undefined]. *)
Inductive IconPath : Type :=
| IconUndefined
| IconNumber (n : Z)
| IconString (s : string).

Definition Button : Type := (string * IconPath)%type.

(** A JavaScript array: [None] is a hole left by a write past the end. *)
Abbreviation JSArray A := (list (option A)).

(** [arr[i]]: [None] stands for [undefined] (a hole, or no such index). *)
Definition array_get {A : Type} (arr : JSArray A) (i : Z) : option A :=
  if i <? 0 then None
  else match arr !! Z.to_nat i with
       | Some (Some x) => Some x
       | _ => None
       end.

(** [arr[i] = x] for an integer [i]: inside the array the element is
    replaced, past the end the array grows (the gap is holes), and a negative
    [i] names a property that is no element of the array. *)
Definition array_set {A : Type} (arr : JSArray A) (i : Z) (x : A) : JSArray A :=
  if i <? 0 then arr
  else
    let n := Z.to_nat i in
    if (n <? length arr)%nat then <[n := Some x]> arr
    else arr ++ replicate (n - length arr)%nat None ++ [Some x].

Record ChestFormData : Type := {
  titleText : string;
  buttonArray : JSArray Button;
  slotCount : Z
}.

(** [new ChestFormData(size)] *)
Definition constructor (size : ChestSize) : ChestFormData :=
  let '(title, slots) := default (chest_title "2" "7", 27) (sizes size) in
  {| titleText := title;
     buttonArray := replicate (Z.to_nat slots) (Some (EmptyString, IconUndefined));
     slotCount := slots |}.

Definition title (form : ChestFormData) (text : string) : ChestFormData :=
  {| titleText := titleText form +:+ text;
     buttonArray := buttonArray form;
     slotCount := slotCount form |}.

Definition newline : string := String "010"%char EmptyString.

Section Button.
Context `{TypeIds}.

(** [button(slot, itemName = '', itemDesc = [], texture = '', stackAmount = 1,
    enchanted = false)]: an argument left [undefined] takes its default. *)
Definition button (form : ChestFormData) (slot : Z)
    (itemName : option string) (itemDesc : option (list string))
    (texture : option string) (stackAmount : option Z) (enchanted : option bool)
  : ChestFormData :=
  let itemName := default EmptyString itemName in
  let itemDesc := default [] itemDesc in
  let texture := default EmptyString texture in
  let stackAmount := default 1 stackAmount in
  let enchanted := default false enchanted in
  let ID := match typeIdToDataId texture with
            | Some id => Some id
            | None => typeIdToID texture
            end in
  let itemText :=
    "stack#" +:+ padStart2 (Z_toString (Z.min (Z.max stackAmount 1) 99))
    +:+ fmt "r" +:+ itemName +:+ fmt "r"
    +:+ (if (length itemDesc =? 0)%nat then EmptyString
         else newline +:+ fmt "r" +:+ String_join (newline +:+ fmt "r") itemDesc) in
  let iconPath :=
    match ID with
    | Some ID =>
        IconNumber ((ID + (if ID <? 260 then 0 else number_of_1_16_100_items)) * 65536
                    + (if enchanted then 32768 else 0))
    | None => IconString texture
    end in
  {| titleText := titleText form;
     buttonArray := array_set (buttonArray form) slot (itemText, iconPath);
     slotCount := slotCount form |}.

(** The descriptor a pattern character stands for. *)
Record PatternData : Type := {
  itemName : option string;
  itemDesc : option (list string);
  stackAmount : option Z;
  enchanted : option bool;
  texture : string
}.

Definition numCols : Z := 9.

(** The inner loop of [pattern]: the characters of one row from [colIndex] on. *)
Fixpoint pattern_row (form : ChestFormData) (key : gmap string PatternData)
    (row : string) (rowIndex colIndex : Z) : ChestFormData :=
  match row with
  | EmptyString => form
  | String char rest =>
      let data := key !! String char EmptyString in
      let slot := colIndex + rowIndex * numCols in
      let form' :=
        match data with
        | Some data =>
            if slot <? slotCount form
            then button form slot (itemName data) (itemDesc data)
                   (Some (texture data)) (stackAmount data) (enchanted data)
            else form
        | None => form
        end in
      pattern_row form' key rest rowIndex (colIndex + 1)
  end.

(** The outer loop of [pattern]: the rows from [rowIndex] on. *)
Fixpoint pattern_rows (form : ChestFormData) (key : gmap string PatternData)
    (rows : list string) (rowIndex : Z) : ChestFormData :=
  match rows with
  | [] => form
  | row :: rest =>
      pattern_rows (pattern_row form key row rowIndex 0) key rest (rowIndex + 1)
  end.

Definition pattern (form : ChestFormData) (pattern : list string)
    (key : gmap string PatternData) : ChestFormData :=
  pattern_rows form key pattern 0.

End Button.

(** *** queueForm *)

Inductive FormCancelationReason : Type := UserBusy | UserClosed.

Record ActionFormResponse : Type := {
  canceled : bool;
  cancelationReason : option FormCancelationReason;
  selection : option Z
}.

(** [reason == FormCancelationReason.UserBusy] *)
Definition is_UserBusy (reason : option FormCancelationReason) : bool :=
  match reason with
  | Some UserBusy => true
  | _ => false
  end.

(** A promise at the time it is observed. *)
Inductive Promise (A : Type) : Type :=
| Fulfilled (a : A)
| Rejected (err : string)
| Pending.
Arguments Fulfilled {A} a.
Arguments Rejected {A} err.
Arguments Pending {A}.

(** How the host settles one [form.show(player)]. *)
Inductive ShowOutcome : Type :=
| Resolves (response : ActionFormResponse)
| Rejects (err : string).

Definition shown (o : ShowOutcome) : Promise ActionFormResponse :=
  match o with
  | Resolves response => Fulfilled response
  | Rejects err => Rejected err
  end.

Section QueueForm.
Variables Player ActionFormData : Type.

(** What [queueForm] does that can be observed from outside. *)
Inductive FormEvent : Type :=
| Show (form : ActionFormData) (player : Player)
| Callback (response : ActionFormResponse)
| ConsoleError (err : string).

(** A reaction run by a promise: the events it causes, and whether it
    returns or throws. *)
Definition Reaction : Type := (list FormEvent * option string)%type.

(** [p.then(onFulfilled)] *)
Definition promise_then {A : Type} (p : Promise A) (onFulfilled : A -> Reaction)
  : list FormEvent * Promise unit :=
  match p with
  | Fulfilled a =>
      match onFulfilled a with
      | (evs, None) => (evs, Fulfilled tt)
      | (evs, Some err) => (evs, Rejected err)
      end
  | Rejected err => ([], Rejected err)
  | Pending => ([], Pending)
  end.

(** [p.catch(onRejected)] *)
Definition promise_catch (p : Promise unit) (onRejected : string -> Reaction)
  : list FormEvent * Promise unit :=
  match p with
  | Rejected err =>
      match onRejected err with
      | (evs, None) => (evs, Fulfilled tt)
      | (evs, Some err') => (evs, Rejected err')
      end
  | other => ([], other)
  end.

(** [queueForm(player, form, callback)], run against the outcomes the host
    gives to the successive [show] calls ([host]; when it is used up the
    last promise stays pending). [callback response] is [Some err] when the
    callback throws [err]. The result is the events in the order they
    happen and the state of the promise chain [show().then().catch()]. *)
Fixpoint queueForm (host : list ShowOutcome) (player : Player) (form : ActionFormData)
    (callback : ActionFormResponse -> option string)
  : list FormEvent * Promise unit :=
  match host with
  | [] => ([Show form player], Pending)
  | outcome :: later =>
      let '(evs1, p1) :=
        promise_then (shown outcome) (fun response =>
          if canceled response then
            (* If the player is currently busy, then retry *)
            if is_UserBusy (cancelationReason response)
            then (fst (queueForm later player form callback), None)
            else ([], None)
          else ([Callback response], callback response)) in
      let '(evs2, p2) :=
        promise_catch p1 (fun err => ([ConsoleError err], None)) in
      (Show form player :: evs1 ++ evs2, p2)
  end.

End QueueForm.
Arguments Show {Player ActionFormData} form player.
Arguments Callback {Player ActionFormData} response.
Arguments ConsoleError {Player ActionFormData} err.
Arguments queueForm {Player ActionFormData} host player form callback.

End Forms.

(** ** Collaborators of the item and world wrappers *)

(** The host's [JSON] object. [JSON_parse s = None] stands for the
    SyntaxError that [JSON.parse] raises on a text that is no JSON. *)
Class JsonCodec : Type := {
  JSON_stringify : JSValue -> string;
  JSON_parse : string -> option JSValue
}.

(** [ChatFormat]: the formatting codes and the function that strips them. *)
Class ChatFormat : Type := {
  BOLD : string;
  RESET : string;
  removeFormat : string -> string
}.

(** The static title tables [EnchantmentTitles] and [ItemEffects]. *)
Class Titles : Type := {
  EnchantmentTitles : string -> option string;
  ItemEffects : string -> option string
}.

Section Json.
Context `{JsonCodec}.

(** Modelled from the spec: [functions/json.ts] is not part of the sources.
    "Non-primitive values are transparently JSON-encoded on write": the
    encoder is [JSON.stringify]. *)
Definition safeJsonStringify (value : JSValue) : string := JSON_stringify value.

(** Modelled from the spec: [functions/json.ts] is not part of the sources.
    "Decoded on read (decode failures yield the raw string, never throw)":
    a stored string is parsed as JSON and returned as it is when it does not
    parse; a value that is no string (a stored number or boolean, or the
    [undefined] of an absent property) is returned as it is. *)
Definition safeJsonParser (value : JSValue) : JSValue :=
  match value with
  | JString s => default (JString s) (JSON_parse s)
  | other => other
  end.

End Json.

(** ** forms.ts, second part: the item wrapper *)

Module Items.

(** *** The host's side of an item *)

Inductive EquipmentSlot : Type := Head | Chest | Legs | Feet | Mainhand | Offhand.

(** A built-in enchantment: its type id and its level. *)
Record Enchantment : Type := { ench_type : string; ench_level : Z }.

Record ItemDurabilityComponent : Type := { damage : Z; component_maxDurability : Z }.

(** An [ItemStack]: its dynamic properties, its lore, and its durability and
    enchantable components ([None]: the item has no such component; the
    enchantable component holds the built-in enchantments). *)
Record ItemStack : Type := {
  dynamicProperties : gmap string JSValue;
  lore : list string;
  durability : option ItemDurabilityComponent;
  enchantable : option (list Enchantment)
}.

(** What [updateItem] asks of the player: whether the inventory component
    has a container, and whether there is an equippable component. *)
Record Player : Type := { inventory_container : bool; equippable : bool }.

(** [EquipmentSlot | number] *)
Inductive Slot : Type :=
| NumberSlot (n : Z)
| EquipSlot (s : EquipmentSlot).

(** A component object is a live view of the item it was obtained from; the
    wrapper only holds views of its own [item]. *)
Inductive ComponentView : Type := ViewOfItem.

(** Calls that leave the wrapper, and the two methods whose invocations the
    specification speaks about. *)
Inductive Event : Type :=
| Call_updateItem
| Call_updateLore
| Container_setItem (slot : Z) (item : ItemStack)
| Equipment_setEquipment (slot : EquipmentSlot) (item : ItemStack)
| Enchantable_removeEnchantment (enchantment : string)
| Enchantable_removeAllEnchantments
| Console_warn (msg : string).

(** [item.setDynamicProperty(key, value)] *)
Definition host_setDynamicProperty (it : ItemStack) (key : string) (value : JSValue)
  : ItemStack :=
  {| dynamicProperties := <[key := value]> (dynamicProperties it);
     lore := lore it; durability := durability it; enchantable := enchantable it |}.

(** [item.getDynamicProperty(key)] *)
Definition host_getDynamicProperty (it : ItemStack) (key : string) : JSValue :=
  default JUndefined (dynamicProperties it !! key).

(** [item.setLore(lore)] *)
Definition host_setLore (it : ItemStack) (l : list string) : ItemStack :=
  {| dynamicProperties := dynamicProperties it;
     lore := l; durability := durability it; enchantable := enchantable it |}.

(** [durabilityComponent.damage = d] *)
Definition host_setDamage (it : ItemStack) (d : Z) : ItemStack :=
  {| dynamicProperties := dynamicProperties it;
     lore := lore it;
     durability :=
       match durability it with
       | Some c => Some {| damage := d; component_maxDurability := component_maxDurability c |}
       | None => None
       end;
     enchantable := enchantable it |}.

Definition host_setEnchantments (it : ItemStack) (f : list Enchantment -> list Enchantment)
  : ItemStack :=
  {| dynamicProperties := dynamicProperties it;
     lore := lore it; durability := durability it;
     enchantable := f <$> enchantable it |}.

(** [enchantable.removeEnchantment(type)] *)
Definition host_removeEnchantment (it : ItemStack) (type : string) : ItemStack :=
  host_setEnchantments it (filter (fun e => ench_type e ≠ type)).

(** [enchantable.removeAllEnchantments()] *)
Definition host_removeAllEnchantments (it : ItemStack) : ItemStack :=
  host_setEnchantments it (fun _ => []).

(** *** ItemData *)

Record ItemData : Type := {
  item : ItemStack;
  slot : option Slot;
  player : Player;
  maxDurability : Z;
  DurabilityComponent : option ComponentView;
  EnchantableComponent : option ComponentView
}.

Definition with_item (self : ItemData) (it : ItemStack) : ItemData :=
  {| item := it; slot := slot self; player := player self;
     maxDurability := maxDurability self;
     DurabilityComponent := DurabilityComponent self;
     EnchantableComponent := EnchantableComponent self |}.

(** [new ItemData(item, player, slot)] *)
Definition constructor (item : ItemStack) (player : Player) (slot : option Slot) : ItemData :=
  let itemEnchantments := enchantable item in
  let durabilityComponent := durability item in
  {| item := match durabilityComponent with
             | Some _ => host_setDamage item 0
             | None => item
             end;
     slot := slot;
     player := player;
     maxDurability := match durabilityComponent with
                      | Some c => component_maxDurability c
                      | None => 0
                      end;
     DurabilityComponent := match durabilityComponent with
                            | Some _ => Some ViewOfItem
                            | None => None
                            end;
     EnchantableComponent := match itemEnchantments with
                             | Some _ => Some ViewOfItem
                             | None => None
                             end |}.

(** A method of [ItemData]: from the wrapper before the call to how the call
    ends, the wrapper after it, and the events it caused, in order. A thrown
    error keeps what was done before it. *)
Definition M (A : Type) : Type := ItemData -> Completion A * ItemData * list Event.

Definition ret {A : Type} (a : A) : M A := fun self => (Normal a, self, []).

Definition bind {A B : Type} (m : M A) (k : A -> M B) : M B :=
  fun self =>
    match m self with
    | (Normal a, self1, evs1) =>
        let '(c, self2, evs2) := k a self1 in (c, self2, evs1 ++ evs2)
    | (Throw e, self1, evs1) => (Throw e, self1, evs1)
    end.

Definition throw {A : Type} (e : JSError) : M A := fun self => (Throw e, self, []).

Definition lift {A : Type} (c : Completion A) : M A := fun self => (c, self, []).

Definition this : M ItemData := fun self => (Normal self, self, []).

Definition set_item (it : ItemStack) : M unit :=
  fun self => (Normal tt, with_item self it, []).

Definition emit (e : Event) : M unit := fun self => (Normal tt, self, [e]).

#[global] Instance M_ret : MRet M := @ret.
#[global] Instance M_bind : MBind M := fun A B k m => bind m k.

(** [for (const x of l) body(x)] *)
Fixpoint forM_ {A : Type} (l : list A) (body : A -> M unit) : M unit :=
  match l with
  | [] => ret tt
  | x :: rest => body x ;; forM_ rest body
  end.

(** The outcome, final wrapper and events of a run. *)
Definition outcome {A : Type} (r : Completion A * ItemData * list Event) : Completion A :=
  fst (fst r).
Definition final {A : Type} (r : Completion A * ItemData * list Event) : ItemData :=
  snd (fst r).
Definition events {A : Type} (r : Completion A * ItemData * list Event) : list Event :=
  snd r.

Definition debugWarn (functionName message : string) : M unit :=
  emit (Console_warn ("[PlayerData." +:+ functionName +:+ "] " +:+ message
                      +:+ " [No stack provided.]")).

(** Modelled from the spec: [types.ts] is not part of the sources; a custom
    enchantment is [{name, level}]. *)
Record EnchantmentDataT : Type := { name : string; level : Z }.

(** The object an [EnchantmentDataT] is. *)
Definition EnchantmentDataT_value (e : EnchantmentDataT) : JSValue :=
  JObject [("name", JString (name e)); ("level", JNumber (level e))].

(** [string | string[]], the [lore] argument of the custom lore methods. *)
Inductive LoreArg : Type :=
| LoreLine (line : string)
| LoreLines (lines : list string).

Definition LoreArg_value (l : LoreArg) : JSValue :=
  match l with
  | LoreLine line => JString line
  | LoreLines lines => JArray (JString <$> lines)
  end.

(** [s.length] *)
Definition strlen (s : string) : Z := Z.of_nat (String.length s).

(** [table[key] || fallback] for a table of strings. *)
Definition title_or (entry : option string) (fallback : string) : string :=
  match entry with
  | Some t => if String.eqb t "" then fallback else t
  | None => fallback
  end.

Definition longestText : string := "Has Custom Properties".

Section Methods.
Context `{JsonCodec} `{ChatFormat} `{Titles}.

Definition updateItem : M unit :=
  emit Call_updateItem ;;
  self ← this;
  match slot self with
  | None => ret tt
  | Some s =>
      let container := inventory_container (player self) in
      let playerEquipment := equippable (player self) in
      if negb container || negb playerEquipment then ret tt
      else match s with
           | NumberSlot n => emit (Container_setItem n (item self))
           | EquipSlot e => emit (Equipment_setEquipment e (item self))
           end
  end.

Definition getDynamicProperty (key : string) : M JSValue :=
  self ← this;
  let value := host_getDynamicProperty (item self) key in
  ret (safeJsonParser value).

Definition setDynamicProperty (key : string) (value : JSValue) : M unit :=
  match value with
  | JUndefined => throw InvalidValue
  | _ =>
      let value := if typeof_object value then JString (safeJsonStringify value) else value in
      self ← this;
      set_item (host_setDynamicProperty (item self) key value) ;;
      updateItem
  end.

Definition getLore : M (list string) :=
  self ← this; ret (lore (item self)).

Definition setLore (l : list string) : M unit :=
  self ← this;
  set_item (host_setLore (item self) l) ;;
  updateItem.

Definition addLore (l : string) : M unit :=
  currentLore ← getLore;
  setLore (currentLore ++ [l]).

Definition getCustomLore : M JSValue :=
  v ← getDynamicProperty "lore"; ret (js_or v (JObject [])).

(** The key [category || index] of the custom lore methods, where [index]
    is the line itself or the first line of the list. *)
Definition lore_key (l : LoreArg) (category : option string) : string :=
  let index := match l with
               | LoreLine line => JString line
               | LoreLines lines => default JUndefined (JString <$> head lines)
               end in
  js_ToString (js_or (default JUndefined (JString <$> category)) index).

Definition addCustomLore (l : LoreArg) (category : option string) : M unit :=
  v ← getDynamicProperty "lore";
  let customLore := js_or v (JObject []) in
  customLore ← lift (js_set customLore (lore_key l category) (LoreArg_value l));
  setDynamicProperty "lore" customLore.

Definition removeCustomLore (l : LoreArg) (category : option string) : M unit :=
  v ← getDynamicProperty "lore";
  let customLore := js_or v (JObject []) in
  customLore ← lift (js_delete customLore (lore_key l category));
  setDynamicProperty "lore" customLore.

Definition removeEnchantment (enchantment : string) : M unit :=
  self ← this;
  match EnchantableComponent self with
  | None => debugWarn "removeEnchantment" "Item does not have an enchantable component."
  | Some ViewOfItem =>
      emit (Enchantable_removeEnchantment enchantment) ;;
      set_item (host_removeEnchantment (item self) enchantment) ;;
      updateItem
  end.

(** The source reads the member [removeAllEnchantments] of the component and
    does not call it. *)
Definition removeAllEnchantments : M unit :=
  self ← this;
  match EnchantableComponent self with
  | None => debugWarn "removeAllEnchantments" "Item does not have an enchantable component."
  | Some ViewOfItem => updateItem
  end.

Definition getCustomEnchantments : M JSValue :=
  v ← getDynamicProperty "enchantments"; ret (js_or v (JObject [])).

Definition getEffects : M JSValue :=
  v ← getDynamicProperty "effects"; ret (js_or v (JObject [])).

Definition updateLore : M unit :=
  emit Call_updateLore ;;
  enchantments ← getCustomEnchantments;
  (* Remove the old lore *)
  setLore [] ;;
  v ← getDynamicProperty "lore";
  let customLore := js_or v (JObject []) in
  forM_ (js_entries customLore) (fun '(key, currentLore) =>
    match currentLore with
    | JString currentLore =>
        let displayLength := strlen (removeFormat currentLore) in
        let displaySpaces := strlen longestText - displayLength in
        spaces ← lift (String_repeat " "
                   (Math_floor (inject_Z displaySpaces / 2 + 0.5)%Q + 3));
        let newTitle := spaces +:+ currentLore in
        addLore newTitle
    | _ =>
        spaces ← lift (String_repeat " "
                   (Math_floor (inject_Z (strlen longestText) / 2 + 0.5)%Q + 3));
        addLore (spaces +:+ BOLD +:+ key +:+ RESET) ;;
        match currentLore with
        | JArray lines =>
            forM_ lines (fun line =>
              match line with
              | JString line =>
                  let displayLength := strlen (removeFormat line) in
                  let displaySpaces := strlen longestText - displayLength in
                  spaces ← lift (String_repeat " "
                             (Math_floor (inject_Z displaySpaces / 2 + 0.5)%Q + 3));
                  let newTitle := spaces +:+ line in
                  addLore newTitle
              | _ => throw Unmodelled
              end)
        | _ => throw TypeError
        end
    end) ;;
  let enchantmentSpacing := strlen longestText - strlen "Enchantments" in
  spaces ← lift (String_repeat " " (Math_floor (inject_Z enchantmentSpacing / 2)%Q + 1));
  addLore (spaces +:+ BOLD +:+ "Enchantments" +:+ RESET) ;;
  forM_ (js_entries enchantments) (fun '(enchantment, enchantmentData) =>
    name ← lift (js_get enchantmentData "name");
    let enchantmentTitle :=
      title_or (EnchantmentTitles (js_ToString name)) (js_ToString name +:+ "-failed") in
    level ← lift (js_get enchantmentData "level");
    let displayLength :=
      strlen (removeFormat (enchantmentTitle +:+ " " +:+ js_ToString level)) in
    let displaySpaces := strlen longestText - displayLength in
    spaces ← lift (String_repeat " "
               (Math_floor (inject_Z displaySpaces / 2 + 0.5)%Q + 3));
    let newTitle := spaces +:+ enchantmentTitle +:+ " " +:+ js_ToString level in
    addLore newTitle) ;;
  (* Item Effects *)
  effects ← getEffects;
  if (length (js_entries effects) =? 0)%nat then ret tt
  else
    let effectSpacing := strlen longestText - strlen "Effects" in
    spaces ← lift (String_repeat " " (Math_floor (inject_Z effectSpacing / 2)%Q + 1));
    addLore (spaces +:+ BOLD +:+ "Effects" +:+ RESET) ;;
    forM_ (js_entries effects) (fun '(effect, effectData) =>
      name ← lift (js_get effectData "name");
      let effectTitle :=
        title_or (ItemEffects (js_ToString name)) (js_ToString name +:+ "-failed") in
      let displayLength := strlen (removeFormat effectTitle) in
      let displaySpaces := strlen longestText - displayLength in
      spaces ← lift (String_repeat " "
                 (Math_floor (inject_Z displaySpaces / 2 + 0.5)%Q + 3));
      let newTitle := spaces +:+ effectTitle in
      addLore newTitle) ;;
    updateItem.

Definition setCustomEnchantments (enchantments : JSValue) : M unit :=
  setDynamicProperty "enchantments" enchantments ;;
  updateLore.

Definition addCustomEnchantment (enchantment : EnchantmentDataT) : M unit :=
  enchantments ← getCustomEnchantments;
  enchantments ← lift (js_set enchantments (name enchantment)
                         (EnchantmentDataT_value enchantment));
  setCustomEnchantments enchantments.

Definition removeCustomEnchantment (enchantment : string) : M unit :=
  enchantments ← getCustomEnchantments;
  enchantments ← lift (js_delete enchantments enchantment);
  setCustomEnchantments enchantments.

Definition setEffects (effects : JSValue) : M unit :=
  setDynamicProperty "effects" effects.

(** [effect] is the descriptor object the caller passes. *)
Definition addEffect (effect : JSValue) : M unit :=
  effects ← getEffects;
  key ← lift (js_get effect "effect");
  effects ← lift (js_set effects (js_ToString key) effect);
  setEffects effects.

Definition removeEffect (effect : string) : M unit :=
  effects ← getEffects;
  effects ← lift (js_delete effects effect);
  setEffects effects.

End Methods.

End Items.

(** ** forms.ts, third part: the world wrapper *)

Module Worlds.

(** The host's [World], as far as the wrapper uses it. *)
Record World : Type := { dynamicProperties : gmap string JSValue }.

Record WorldDataT : Type := { world : World }.

Section Methods.
Context `{JsonCodec}.

Definition getDynamicProperty (self : WorldDataT) (key : string) : JSValue :=
  let value := default JUndefined (dynamicProperties (world self) !! key) in
  safeJsonParser value.

Definition setDynamicProperty (self : WorldDataT) (key : string) (value : JSValue)
  : Completion WorldDataT :=
  match value with
  | JUndefined => Throw InvalidValue
  | _ =>
      let value := if typeof_object value then JString (safeJsonStringify value) else value in
      Normal {| world := {| dynamicProperties := <[key := value]> (dynamicProperties (world self)) |} |}
  end.

End Methods.

End Worlds.

(** ** Concrete collaborators, to run the code on examples *)

Module Sample.

Definition dquote : ascii := "034"%char.
Definition backslash : ascii := "092"%char.

(** The text of a JSON string: quotes and backslashes escaped, a line feed
    written [\n]. *)
Fixpoint escape (s : string) : string :=
  match s with
  | EmptyString => EmptyString
  | String c rest =>
      if Ascii.eqb c dquote then String backslash (String dquote (escape rest))
      else if Ascii.eqb c backslash then String backslash (String backslash (escape rest))
      else if Ascii.eqb c "010"%char then String backslash (String "n" (escape rest))
      else String c (escape rest)
  end.

Definition quoted (s : string) : string :=
  String dquote (escape s) +:+ String dquote EmptyString.

(** [JSON.stringify]: in an array [undefined] is written [null], in an
    object a property that is [undefined] is left out. *)
Fixpoint stringify (v : JSValue) : string :=
  match v with
  | JUndefined | JNull => "null"
  | JBool true => "true"
  | JBool false => "false"
  | JNumber n => Z_toString n
  | JString s => quoted s
  | JArray elems => "[" +:+ String_join "," (map stringify elems) +:+ "]"
  | JObject props =>
      "{" +:+ String_join ","
        (flat_map (fun '(k, x) => match x with
                                  | JUndefined => []
                                  | _ => [quoted k +:+ ":" +:+ stringify x]
                                  end) props) +:+ "}"
  end.

Definition is_space (c : ascii) : bool :=
  Ascii.eqb c " " || Ascii.eqb c "010"%char || Ascii.eqb c "013"%char || Ascii.eqb c "009"%char.

Fixpoint skip_ws (s : string) : string :=
  match s with
  | String c rest => if is_space c then skip_ws rest else s
  | EmptyString => s
  end.

Definition digit_of (c : ascii) : option Z :=
  let n := Z.of_nat (nat_of_ascii c) in
  if (48 <=? n) && (n <=? 57) then Some (n - 48) else None.

(** The digits at the head of [s], with the number read so far. *)
Fixpoint parse_digits (s : string) (acc : Z) : Z * string :=
  match s with
  | String c rest =>
      match digit_of c with
      | Some d => parse_digits rest (acc * 10 + d)
      | None => (acc, s)
      end
  | EmptyString => (acc, s)
  end.

(** An integer without sign; a leading zero stands alone, and a fraction or
    an exponent is outside this codec. *)
Definition parse_nat (s : string) : option (Z * string) :=
  match s with
  | String c rest =>
      match digit_of c with
      | Some d =>
          let '(n, rest') := if d =? 0 then (0, rest) else parse_digits rest d in
          match rest' with
          | String c' _ =>
              if bool_decide (is_Some (digit_of c')) || Ascii.eqb c' "." || Ascii.eqb c' "e" || Ascii.eqb c' "E"
              then None else Some (n, rest')
          | EmptyString => Some (n, rest')
          end
      | None => None
      end
  | EmptyString => None
  end.

(** The rest of a string after its opening quote. *)
Fixpoint parse_string (s : string) : option (string * string) :=
  match s with
  | EmptyString => None
  | String c rest =>
      if Ascii.eqb c dquote then Some (EmptyString, rest)
      else if Ascii.eqb c backslash then
        match rest with
        | String e rest' =>
            let put (x : ascii) :=
              match parse_string rest' with
              | Some (str, after) => Some (String x str, after)
              | None => None
              end in
            if Ascii.eqb e dquote then put dquote
            else if Ascii.eqb e backslash then put backslash
            else if Ascii.eqb e "/" then put "/"%char
            else if Ascii.eqb e "n" then put "010"%char
            else if Ascii.eqb e "t" then put "009"%char
            else if Ascii.eqb e "r" then put "013"%char
            else None
        | EmptyString => None
        end
      else if (Z.of_nat (nat_of_ascii c) <? 32) then None
      else match parse_string rest with
           | Some (str, after) => Some (String c str, after)
           | None => None
           end
  end.

Definition literal (word : string) (v : JSValue) (s : string) : option (JSValue * string) :=
  if String.prefix word s
  then Some (v, String.substring (String.length word) (String.length s - String.length word) s)
  else None.

(** A JSON value at the head of [s]; [fuel] bounds the nesting and the
    number of elements. *)
Fixpoint parse_value (fuel : nat) (s : string) : option (JSValue * string) :=
  match fuel with
  | O => None
  | S fuel =>
      match skip_ws s with
      | EmptyString => None
      | String c rest as s' =>
          if Ascii.eqb c "n" then literal "null" JNull s'
          else if Ascii.eqb c "t" then literal "true" (JBool true) s'
          else if Ascii.eqb c "f" then literal "false" (JBool false) s'
          else if Ascii.eqb c dquote then
            match parse_string rest with
            | Some (str, after) => Some (JString str, after)
            | None => None
            end
          else if Ascii.eqb c "[" then
            match skip_ws rest with
            | String "]" after => Some (JArray [], after)
            | _ => parse_elements fuel rest []
            end
          else if Ascii.eqb c "{" then
            match skip_ws rest with
            | String "}" after => Some (JObject [], after)
            | _ => parse_members fuel rest []
            end
          else if Ascii.eqb c "-" then
            match parse_nat rest with
            | Some (n, after) => Some (JNumber (- n), after)
            | None => None
            end
          else
            match parse_nat s' with
            | Some (n, after) => Some (JNumber n, after)
            | None => None
            end
      end
  end
with parse_elements (fuel : nat) (s : string) (acc : list JSValue)
  : option (JSValue * string) :=
  match fuel with
  | O => None
  | S fuel =>
      match parse_value fuel s with
      | Some (v, after) =>
          match skip_ws after with
          | String "," more => parse_elements fuel more (acc ++ [v])
          | String "]" more => Some (JArray (acc ++ [v]), more)
          | _ => None
          end
      | None => None
      end
  end
with parse_members (fuel : nat) (s : string) (acc : list (string * JSValue))
  : option (JSValue * string) :=
  match fuel with
  | O => None
  | S fuel =>
      match skip_ws s with
      | String c rest =>
          if Ascii.eqb c dquote then
            match parse_string rest with
            | Some (k, after) =>
                match skip_ws after with
                | String ":" more =>
                    match parse_value fuel more with
                    | Some (v, after') =>
                        match skip_ws after' with
                        | String "," more' => parse_members fuel more' (props_set acc k v)
                        | String "}" more' => Some (JObject (props_set acc k v), more')
                        | _ => None
                        end
                    | None => None
                    end
                | _ => None
                end
            | None => None
            end
          else None
      | EmptyString => None
      end
  end.

(** [JSON.parse] *)
Definition parse (s : string) : option JSValue :=
  match parse_value (2 * String.length s + 2) s with
  | Some (v, after) =>
      match skip_ws after with
      | EmptyString => Some v
      | _ => None
      end
  | None => None
  end.

(** A JSON codec for values whose numbers are integers and whose strings
    need no [\u] escape. *)
Definition json : JsonCodec := {| JSON_stringify := stringify; JSON_parse := parse |}.

(** The formatting codes are the section sign followed by one character. *)
Fixpoint strip_codes (s : string) : string :=
  match s with
  | String c rest =>
      if Ascii.eqb c section_sign
      then match rest with
           | String _ rest' => strip_codes rest'
           | EmptyString => EmptyString
           end
      else String c (strip_codes rest)
  | EmptyString => EmptyString
  end.

Definition chat : ChatFormat :=
  {| BOLD := fmt "l"; RESET := fmt "r"; removeFormat := strip_codes |}.

Definition titles : Titles :=
  {| EnchantmentTitles := fun k => if String.eqb k "sharpness" then Some "Sharpness" else None;
     ItemEffects := fun k => if String.eqb k "speed" then Some "Speed" else None |}.

(** Title tables that know no name: every lookup falls back. *)
Definition no_titles : Titles :=
  {| EnchantmentTitles := fun _ => None; ItemEffects := fun _ => None |}.

Definition type_ids : TypeIds :=
  {| typeIdToDataId := fun _ => None;
     typeIdToID := fun k => if String.eqb k "minecraft:diamond" then Some 304 else None |}.

End Sample.

(** ** forms.ts, first part, continued: showing a chest form *)

Module FormShow.
Import Forms.

(** The request the host's [ActionFormData] has received: the title, and the
    buttons in the order they were added, each a text and an optional icon. *)
Record ActionFormData : Type := {
  form_title : string;
  form_buttons : list (string * option string)
}.

(** [iconPath?.toString()] *)
Definition iconPath_toString (iconPath : IconPath) : option string :=
  match iconPath with
  | IconUndefined => None
  | IconNumber n => Some (Z_toString n)
  | IconString s => Some s
  end.

(** [show(player)] builds [new ActionFormData().title(titleText)] and adds one
    button per element of [buttonArray] ([forEach] skips the holes); the
    promise it returns is the one of the host's [form.show(player)]. This is
    the form handed to the host. *)
Definition show (self : ChestFormData) : ActionFormData :=
  {| form_title := titleText self;
     form_buttons :=
       flat_map (fun element =>
                   match element with
                   | Some (text, iconPath) => [(text, iconPath_toString iconPath)]
                   | None => []
                   end) (buttonArray self) |}.

End FormShow.

(** ** forms.ts, second part, continued: the other methods of the item wrapper *)

(** The rules of the host's enchantable component: what becomes of the
    built-in enchantments when one or several are added ([Throw]: the host
    rejects them), and whether one can be added. *)
Class EnchantableHost : Type := {
  host_addEnchantment :
    list Items.Enchantment -> Items.Enchantment -> Completion (list Items.Enchantment);
  host_addEnchantments :
    list Items.Enchantment -> list Items.Enchantment -> Completion (list Items.Enchantment);
  host_canAddEnchantment : list Items.Enchantment -> Items.Enchantment -> Completion bool
}.

Module ItemMethods.
Import Items.

(** [string | number], the argument of [removeLore]. *)
Inductive LoreRef : Type :=
| LoreIndex (index : Z)
| LoreText (line : string).

(** [arr.splice(start, 1)] for an integer [start], as it leaves the array: a
    negative [start] counts from the end, and [start] is clamped into
    [0, length]; one element is removed when there is one at that place. *)
Definition Array_splice1 {A : Type} (arr : list A) (start : Z) : list A :=
  let len := Z.of_nat (length arr) in
  let actualStart := if start <? 0 then Z.max (len + start) 0 else Z.min start len in
  take (Z.to_nat actualStart) arr ++ drop (S (Z.to_nat actualStart)) arr.

(** [arr.indexOf(x)]: the first index of [x], [-1] when there is none. *)
Fixpoint Array_indexOf_from (arr : list string) (x : string) (i : Z) : Z :=
  match arr with
  | [] => -1
  | y :: rest => if String.eqb y x then i else Array_indexOf_from rest x (i + 1)
  end.

Definition Array_indexOf (arr : list string) (x : string) : Z :=
  Array_indexOf_from arr x 0.

(** The names every object inherits from [Object.prototype]. *)
Definition inherited_names : list string :=
  ["constructor"; "hasOwnProperty"; "isPrototypeOf"; "propertyIsEnumerable";
   "toLocaleString"; "toString"; "valueOf"; "__proto__"; "__defineGetter__";
   "__defineSetter__"; "__lookupGetter__"; "__lookupSetter__"].

(** [v[k]] for any key [k]: an own property of a plain object, [undefined]
    for a key it has not; an inherited member (a function) and the members of
    arrays and primitives are outside the embedding. *)
Definition js_member (v : JSValue) (k : string) : Completion JSValue :=
  match v with
  | JUndefined | JNull => Throw TypeError
  | JObject props =>
      match props_lookup props k with
      | Some x => Normal x
      | None =>
          if existsb (String.eqb k) inherited_names then Throw Unmodelled
          else Normal JUndefined
      end
  | _ => Throw Unmodelled
  end.

(** [component.damage] of the item's durability component. *)
Definition host_getDamage (it : ItemStack) : Z :=
  default 0 (damage <$> durability it).

(** [component.damage = d]: the host takes a damage between 0 and the
    maximum of the component; how it rejects another one is outside the
    embedding, and so is a view of a component the item has not. *)
Definition host_assignDamage (it : ItemStack) (d : Z) : Completion ItemStack :=
  match durability it with
  | Some c =>
      if (0 <=? d) && (d <=? component_maxDurability c) then Normal (host_setDamage it d)
      else Throw Unmodelled
  | None => Throw Unmodelled
  end.

(** [enchantable.getEnchantments()] *)
Definition host_getEnchantments (it : ItemStack) : list Enchantment :=
  default [] (enchantable it).

(** [enchantable.getEnchantment(type)] *)
Definition host_getEnchantment (it : ItemStack) (type : string) : option Enchantment :=
  List.find (fun e => String.eqb (ench_type e) type) (host_getEnchantments it).

(** [enchantable.hasEnchantment(type)] *)
Definition host_hasEnchantment (it : ItemStack) (type : string) : bool :=
  existsb (fun e => String.eqb (ench_type e) type) (host_getEnchantments it).

Section Methods.
Context `{JsonCodec} `{EnchantableHost}.

Definition removeLore (l : LoreRef) : M unit :=
  currentLore ← getLore;
  let currentLore :=
    match l with
    | LoreIndex n => Array_splice1 currentLore n
    | LoreText line =>
        let index := Array_indexOf currentLore line in
        if index =? -1 then currentLore else Array_splice1 currentLore index
    end in
  setLore currentLore.

Definition getEnchantments : M (list Enchantment) :=
  self ← this;
  match EnchantableComponent self with
  | None =>
      debugWarn "getEnchantments" "Item does not have an enchantable component." ;;
      mret []
  | Some ViewOfItem => mret (host_getEnchantments (item self))
  end.

(** [undefined] is [None]. *)
Definition getEnchantment (enchantment : string) : M (option Enchantment) :=
  self ← this;
  match EnchantableComponent self with
  | None =>
      debugWarn "getEnchantment" "Item does not have an enchantable component." ;;
      mret None
  | Some ViewOfItem => mret (host_getEnchantment (item self) enchantment)
  end.

(** The host's call acts on the item the wrapper holds. *)
Definition addEnchantment (enchantment : Enchantment) : M unit :=
  self ← this;
  match EnchantableComponent self with
  | None => debugWarn "addEnchantment" "Item does not have an enchantable component."
  | Some ViewOfItem =>
      enchantments ← lift (host_addEnchantment (host_getEnchantments (item self)) enchantment);
      set_item (host_setEnchantments (item self) (fun _ => enchantments)) ;;
      updateItem
  end.

Definition addEnchantments (enchantments : list Enchantment) : M unit :=
  self ← this;
  match EnchantableComponent self with
  | None => debugWarn "addEnchantments" "Item does not have an enchantable component."
  | Some ViewOfItem =>
      enchantments ← lift (host_addEnchantments (host_getEnchantments (item self)) enchantments);
      set_item (host_setEnchantments (item self) (fun _ => enchantments)) ;;
      updateItem
  end.

Definition canAddEnchantment (enchantment : Enchantment) : M bool :=
  self ← this;
  match EnchantableComponent self with
  | None =>
      debugWarn "canAddEnchantment" "Item does not have an enchantable component." ;;
      mret false
  | Some ViewOfItem =>
      lift (host_canAddEnchantment (host_getEnchantments (item self)) enchantment)
  end.

Definition hasEnchantment (enchantment : string) : M bool :=
  self ← this;
  match EnchantableComponent self with
  | None =>
      debugWarn "hasEnchantment" "Item does not have an enchantable component." ;;
      mret false
  | Some ViewOfItem => mret (host_hasEnchantment (item self) enchantment)
  end.

Definition getCustomEnchantment (enchantment : string) : M JSValue :=
  enchantments ← getCustomEnchantments;
  lift (js_member enchantments enchantment).

Definition setDurability (durability : Z) : M unit :=
  self ← this;
  match DurabilityComponent self with
  | None => debugWarn "setDurability" "Item does not have a durability component."
  | Some ViewOfItem =>
      it ← lift (host_assignDamage (item self) (maxDurability self - durability));
      set_item it ;;
      updateItem
  end.

Definition getDurability : M Z :=
  self ← this;
  match DurabilityComponent self with
  | None =>
      debugWarn "getDurability" "Item does not have a durability component." ;;
      mret 0
  | Some ViewOfItem => mret (maxDurability self - host_getDamage (item self))
  end.

Definition setDamage (d : Z) : M unit :=
  self ← this;
  match DurabilityComponent self with
  | None => debugWarn "setDamage" "Item does not have a durability component."
  | Some ViewOfItem =>
      it ← lift (host_assignDamage (item self) d);
      set_item it ;;
      updateItem
  end.

Definition getDamage : M Z :=
  self ← this;
  match DurabilityComponent self with
  | None =>
      debugWarn "getDamage" "Item does not have a durability component." ;;
      mret 0
  | Some ViewOfItem => mret (host_getDamage (item self))
  end.

(** [this.DurabilityComponent.damage += damage] *)
Definition addDamage (d : Z) : M unit :=
  self ← this;
  match DurabilityComponent self with
  | None => debugWarn "addDamage" "Item does not have a durability component."
  | Some ViewOfItem =>
      it ← lift (host_assignDamage (item self) (host_getDamage (item self) + d));
      set_item it ;;
      updateItem
  end.

Definition repairItem : M unit := setDurability 0.

End Methods.

End ItemMethods.

(** * Vocabulary of the properties *)

(** ** The chest form builder *)

Module FormSpec.
Import Forms.

Section Events.
Context {Player ActionFormData : Type}.

Definition is_Show (e : FormEvent Player ActionFormData) : bool :=
  match e with
  | Show _ _ => true
  | _ => false
  end.

(** The host answers "cancelled, the user is busy". *)
Definition busy (o : ShowOutcome) : bool :=
  match o with
  | Resolves response => canceled response && is_UserBusy (cancelationReason response)
  | Rejects _ => false
  end.

(** The number of busy answers the host gives in a row. *)
Fixpoint busy_prefix (host : list ShowOutcome) : nat :=
  match host with
  | o :: later => if busy o then S (busy_prefix later) else O
  | [] => O
  end.

End Events.

End FormSpec.

(** *** The pattern on a concrete form *)

Module PatternExample.
Import Forms.

Definition gem : PatternData :=
  {| itemName := Some "Gem"; itemDesc := None; stackAmount := Some 150;
     enchanted := Some true; texture := "minecraft:diamond" |}.

Definition key : gmap string PatternData := {["X" := gem]}.

Definition form : ChestFormData := constructor SIZE_18.

End PatternExample.

Module QueueExample.
Import Forms.

Definition busy_response : ActionFormResponse :=
  {| canceled := true; cancelationReason := Some UserBusy; selection := None |}.
Definition closed : ActionFormResponse :=
  {| canceled := true; cancelationReason := Some UserClosed; selection := None |}.
Definition picked : ActionFormResponse :=
  {| canceled := false; cancelationReason := None; selection := Some 4 |}.

End QueueExample.

(** ** The item and world wrappers *)

Module ItemSpec.
Import Items.

(** What [getDynamicProperty key] reads from an item. *)
Definition stored `{JsonCodec} (it : ItemStack) (key : string) : JSValue :=
  safeJsonParser (host_getDynamicProperty it key).

(** The values [setDynamicProperty] then [getDynamicProperty] gives back
    unchanged: booleans and numbers (stored as they are), strings that are
    not themselves a JSON text (stored as they are, and returned when the
    parse fails), and objects, arrays and [null] that [JSON.parse] rebuilds
    from their [JSON.stringify] text. *)
Definition round_trips `{JsonCodec} (v : JSValue) : Prop :=
  match v with
  | JUndefined => False
  | JBool _ | JNumber _ => True
  | JString s => JSON_parse s = None
  | JNull | JArray _ | JObject _ => JSON_parse (JSON_stringify v) = Some v
  end.

Definition is_updateItem (e : Event) : bool :=
  match e with Call_updateItem => true | _ => false end.

Definition is_updateLore (e : Event) : bool :=
  match e with Call_updateLore => true | _ => false end.

(** The item is handed to the container or to the equipment. *)
Definition is_push (e : Event) : bool :=
  match e with
  | Container_setItem _ _ | Equipment_setEquipment _ _ => true
  | _ => false
  end.

(** The number of events that satisfy [p]. *)
Fixpoint count (p : Event → bool) (evs : list Event) : nat :=
  match evs with
  | [] => O
  | e :: rest => ((if p e then 1 else 0) + count p rest)%nat
  end.

End ItemSpec.

Module ItemExample.
Import Items.

Definition sharpness_1 : Enchantment := {| ench_type := "sharpness"; ench_level := 1 |}.

(** A worn sword with one built-in enchantment and no custom data. *)
Definition sword : ItemStack :=
  {| dynamicProperties := ∅; lore := [];
     durability := Some {| damage := 37; component_maxDurability := 250 |};
     enchantable := Some [sharpness_1] |}.

Definition steve : Player := {| inventory_container := true; equippable := true |}.

(** The sword of slot 0 of the player's container, wrapped. *)
Definition self : ItemData := constructor sword steve (Some (NumberSlot 0)).

(** The example of the doc comment of [addEffect]. *)
Definition speed : JSValue := JObject [("name", JString "speed"); ("level", JNumber 1)].

(** A descriptor that names its effect in both fields. *)
Definition haste : JSValue :=
  JObject [("effect", JString "haste"); ("name", JString "speed"); ("level", JNumber 1)].

Definition world : Worlds.WorldDataT :=
  {| Worlds.world := {| Worlds.dynamicProperties := ∅ |} |}.

(** The scenario of the specification: custom lore [{"Info": "Rare Item"}],
    one custom enchantment [{name: "sharpness", level: 3}], no effects. *)
Definition info_lore : JSValue := JObject [("Info", JString "Rare Item")].

Definition sharpness_3 : EnchantmentDataT := {| name := "sharpness"; level := 3 |}.

Definition sharp_enchantments : JSValue :=
  JObject [("sharpness", EnchantmentDataT_value sharpness_3)].

(** An item that stores the given custom lore and custom enchantments. *)
Definition item_with (customLore enchantments : JSValue) : ItemStack :=
  {| dynamicProperties :=
       <["lore" := JString (Sample.stringify customLore)]>
         (<["enchantments" := JString (Sample.stringify enchantments)]> ∅);
     lore := []; durability := None; enchantable := None |}.

Definition rare : ItemData :=
  constructor (item_with info_lore sharp_enchantments) steve (Some (NumberSlot 0)).

(** A category with a list of lines. *)
Definition stats : ItemData :=
  constructor (item_with (JObject [("Stats", JArray [JString "+5 Attack"])]) (JObject []))
    steve (Some (NumberSlot 0)).

(** A line of 34 characters. *)
Definition wordy : ItemData :=
  constructor
    (item_with (JObject [("Note", JString "Forged in the fires of the Nether.")])
       (JObject []))
    steve (Some (NumberSlot 0)).

End ItemExample.

(** ** The lore block *)

Module LoreSpec.
Import Items ItemSpec.

(** The three mappings [updateLore] reads. *)
Definition custom_lore_of `{JsonCodec} (it : ItemStack) : JSValue :=
  js_or (stored it "lore") (JObject []).
Definition enchantments_of `{JsonCodec} (it : ItemStack) : JSValue :=
  js_or (stored it "enchantments") (JObject []).
Definition effects_of `{JsonCodec} (it : ItemStack) : JSValue :=
  js_or (stored it "effects") (JObject []).

(** The reference width: the length of "Has Custom Properties". *)
Definition W : Z := strlen longestText.

(** [floor((W - len)/2 + 0.5) + 3] *)
Definition line_padding (len : Z) : Z :=
  Math_floor (inject_Z (W - len) / 2 + 0.5)%Q + 3.

(** [floor((W - len)/2) + 1] *)
Definition header_padding (len : Z) : Z :=
  Math_floor (inject_Z (W - len) / 2)%Q + 1.

Definition spaces (n : Z) : string := replicate_string (Z.to_nat n) " ".

(** [v.k], [undefined] where the source would not get that far. *)
Definition member (v : JSValue) (k : string) : JSValue :=
  match js_get v k with
  | Normal x => x
  | Throw _ => JUndefined
  end.

Section Lines.
Context `{ChatFormat} `{Titles}.

(** A line that is no header: padded by its display length. *)
Definition centered_line (text : string) : string :=
  spaces (line_padding (strlen (removeFormat text))) +:+ text.

(** The header of the enchantments and of the effects. *)
Definition section_header (text : string) : string :=
  spaces (header_padding (strlen text)) +:+ BOLD +:+ text +:+ RESET.

(** The header of a category of custom lore: the padding of a line of
    display length 0, whatever the name of the category. *)
Definition category_header (key : string) : string :=
  spaces (line_padding 0) +:+ BOLD +:+ key +:+ RESET.

Definition enchantment_text (data : JSValue) : string :=
  title_or (EnchantmentTitles (js_ToString (member data "name")))
    (js_ToString (member data "name") +:+ "-failed")
  +:+ " " +:+ js_ToString (member data "level").

Definition effect_text (data : JSValue) : string :=
  title_or (ItemEffects (js_ToString (member data "name")))
    (js_ToString (member data "name") +:+ "-failed").

(** The lines of one entry of the custom lore: one line for a string, a
    header and one line per element for a list. *)
Definition category_block (entry : string * JSValue) : list string :=
  match snd entry with
  | JString line => [centered_line line]
  | JArray lines => category_header (fst entry) :: map (fun l => centered_line (js_ToString l)) lines
  | _ => [category_header (fst entry)]
  end.

(** The lore block of the three mappings. *)
Definition regenerated_lore (customLore enchantments effects : JSValue) : list string :=
  flat_map category_block (js_entries customLore)
  ++ section_header "Enchantments"
     :: map (fun entry => centered_line (enchantment_text (snd entry))) (js_entries enchantments)
  ++ match js_entries effects with
     | [] => []
     | entries =>
         section_header "Effects"
         :: map (fun entry => centered_line (effect_text (snd entry))) entries
     end.

(** *** The routine as a list of steps

    Each step adds one line or ends the routine with an error. *)

Definition centered_step (text : string) : Completion string :=
  match String_repeat " " (line_padding (strlen (removeFormat text))) with
  | Normal sp => Normal (sp +:+ text)
  | Throw e => Throw e
  end.

Definition header_step (padding : Z) (text : string) : Completion string :=
  match String_repeat " " padding with
  | Normal sp => Normal (sp +:+ BOLD +:+ text +:+ RESET)
  | Throw e => Throw e
  end.

Definition category_steps (entry : string * JSValue) : list (Completion string) :=
  match snd entry with
  | JString line => [centered_step line]
  | JArray lines =>
      header_step (line_padding 0) (fst entry)
      :: map (fun line => match line with
                          | JString line => centered_step line
                          | _ => Throw Unmodelled
                          end) lines
  | _ => [header_step (line_padding 0) (fst entry); Throw TypeError]
  end.

Definition enchantment_step (entry : string * JSValue) : Completion string :=
  match js_get (snd entry) "name" with
  | Normal _ => centered_step (enchantment_text (snd entry))
  | Throw e => Throw e
  end.

Definition effect_step (entry : string * JSValue) : Completion string :=
  match js_get (snd entry) "name" with
  | Normal _ => centered_step (effect_text (snd entry))
  | Throw e => Throw e
  end.

(** The steps up to the test of the effects, and the steps after it. *)
Definition main_steps (customLore enchantments : JSValue) : list (Completion string) :=
  flat_map category_steps (js_entries customLore)
  ++ header_step (header_padding (strlen "Enchantments")) "Enchantments"
     :: map enchantment_step (js_entries enchantments).

Definition effect_steps (effects : JSValue) : list (Completion string) :=
  header_step (header_padding (strlen "Effects")) "Effects"
  :: map effect_step (js_entries effects).

End Lines.

(** The lines added before the first error. *)
Fixpoint steps_lines (steps : list (Completion string)) : list string :=
  match steps with
  | Normal l :: rest => l :: steps_lines rest
  | _ => []
  end.

(** How the steps end. *)
Fixpoint steps_outcome (steps : list (Completion string)) : Completion unit :=
  match steps with
  | [] => Normal tt
  | Normal _ :: rest => steps_outcome rest
  | Throw e :: _ => Throw e
  end.

(** The wrapper with the lore of its item replaced. *)
Definition with_lore (self : ItemData) (l : list string) : ItemData :=
  with_item self (host_setLore (item self) l).

(** [updateItem] hands the item over: the wrapper has a slot, and the
    player a container and an equippable component. *)
Definition pushable (self : ItemData) : bool :=
  match slot self with
  | Some _ => inventory_container (player self) && equippable (player self)
  | None => false
  end.

(** From [self], [m] ends with [c] after it added [lines] to the lore, one
    [updateItem] per line and [extra] more, and changed nothing else. *)
Definition Appends {A : Type} (m : M A) (self : ItemData)
    (lines : list string) (extra : nat) (c : Completion A) : Prop :=
  outcome (m self) = c
  ∧ final (m self) = with_lore self (lore (item self) ++ lines)
  ∧ count is_updateItem (events (m self)) = (length lines + extra)%nat
  ∧ count is_push (events (m self))
    = (if pushable self then length lines + extra else 0)%nat
  ∧ count is_updateLore (events (m self)) = 0%nat.

End LoreSpec.

Module LoreSummary.
Import Items ItemSpec LoreSpec.

(** The lines added, the [updateItem] calls beyond one per line, and how
    the computation ends. *)
Definition Summary (A : Type) : Type := (list string * nat * Completion A)%type.

Definition AppendsS {A : Type} (m : M A) (self : ItemData) (s : Summary A) : Prop :=
  Appends m self (fst (fst s)) (snd (fst s)) (snd s).

(** Steps first, then the rest when no step failed. *)
Definition then_summary {A : Type} (steps : list (Completion string)) (rest : Summary A)
  : Summary A :=
  match steps_outcome steps with
  | Normal _ => (steps_lines steps ++ fst (fst rest), snd (fst rest), snd rest)
  | Throw e => (steps_lines steps, 0%nat, Throw e)
  end.

(** The end of [updateLore], from the test of the effects on. *)
Definition tail_summary `{ChatFormat} `{Titles} (effects : JSValue) : Summary unit :=
  if (length (js_entries effects) =? 0)%nat then ([], 0%nat, Normal tt)
  else then_summary (effect_steps effects) ([], 1%nat, Normal tt).

(** [updateLore] after it has cleared the lore. *)
Definition updateLore_summary `{JsonCodec} `{ChatFormat} `{Titles} (it : ItemStack)
  : Summary unit :=
  then_summary (main_steps (custom_lore_of it) (enchantments_of it))
    (tail_summary (effects_of it)).

(** What a run of [updateLore] amounts to, given a summary of what follows
    the clearing of the lore. *)
Definition Regenerates (r : Completion unit * ItemData * list Event)
    (self : ItemData) (s : Summary unit) : Prop :=
  outcome r = snd s
  ∧ final r = with_lore self (fst (fst s))
  ∧ count is_updateItem (events r) = (1 + length (fst (fst s)) + snd (fst s))%nat
  ∧ count is_push (events r)
    = (if pushable self then 1 + length (fst (fst s)) + snd (fst s) else 0)%nat
  ∧ count is_updateLore (events r) = 1%nat.

End LoreSummary.

Module MutatorSpec.
Import Items ItemSpec.

(** A run that does not call [updateLore] and leaves the lore of the item
    as it was. *)
Definition keeps_lore {A : Type} (r : Completion A * ItemData * list Event)
    (self : ItemData) : Prop :=
  count is_updateLore (events r) = 0%nat
  ∧ lore (item (final r)) = lore (item self).

(** A method none of whose runs calls [updateLore] or changes the lore. *)
Definition Quiet {A : Type} (m : M A) : Prop := ∀ self, keeps_lore (m self) self.

End MutatorSpec.

(** Case analysis on a wrapper: its item, its slot and the player. *)
Ltac destruct_self self :=
  destruct self as [[? ? ? ?] [[?|?]|] [[|] [|]] ? ? ?].

(** ** Forms as the builder makes them *)

Module FormBuild.
Import Forms FormShow.

(** The forms a chain of builder calls yields when every [button] names a
    slot of the chest. *)
Inductive Built `{TypeIds} : ChestFormData → Prop :=
| Built_constructor size : Built (constructor size)
| Built_title form text : Built form → Built (title form text)
| Built_button form slot itemName itemDesc texture stackAmount enchanted :
    Built form → 0 ≤ slot < slotCount form →
    Built (button form slot itemName itemDesc texture stackAmount enchanted)
| Built_pattern form rows key : Built form → Built (pattern form rows key).

(** No hole, and as many elements as the chest has slots. *)
Definition Dense (form : ChestFormData) : Prop :=
  0 ≤ slotCount form
  ∧ length (buttonArray form) = Z.to_nat (slotCount form)
  ∧ Forall is_Some (buttonArray form).

(** The button the host receives for an element of the array. *)
Definition sent (b : Button) : string * option string :=
  (fst b, iconPath_toString (snd b)).

End FormBuild.

(** ** The item wrapper and the player's inventory *)

Module MethodSpec.
Import Items ItemSpec LoreSpec ItemMethods.

(** A method run for its effect. *)
Definition void {A : Type} (m : M A) : M unit := m ;; mret tt.

(** The calls a user of [ItemData] can make. *)
Inductive Call : Type :=
| call_getDynamicProperty (key : string)
| call_setDynamicProperty (key : string) (value : JSValue)
| call_getLore
| call_setLore (l : list string)
| call_addLore (l : string)
| call_removeLore (l : LoreRef)
| call_getCustomLore
| call_addCustomLore (l : LoreArg) (category : option string)
| call_removeCustomLore (l : LoreArg) (category : option string)
| call_getEnchantments
| call_getEnchantment (enchantment : string)
| call_addEnchantment (enchantment : Enchantment)
| call_addEnchantments (enchantments : list Enchantment)
| call_removeEnchantment (enchantment : string)
| call_removeAllEnchantments
| call_canAddEnchantment (enchantment : Enchantment)
| call_hasEnchantment (enchantment : string)
| call_getCustomEnchantments
| call_getCustomEnchantment (enchantment : string)
| call_setCustomEnchantments (enchantments : JSValue)
| call_addCustomEnchantment (enchantment : EnchantmentDataT)
| call_removeCustomEnchantment (enchantment : string)
| call_getEffects
| call_setEffects (effects : JSValue)
| call_addEffect (effect : JSValue)
| call_removeEffect (effect : string)
| call_setDurability (durability : Z)
| call_getDurability
| call_setDamage (damage : Z)
| call_getDamage
| call_addDamage (damage : Z)
| call_repairItem
| call_updateItem
| call_updateLore.

Section Run.
Context `{JsonCodec} `{ChatFormat} `{Titles} `{EnchantableHost}.

Definition run (c : Call) : M unit :=
  match c with
  | call_getDynamicProperty key => void (getDynamicProperty key)
  | call_setDynamicProperty key value => setDynamicProperty key value
  | call_getLore => void getLore
  | call_setLore l => setLore l
  | call_addLore l => addLore l
  | call_removeLore l => removeLore l
  | call_getCustomLore => void getCustomLore
  | call_addCustomLore l category => addCustomLore l category
  | call_removeCustomLore l category => removeCustomLore l category
  | call_getEnchantments => void getEnchantments
  | call_getEnchantment enchantment => void (getEnchantment enchantment)
  | call_addEnchantment enchantment => addEnchantment enchantment
  | call_addEnchantments enchantments => addEnchantments enchantments
  | call_removeEnchantment enchantment => removeEnchantment enchantment
  | call_removeAllEnchantments => removeAllEnchantments
  | call_canAddEnchantment enchantment => void (canAddEnchantment enchantment)
  | call_hasEnchantment enchantment => void (hasEnchantment enchantment)
  | call_getCustomEnchantments => void getCustomEnchantments
  | call_getCustomEnchantment enchantment => void (getCustomEnchantment enchantment)
  | call_setCustomEnchantments enchantments => setCustomEnchantments enchantments
  | call_addCustomEnchantment enchantment => addCustomEnchantment enchantment
  | call_removeCustomEnchantment enchantment => removeCustomEnchantment enchantment
  | call_getEffects => void getEffects
  | call_setEffects effects => setEffects effects
  | call_addEffect effect => addEffect effect
  | call_removeEffect effect => removeEffect effect
  | call_setDurability durability => setDurability durability
  | call_getDurability => void getDurability
  | call_setDamage damage => setDamage damage
  | call_getDamage => void getDamage
  | call_addDamage damage => addDamage damage
  | call_repairItem => repairItem
  | call_updateItem => updateItem
  | call_updateLore => updateLore
  end.

(** One call after the other; an error ends the sequence. *)
Fixpoint run_all (calls : list Call) : M unit :=
  match calls with
  | [] => mret tt
  | c :: rest => run c ;; run_all rest
  end.

End Run.

(** The items handed to the container or to the equipment, in order. *)
Fixpoint pushed (evs : list Event) : list ItemStack :=
  match evs with
  | [] => []
  | Container_setItem _ it :: rest | Equipment_setEquipment _ it :: rest => it :: pushed rest
  | _ :: rest => pushed rest
  end.

(** The slot an event writes to. *)
Definition push_slot (e : Event) : option Slot :=
  match e with
  | Container_setItem n _ => Some (NumberSlot n)
  | Equipment_setEquipment s _ => Some (EquipSlot s)
  | _ => None
  end.

(** The component views of the wrapper are those of the item it holds, and
    its maximum durability is the one of the item's component. *)
Definition consistent (self : ItemData) : bool :=
  match durability (item self), DurabilityComponent self with
  | Some c, Some _ => component_maxDurability c =? maxDurability self
  | None, None => true
  | _, _ => false
  end
  && match enchantable (item self), EnchantableComponent self with
     | Some _, Some _ | None, None => true
     | _, _ => false
     end.

(** The components two items have, and the maximum of their durability. *)
Definition same_components (it it' : ItemStack) : Prop :=
  (component_maxDurability <$> durability it) = (component_maxDurability <$> durability it')
  ∧ (is_Some (enchantable it) ↔ is_Some (enchantable it')).

(** A run from [self] that changes nothing of the wrapper but its item, keeps
    the components of the item, writes to no slot but the wrapper's, has
    handed the item over after it has changed it, and has handed nothing over
    when the wrapper has no slot or the player no inventory. *)
Definition OrderlyRun {A : Type} (self : ItemData)
    (r : Completion A * ItemData * list Event) : Prop :=
  final r = with_item self (item (final r))
  ∧ same_components (item self) (item (final r))
  ∧ (∀ e s, e ∈ events r → push_slot e = Some s → slot self = Some s)
  ∧ (pushable self = true → last (item self :: pushed (events r)) = Some (item (final r)))
  ∧ (pushable self = false → pushed (events r) = []).

Definition Orderly {A : Type} (m : M A) : Prop := ∀ self, OrderlyRun self (m self).

(** A method that leaves the wrapper as it is and hands nothing over. *)
Definition Silent {A : Type} (m : M A) : Prop :=
  ∀ self, final (m self) = self ∧ ∀ e, e ∈ events (m self) → push_slot e = None.

End MethodSpec.

Module HostExample.
Import Items.

(** A host that takes an enchantment of level 1 to 5, in place of the one of
    the same type. *)
Definition acceptable (e : Enchantment) : bool :=
  (1 <=? ench_level e) && (ench_level e <=? 5).

Definition add_one (l : list Enchantment) (e : Enchantment) : list Enchantment :=
  List.filter (fun x => negb (String.eqb (ench_type x) (ench_type e))) l ++ [e].

Definition enchanting : EnchantableHost :=
  {| host_addEnchantment l e :=
       if acceptable e then Normal (add_one l e) else Throw Unmodelled;
     host_addEnchantments l es :=
       if forallb acceptable es then Normal (fold_left add_one es l) else Throw Unmodelled;
     host_canAddEnchantment l e := Normal (acceptable e) |}.

End HostExample.

(** ** Lines of lore *)

Module LoreEdit.
Import ItemMethods.

(** The lore [removeLore] sets, from the lore it has read. *)
Definition lore_after (l : LoreRef) (currentLore : list string) : list string :=
  match l with
  | LoreIndex n => Array_splice1 currentLore n
  | LoreText line =>
      let index := Array_indexOf currentLore line in
      if index =? -1 then currentLore else Array_splice1 currentLore index
  end.

(** [l'] is [l] without its element number [k]. *)
Definition RemovedAt (l : list string) (k : nat) (l' : list string) : Prop :=
  length l = S (length l')
  ∧ (∀ i, (i < k)%nat → l' !! i = l !! i)
  ∧ (∀ i, (k ≤ i)%nat → l' !! i = l !! S i).

End LoreEdit.

(** ** The events of a queued form *)

Module QueueSpec.
Import Forms.

Section Trace.
Context {Player ActionFormData : Type}.

(** What follows the last [show]: nothing while the host has not answered
    or when the player closed the form, the callback (and the log of the
    error it throws) on an answer, the log of the error on a fault. *)
Definition after_last_show (callback : ActionFormResponse → option string)
    (o : option ShowOutcome) : list (FormEvent Player ActionFormData) :=
  match o with
  | None => []
  | Some (Rejects err) => [ConsoleError err]
  | Some (Resolves response) =>
      if canceled response then []
      else Callback response ::
           match callback response with
           | Some err => [ConsoleError err]
           | None => []
           end
  end.

End Trace.

End QueueSpec.

(** * Properties *)

(** ** The chest form builder *)

Section PatternProperties.
Import Forms.
Context `{TypeIds}.

Lemma array_get_set_ne {A : Type} (arr : JSArray A) (i j : Z) (x : A) :
  i ≠ j → array_get (array_set arr i x) j = array_get arr j.
Proof.
  intros Hne. unfold array_get, array_set. cbv zeta.
  destruct (Z.ltb_spec i 0) as [Hi|Hi]; [reflexivity|].
  destruct (Z.ltb_spec j 0) as [Hj|Hj]; [reflexivity|].
  assert (Hn : Z.to_nat i ≠ Z.to_nat j) by lia.
  destruct (Nat.ltb_spec (Z.to_nat i) (length arr)) as [Hlt|Hge].
  - by rewrite list_lookup_insert_ne.
  - destruct (Nat.lt_ge_cases (Z.to_nat j) (length arr)) as [Hj'|Hj'].
    + by rewrite lookup_app_l.
    + rewrite (lookup_ge_None_2 arr) by lia.
      rewrite lookup_app_r by lia.
      destruct (Nat.lt_ge_cases (Z.to_nat j - length arr) (Z.to_nat i - length arr))
        as [Hin|Hout].
      * rewrite lookup_app_l by (rewrite length_replicate; lia).
        by rewrite lookup_replicate_2.
      * rewrite lookup_app_r by (rewrite length_replicate; lia).
        rewrite length_replicate.
        rewrite lookup_ge_None_2; [reflexivity|]. simpl. lia.
Qed.

Lemma button_slotCount form slot n d t s e :
  slotCount (button form slot n d t s e) = slotCount form.
Proof. reflexivity. Qed.

Lemma button_other form slot n d t s e (j : Z) :
  slot ≠ j →
  array_get (buttonArray (button form slot n d t s e)) j = array_get (buttonArray form) j.
Proof. intros Hne. unfold button. simpl. by apply array_get_set_ne. Qed.

Lemma pattern_row_slotCount key row : ∀ form r c,
  slotCount (pattern_row form key row r c) = slotCount form.
Proof.
  induction row as [|ch row IH]; intros form r c; simpl; [reflexivity|].
  rewrite IH. destruct (key !! String ch EmptyString); [|reflexivity].
  by destruct (_ <? _).
Qed.

Lemma pattern_rows_slotCount key rows : ∀ form r,
  slotCount (pattern_rows form key rows r) = slotCount form.
Proof.
  induction rows as [|row rows IH]; intros form r; simpl; [reflexivity|].
  by rewrite IH, pattern_row_slotCount.
Qed.

(** One row leaves a slot alone unless a character of the row that the key
    knows falls on it, inside the form. *)
Lemma pattern_row_untouched key row (j : Z) : ∀ form r c,
  (∀ (k : nat) ch, String.get k row = Some ch →
     c + Z.of_nat k + r * numCols = j → j < slotCount form →
     key !! String ch EmptyString = None) →
  array_get (buttonArray (pattern_row form key row r c)) j
  = array_get (buttonArray form) j.
Proof.
  induction row as [|ch row IH]; intros form r c Hkey; simpl; [reflexivity|].
  rewrite IH.
  - destruct (key !! String ch EmptyString) as [data|] eqn:Hdata; [|reflexivity].
    destruct (Z.ltb_spec (c + r * numCols) (slotCount form)) as [Hin|Hout];
      [|reflexivity].
    apply button_other. intros Heq.
    specialize (Hkey O ch eq_refl). rewrite Hdata in Hkey.
    discriminate Hkey; lia.
  - intros k ch' Hget Hslot Hlt. apply (Hkey (S k) ch' Hget); [lia|].
    destruct (key !! String ch EmptyString); [|exact Hlt].
    by destruct (_ <? _).
Qed.

Lemma pattern_rows_untouched key rows (j : Z) : ∀ form r0,
  (∀ (i k : nat) row ch, rows !! i = Some row → String.get k row = Some ch →
     Z.of_nat k + (r0 + Z.of_nat i) * numCols = j → j < slotCount form →
     key !! String ch EmptyString = None) →
  array_get (buttonArray (pattern_rows form key rows r0)) j
  = array_get (buttonArray form) j.
Proof.
  induction rows as [|row rows IH]; intros form r0 Hkey; simpl; [reflexivity|].
  rewrite IH.
  - apply pattern_row_untouched. intros k ch Hget Hslot Hlt.
    apply (Hkey O k row ch eq_refl Hget); [lia|exact Hlt].
  - intros i k row' ch Hrow Hget Hslot Hlt.
    rewrite pattern_row_slotCount in Hlt.
    apply (Hkey (S i) k row' ch Hrow Hget); [lia|exact Hlt].
Qed.

Lemma String_get_lt (row : string) : ∀ (k : nat) ch,
  String.get k row = Some ch → (k < String.length row)%nat.
Proof.
  induction row as [|c row IH]; intros k ch; simpl; [discriminate|].
  destruct k as [|k]; [lia|]. intros Hget. apply IH in Hget. lia.
Qed.

(** C9 (as amended): [pattern] keeps the slot count and leaves every slot
    outside [0, slotCount) as it was; a slot is left as it was when every
    pattern position that falls on it (column + 9 * row) holds a character
    absent from the key; and when no row has more than 9 characters, the
    slot of a position whose character is absent from the key is left as it
    was. *)
Theorem pattern_touches_only_keyed_slots
    (form : ChestFormData) (pat : list string) (key : gmap string PatternData) :
  slotCount (Forms.pattern form pat key) = slotCount form ∧
  (∀ slot : Z, slot < 0 ∨ slotCount form ≤ slot →
     array_get (buttonArray (Forms.pattern form pat key)) slot
     = array_get (buttonArray form) slot) ∧
  (∀ slot : Z,
     (∀ (r c : nat) row ch, pat !! r = Some row → String.get c row = Some ch →
        Z.of_nat c + Z.of_nat r * numCols = slot →
        key !! String ch EmptyString = None) →
     array_get (buttonArray (Forms.pattern form pat key)) slot
     = array_get (buttonArray form) slot) ∧
  ((∀ row, row ∈ pat → (String.length row ≤ 9)%nat) →
   ∀ (r c : nat) row ch, pat !! r = Some row → String.get c row = Some ch →
     key !! String ch EmptyString = None →
     array_get (buttonArray (Forms.pattern form pat key)) (Z.of_nat c + Z.of_nat r * numCols)
     = array_get (buttonArray form) (Z.of_nat c + Z.of_nat r * numCols)).
Proof.
  unfold Forms.pattern. split; [apply pattern_rows_slotCount|].
  split; [|split].
  - intros slot Hout. apply pattern_rows_untouched.
    intros i k row ch _ _ Hslot Hlt. unfold numCols in Hslot. lia.
  - intros slot Hkey. apply pattern_rows_untouched.
    intros i k row ch Hrow Hget Hslot _. apply (Hkey i k row ch Hrow Hget). lia.
  - intros Hshort r c row ch Hrow Hget Habsent. apply pattern_rows_untouched.
    intros i k row' ch' Hrow' Hget' Hslot _.
    assert (Hc : (c < 9)%nat).
    { apply String_get_lt in Hget.
      assert (row ∈ pat) as Hin by (eapply list_elem_of_lookup_2; eassumption).
      specialize (Hshort row Hin). lia. }
    assert (Hk : (k < 9)%nat).
    { apply String_get_lt in Hget'.
      assert (row' ∈ pat) as Hin by (eapply list_elem_of_lookup_2; eassumption).
      specialize (Hshort row' Hin). lia. }
    unfold numCols in Hslot.
    assert (i = r) by lia. assert (k = c) by lia. subst i k.
    rewrite Hrow in Hrow'. injection Hrow' as <-.
    rewrite Hget in Hget'. injection Hget' as <-. exact Habsent.
Qed.

End PatternProperties.


(** A pattern with rows of at most 9 characters: the slot under the
    unknown character [.] of row 1 and a slot past the form are untouched. *)
Lemma pattern_touches_only_keyed_slots_witness :
  Forms.array_get
    (Forms.buttonArray
       (@Forms.pattern Sample.type_ids PatternExample.form ["X.X"; ".X"] PatternExample.key))
    (Z.of_nat 0 + Z.of_nat 1 * Forms.numCols)
  = Forms.array_get (Forms.buttonArray PatternExample.form) (Z.of_nat 0 + Z.of_nat 1 * Forms.numCols)
  ∧ Forms.array_get
      (Forms.buttonArray
         (@Forms.pattern Sample.type_ids PatternExample.form ["X.X"; ".X"] PatternExample.key))
      18
    = Forms.array_get (Forms.buttonArray PatternExample.form) 18.
Proof.
  destruct (@pattern_touches_only_keyed_slots Sample.type_ids PatternExample.form
              ["X.X"; ".X"] PatternExample.key) as (_ & Hout & _ & Hshort).
  split.
  - apply (Hshort ltac:(intros row Hin; repeat (apply elem_of_cons in Hin as [->|Hin];
                          [simpl; lia|]); by apply elem_of_nil in Hin)
             1%nat 0%nat ".X" "."%char); reflexivity.
  - apply Hout. right. vm_compute. discriminate.
Defined.

(** C9 (as stated) fails when a row has more than 9 characters: column 9 of
    row 0 and column 0 of row 1 both fall on slot 9, so the slot under the
    unknown character [.] of row 1 is overwritten by the [X] of row 0. *)
Lemma pattern_overlong_row_overwrites :
  ¬ (∀ (form : Forms.ChestFormData) (pat : list string)
       (key : gmap string Forms.PatternData) (r c : nat) row ch,
       pat !! r = Some row → String.get c row = Some ch →
       key !! String ch EmptyString = None →
       Forms.array_get (Forms.buttonArray (@Forms.pattern Sample.type_ids form pat key))
         (Z.of_nat c + Z.of_nat r * 9)
       = Forms.array_get (Forms.buttonArray form) (Z.of_nat c + Z.of_nat r * 9)).
Proof.
  intros Hclaim.
  specialize (Hclaim PatternExample.form [".........X"; "."] PatternExample.key
                1%nat 0%nat "." "."%char eq_refl eq_refl eq_refl).
  vm_compute in Hclaim. discriminate Hclaim.
Qed.

(** *** queueForm *)

Section QueueFormProperties.
Import Forms FormSpec.
Variables Player ActionFormData : Type.
Implicit Types (player : Player) (form : ActionFormData).


Lemma queueForm_busy player form callback response later :
  canceled response = true → cancelationReason response = Some UserBusy →
  queueForm (Resolves response :: later) player form callback
  = (Show form player :: fst (queueForm later player form callback), Fulfilled tt).
Proof.
  intros Hc Hr. simpl. rewrite Hc, Hr. simpl. by rewrite app_nil_r.
Qed.

Lemma queueForm_shows player form callback : ∀ host,
  length (filter is_Show (fst (queueForm host player form callback)))
  = S (busy_prefix host).
Proof.
  induction host as [|o later IH]; [reflexivity|].
  destruct o as [response|err]; [|reflexivity].
  destruct (canceled response) eqn:Hc.
  - destruct (cancelationReason response) as [[|]|] eqn:Hr.
    + rewrite queueForm_busy by assumption.
      simpl. rewrite Hc, Hr. simpl. by rewrite IH.
    + simpl. rewrite Hc, Hr. reflexivity.
    + simpl. rewrite Hc, Hr. reflexivity.
  - simpl. rewrite Hc. simpl. by destruct (callback response).
Qed.

Lemma queueForm_same_form player form callback : ∀ host form' player',
  Show form' player' ∈ fst (queueForm host player form callback) →
  form' = form ∧ player' = player.
Proof.
  induction host as [|o later IH]; intros form' player' Hin.
  - simpl in Hin. apply list_elem_of_singleton in Hin. by injection Hin as -> ->.
  - simpl in Hin. destruct o as [response|err]; simpl in Hin.
    + destruct (canceled response).
      * destruct (is_UserBusy (cancelationReason response)); simpl in Hin.
        -- rewrite app_nil_r in Hin. apply elem_of_cons in Hin as [Heq|Hin].
           ++ by injection Heq as -> ->.
           ++ by apply IH.
        -- apply list_elem_of_singleton in Hin. by injection Hin as -> ->.
      * destruct (callback response); simpl in Hin;
          repeat (apply elem_of_cons in Hin as [Heq|Hin];
                  [try discriminate Heq; by injection Heq as -> ->|]);
          by apply elem_of_nil in Hin.
    + repeat (apply elem_of_cons in Hin as [Heq|Hin];
              [try discriminate Heq; by injection Heq as -> ->|]).
      by apply elem_of_nil in Hin.
Qed.

Lemma queueForm_never_rejected player form callback : ∀ host err,
  snd (queueForm host player form callback) ≠ Rejected err.
Proof.
  intros [|o later] err; [discriminate|].
  destruct o as [response|e]; simpl; [|discriminate].
  destruct (canceled response).
  - by destruct (is_UserBusy (cancelationReason response)).
  - by destruct (callback response).
Qed.


End QueueFormProperties.



(** ** The item wrapper: construction and built-in enchantments *)

Section ItemBasics.
Import Items ItemSpec.

(** C10: wrapping an item that has a durability component sets the damage
    of the wrapped item to 0, at construction; the rest of the item is as it
    was, and the wrapper remembers the component and its maximum. *)
Theorem constructor_repairs_item (it : ItemStack) (p : Player) (s : option Slot)
    (c : ItemDurabilityComponent) :
  durability it = Some c →
  durability (item (constructor it p s))
  = Some {| damage := 0; component_maxDurability := component_maxDurability c |}
  ∧ dynamicProperties (item (constructor it p s)) = dynamicProperties it
  ∧ lore (item (constructor it p s)) = lore it
  ∧ enchantable (item (constructor it p s)) = enchantable it
  ∧ maxDurability (constructor it p s) = component_maxDurability c
  ∧ DurabilityComponent (constructor it p s) = Some ViewOfItem.
Proof.
  intros Hc. unfold constructor. rewrite Hc. simpl. by rewrite Hc.
Qed.

(** Whatever the wrapper, [removeAllEnchantments] leaves the item as it was
    and never calls the component's [removeAllEnchantments]. *)
Lemma removeAllEnchantments_never_calls_host (self : ItemData) :
  item (final (removeAllEnchantments self)) = item self
  ∧ Enchantable_removeAllEnchantments ∉ events (removeAllEnchantments self).
Proof.
  destruct self as [it [[n|e]|] [[|] [|]] md dc [[]|]]; cbn;
    (split; [reflexivity|]); intros Hin;
    repeat (apply elem_of_cons in Hin as [Heq|Hin]; [discriminate Heq|]);
    by apply elem_of_nil in Hin.
Qed.

(** The sibling [removeEnchantment] does call the component. *)
Lemma removeEnchantment_calls_host (self : ItemData) (type : string) :
  EnchantableComponent self = Some ViewOfItem →
  Enchantable_removeEnchantment type ∈ events (removeEnchantment type self)
  ∧ item (final (removeEnchantment type self)) = host_removeEnchantment (item self) type.
Proof.
  intros Hc.
  destruct self as [it [[n|e]|] [[|] [|]] md dc ec]; cbn in *; subst ec; cbn;
    (split; [apply elem_of_cons; by left|reflexivity]).
Qed.

End ItemBasics.

(** The worn sword (damage 37) is wrapped with damage 0. *)
Lemma constructor_repairs_item_witness :
  Items.durability (Items.item ItemExample.self)
  = Some {| Items.damage := 0; Items.component_maxDurability := 250 |}.
Proof.
  exact (proj1 (constructor_repairs_item ItemExample.sword ItemExample.steve
                  (Some (Items.NumberSlot 0)) _ eq_refl)).
Defined.

(** C3 on the wrapped sword, whose enchantable component holds sharpness 1:
    [removeAllEnchantments] returns normally, pushes the item, makes no call
    to the component, and the item still carries sharpness 1 (the host's
    [removeAllEnchantments] would have left none). *)
Lemma removeAllEnchantments_keeps_enchantments :
  Items.EnchantableComponent ItemExample.self = Some Items.ViewOfItem
  ∧ Items.outcome (Items.removeAllEnchantments ItemExample.self) = Normal tt
  ∧ Items.events (Items.removeAllEnchantments ItemExample.self)
    = [Items.Call_updateItem; Items.Container_setItem 0 (Items.item ItemExample.self)]
  ∧ Items.enchantable (Items.item (Items.final (Items.removeAllEnchantments ItemExample.self)))
    = Some [ItemExample.sharpness_1]
  ∧ Items.enchantable (Items.host_removeAllEnchantments (Items.item ItemExample.self))
    = Some [].
Proof. repeat split. Qed.

(** ** Dynamic properties *)

Section DynamicProperties.
Import Items ItemSpec.
Context `{JsonCodec}.

(** What [setDynamicProperty] leaves in the item, when the value is defined. *)
Lemma setDynamicProperty_item key value self :
  value ≠ JUndefined →
  outcome (setDynamicProperty key value self) = Normal tt
  ∧ item (final (setDynamicProperty key value self))
    = host_setDynamicProperty (item self) key
        (if typeof_object value then JString (safeJsonStringify value) else value).
Proof.
  intros Hdef.
  destruct self as [it [[n|e]|] [[|] [|]] md dc ec];
    destruct value; try congruence; cbn; by split.
Qed.

Lemma getDynamicProperty_run key self :
  getDynamicProperty key self = (Normal (stored (item self) key), self, []).
Proof. reflexivity. Qed.

Lemma stored_after_set (it : ItemStack) key value :
  stored (host_setDynamicProperty it key value) key = safeJsonParser value.
Proof.
  unfold stored, host_getDynamicProperty, host_setDynamicProperty. simpl.
  by rewrite lookup_insert_eq.
Qed.

Lemma stored_after_set_ne (it : ItemStack) key key' value :
  key ≠ key' →
  stored (host_setDynamicProperty it key value) key' = stored it key'.
Proof.
  intros Hne. unfold stored, host_getDynamicProperty, host_setDynamicProperty. simpl.
  by rewrite lookup_insert_ne.
Qed.

(** What is read back after a write: the value itself when it round-trips. *)
Lemma parse_stored_form (value : JSValue) :
  round_trips value →
  safeJsonParser (if typeof_object value then JString (safeJsonStringify value) else value)
  = value.
Proof.
  destruct value as [| |b|n|s|elems|props]; simpl; intros Hrt;
    try done; unfold safeJsonStringify; by rewrite Hrt.
Qed.

(** C8 (as amended): a value that is a boolean, a number, a string that is
    not itself a JSON text, or an object, array or [null] that [JSON.parse]
    rebuilds from its [JSON.stringify] text, is read back unchanged after it
    was written, through [ItemData] and through [WorldDataT]; a string that
    is a JSON text is read back as the value it parses to; and writing
    [undefined] raises the invalid-value error and stores nothing. *)
Theorem dynamic_property_round_trip (key : string) (value : JSValue)
    (self : ItemData) (w : Worlds.WorldDataT) :
  round_trips value →
  (outcome (setDynamicProperty key value self) = Normal tt
   ∧ outcome (getDynamicProperty key (final (setDynamicProperty key value self)))
     = Normal value)
  ∧ (∃ w', Worlds.setDynamicProperty w key value = Normal w'
           ∧ Worlds.getDynamicProperty w' key = value)
  ∧ (∀ text parsed, JSON_parse text = Some parsed →
       outcome (getDynamicProperty key (final (setDynamicProperty key (JString text) self)))
       = Normal parsed
       ∧ ∃ w', Worlds.setDynamicProperty w key (JString text) = Normal w'
               ∧ Worlds.getDynamicProperty w' key = parsed)
  ∧ setDynamicProperty key JUndefined self = (Throw InvalidValue, self, [])
  ∧ Worlds.setDynamicProperty w key JUndefined = Throw InvalidValue.
Proof.
  intros Hrt.
  assert (Hdef : value ≠ JUndefined) by (intros ->; exact Hrt).
  split; [|split; [|split; [|split]]].
  - destruct (setDynamicProperty_item key value self Hdef) as [Hout Hitem].
    split; [exact Hout|].
    rewrite getDynamicProperty_run. unfold outcome. cbn [fst].
    by rewrite Hitem, stored_after_set, parse_stored_form.
  - destruct value as [| |b|n|s|elems|props]; try done;
      (eexists; split; [reflexivity|]);
      unfold Worlds.getDynamicProperty; simpl; rewrite lookup_insert_eq; simpl;
      try reflexivity; unfold safeJsonStringify; simpl in Hrt; by rewrite Hrt.
  - intros text parsed Hparse. split.
    + destruct (setDynamicProperty_item key (JString text) self ltac:(discriminate))
        as [_ Hitem].
      rewrite getDynamicProperty_run. unfold outcome. cbn [fst].
      rewrite Hitem, stored_after_set. simpl. by rewrite Hparse.
    + eexists; split; [reflexivity|].
      unfold Worlds.getDynamicProperty; simpl. rewrite lookup_insert_eq. simpl.
      by rewrite Hparse.
  - reflexivity.
  - reflexivity.
Qed.

End DynamicProperties.

(** The example of the doc comment: [{health: 20, attack: 10}] is read back
    as it was written. *)
Lemma dynamic_property_round_trip_witness :
  Items.outcome
    (@Items.getDynamicProperty Sample.json "playerStats"
       (Items.final
          (@Items.setDynamicProperty Sample.json "playerStats"
             (JObject [("health", JNumber 20); ("attack", JNumber 10)]) ItemExample.self)))
  = Normal (JObject [("health", JNumber 20); ("attack", JNumber 10)]).
Proof.
  assert (Hrt : @ItemSpec.round_trips Sample.json
                  (JObject [("health", JNumber 20); ("attack", JNumber 10)]))
    by (vm_compute; reflexivity).
  exact (proj2 (proj1 (@dynamic_property_round_trip Sample.json "playerStats" _
                         ItemExample.self ItemExample.world Hrt))).
Defined.

(** C8 (as stated) fails for a string that is itself a JSON text: the
    string ["123"] is JSON-serializable, is stored as it is, and is read
    back as the number 123. *)
Lemma dynamic_property_string_read_as_number :
  ¬ (∀ (codec : JsonCodec) (key : string) (value : JSValue) (self : Items.ItemData),
       JSON_parse (JSON_stringify value) = Some value →
       Items.outcome
         (Items.getDynamicProperty key (Items.final (Items.setDynamicProperty key value self)))
       = Normal value).
Proof.
  intros Hclaim.
  specialize (Hclaim Sample.json "level" (JString "123") ItemExample.self eq_refl).
  vm_compute in Hclaim. discriminate Hclaim.
Qed.

(** ** Custom effects *)

(** C6 on the example of the doc comment of [addEffect]: the descriptor
    [{name: "speed", level: 1}] is stored under the key ["undefined"] (its
    [effect] member), not under its name, so [getEffects()["speed"]] is
    [undefined] and [removeEffect("speed")] removes nothing. *)
Lemma addEffect_stores_under_effect_member :
  Items.outcome
    (@Items.getEffects Sample.json
       (Items.final (@Items.addEffect Sample.json ItemExample.speed ItemExample.self)))
  = Normal (JObject [("undefined", ItemExample.speed)])
  ∧ js_get (JObject [("undefined", ItemExample.speed)]) "speed" = Normal JUndefined
  ∧ Items.outcome
      (@Items.getEffects Sample.json
         (Items.final
            (@Items.removeEffect Sample.json "speed"
               (Items.final (@Items.addEffect Sample.json ItemExample.speed ItemExample.self)))))
    = Normal (JObject [("undefined", ItemExample.speed)]).
Proof. vm_compute. repeat split. Qed.

(** A descriptor with both members is stored under its [effect] member,
    whatever its [name]. *)
Lemma addEffect_ignores_name :
  Items.outcome
    (@Items.getEffects Sample.json
       (Items.final (@Items.addEffect Sample.json ItemExample.haste ItemExample.self)))
  = Normal (JObject [("haste", ItemExample.haste)]).
Proof. vm_compute. reflexivity. Qed.

Section EffectKey.
Import Items ItemSpec LoreSpec.
Context `{JsonCodec}.

(** In general: [addEffect] files the descriptor under the text of its
    [effect] member, whatever its [name] is. *)
Lemma addEffect_key (self : ItemData) (effect key : JSValue)
    (props : list (string * JSValue)) :
  effects_of (item self) = JObject props →
  js_get effect "effect" = Normal key →
  JSON_parse (JSON_stringify (JObject (props_set props (js_ToString key) effect)))
  = Some (JObject (props_set props (js_ToString key) effect)) →
  outcome (getEffects (final (addEffect effect self)))
  = Normal (JObject (props_set props (js_ToString key) effect)).
Proof.
  intros Hprops Hkey Hjson.
  assert (Hrun : addEffect effect self
                 = setDynamicProperty "effects"
                     (JObject (props_set props (js_ToString key) effect)) self).
  { unfold addEffect, setEffects, getEffects, getDynamicProperty.
    unfold mbind, M_bind, bind, mret, M_ret, ret, this, lift.
    change (js_or (safeJsonParser (host_getDynamicProperty (item self) "effects"))
              (JObject [])) with (effects_of (item self)).
    rewrite Hprops, Hkey. cbn [js_set app].
    by destruct (setDynamicProperty _ _ self) as [[c s] evs]. }
  rewrite Hrun.
  destruct (setDynamicProperty_item "effects"
              (JObject (props_set props (js_ToString key) effect)) self
              ltac:(discriminate)) as [_ Hitem].
  change (outcome (getEffects ?s)) with (Normal (effects_of (item s))).
  rewrite Hitem. unfold effects_of. rewrite stored_after_set.
  cbn [typeof_object safeJsonParser]. unfold safeJsonStringify. by rewrite Hjson.
Qed.

End EffectKey.

(** ** The lore routine *)

Section LoreRoutine.
Import Items ItemSpec LoreSpec.
Context `{JsonCodec} `{ChatFormat} `{Titles}.

Lemma count_app (p : Event → bool) (evs1 evs2 : list Event) :
  count p (evs1 ++ evs2) = (count p evs1 + count p evs2)%nat.
Proof. induction evs1 as [|e evs1 IH]; [reflexivity|]. simpl. rewrite IH. lia. Qed.

Lemma with_lore_id (self : ItemData) : with_lore self (lore (item self)) = self.
Proof. by destruct_self self. Qed.

(** *** The rules of [Appends] *)

Lemma appends_ret {A : Type} (a : A) self : Appends (ret a) self [] 0 (Normal a).
Proof.
  unfold Appends. cbn. rewrite app_nil_r, with_lore_id.
  by destruct (pushable self).
Qed.

Lemma appends_lift {A : Type} (c : Completion A) self : Appends (lift c) self [] 0 c.
Proof.
  unfold Appends. cbn. rewrite app_nil_r, with_lore_id.
  by destruct (pushable self).
Qed.

Lemma appends_throw {A : Type} (e : JSError) self :
  Appends (throw (A:=A) e) self [] 0 (Throw e).
Proof. apply (appends_lift (Throw e)). Qed.

Lemma appends_updateItem self : Appends updateItem self [] 1 (Normal tt).
Proof.
  unfold Appends. rewrite app_nil_r, with_lore_id.
  by destruct_self self.
Qed.

Lemma appends_addLore (l : string) self : Appends (addLore l) self [l] 0 (Normal tt).
Proof. by destruct_self self. Qed.

Lemma appends_bind {A B : Type} (m : M A) (k : A → M B) self l1 x1 a l2 x2 c :
  Appends m self l1 x1 (Normal a) →
  Appends (k a) (with_lore self (lore (item self) ++ l1)) l2 x2 c →
  Appends (m ≫= k) self (l1 ++ l2) (x1 + x2) c.
Proof.
  unfold Appends, mbind, M_bind, bind, outcome, final, events.
  destruct (m self) as [[c1 s1] e1]. cbn [fst snd].
  intros (-> & -> & Hu1 & Hp1 & Hl1).
  destruct (k a _) as [[c2 s2] e2]. cbn [fst snd].
  intros (-> & -> & Hu2 & Hp2 & Hl2).
  rewrite !count_app, Hu1, Hu2, Hp1, Hp2, Hl1, Hl2, length_app.
  change (pushable (with_lore self (lore (item self) ++ l1))) with (pushable self).
  cbn [with_lore with_item item host_setLore lore].
  rewrite <- app_assoc.
  repeat split; try lia. destruct (pushable self); lia.
Qed.

Lemma appends_bind_throw {A B : Type} (m : M A) (k : A → M B) self l1 x1 e :
  Appends m self l1 x1 (Throw e) →
  Appends (m ≫= k) self l1 x1 (Throw e).
Proof.
  unfold Appends, mbind, M_bind, bind, outcome, final, events.
  destruct (m self) as [[c1 s1] e1]. cbn [fst snd].
  by intros (-> & -> & Hu1 & Hp1 & Hl1).
Qed.

(** A read of a dynamic property adds nothing. *)
Lemma appends_getDynamicProperty key self :
  Appends (getDynamicProperty key) self [] 0 (Normal (stored (item self) key)).
Proof.
  unfold Appends. cbn. rewrite app_nil_r, with_lore_id.
  by destruct (pushable self).
Qed.

End LoreRoutine.

(** *** Steps and summaries *)

Lemma then_summary_app {A : Type} (a b : list (Completion string))
    (rest : LoreSummary.Summary A) :
  LoreSummary.then_summary (a ++ b) rest
  = LoreSummary.then_summary a (LoreSummary.then_summary b rest).
Proof.
  unfold LoreSummary.then_summary.
  induction a as [|[l|e] a IH]; simpl.
  - destruct (LoreSpec.steps_outcome b); [by destruct rest as [[? ?] ?]|reflexivity].
  - destruct (LoreSpec.steps_outcome (a ++ b)), (LoreSpec.steps_outcome a),
      (LoreSpec.steps_outcome b); simpl in *; try congruence;
      injection IH; intros; subst; congruence.
  - reflexivity.
Qed.

Lemma then_summary_steps (a b : list (Completion string)) :
  LoreSummary.then_summary a (LoreSpec.steps_lines b, 0%nat, LoreSpec.steps_outcome b)
  = (LoreSpec.steps_lines (a ++ b), 0%nat, LoreSpec.steps_outcome (a ++ b)).
Proof.
  unfold LoreSummary.then_summary.
  induction a as [|[l|e] a IH]; simpl.
  - by destruct (LoreSpec.steps_outcome b) as [[]|].
  - destruct (LoreSpec.steps_outcome a); simpl in *; [|congruence].
    injection IH as IH1 IH2. by rewrite IH1, IH2.
  - reflexivity.
Qed.

Section LoreSteps.
Import Items ItemSpec LoreSpec LoreSummary.
Context `{JsonCodec} `{ChatFormat} `{Titles}.

Lemma appends_then {B : Type} (m : M unit) (k : M B) self steps (rest : Summary B) :
  Appends m self (steps_lines steps) 0 (steps_outcome steps) →
  (steps_outcome steps = Normal tt →
   AppendsS k (with_lore self (lore (item self) ++ steps_lines steps)) rest) →
  AppendsS (m ;; k) self (then_summary steps rest).
Proof.
  unfold AppendsS, then_summary. intros Hm Hk.
  destruct (steps_outcome steps) as [[]|e]; cbn [fst snd].
  - apply (appends_bind m (fun _ => k) self _ 0 tt); [exact Hm|by apply Hk].
  - by apply appends_bind_throw.
Qed.

(** One padded line: the padding is computed, then the line is added. *)
Lemma appends_line (c : Completion string) (f : string → string) self :
  Appends (sp ← lift c; addLore (f sp)) self
    (steps_lines [match c with Normal sp => Normal (f sp) | Throw e => Throw e end]) 0
    (steps_outcome [match c with Normal sp => Normal (f sp) | Throw e => Throw e end]).
Proof.
  destruct c as [sp|e]; cbn [steps_lines steps_outcome].
  - apply (appends_bind (lift (Normal sp)) _ self [] 0 sp [f sp] 0);
      [apply appends_lift|apply appends_addLore].
  - apply appends_bind_throw, appends_lift.
Qed.

Lemma appends_line_then {B : Type} (c : Completion string) (f : string → string)
    (k : M B) self (rest : Summary B) :
  (∀ sp, c = Normal sp → AppendsS k (with_lore self (lore (item self) ++ [f sp])) rest) →
  AppendsS (sp ← lift c; addLore (f sp) ;; k) self
    (then_summary [match c with Normal sp => Normal (f sp) | Throw e => Throw e end] rest).
Proof.
  intros Hk. unfold AppendsS, then_summary.
  destruct c as [sp|e]; cbn [steps_lines steps_outcome fst snd].
  - apply (appends_bind (lift (Normal sp)) _ self [] 0 sp); [apply appends_lift|].
    rewrite app_nil_r, with_lore_id.
    apply (appends_bind (addLore (f sp)) _ self [f sp] 0 tt); [apply appends_addLore|].
    by apply Hk.
  - apply appends_bind_throw, appends_lift.
Qed.

Lemma appends_forM {X : Type} (body : X → M unit) (steps : X → list (Completion string)) :
  (∀ x self, Appends (body x) self (steps_lines (steps x)) 0 (steps_outcome (steps x))) →
  ∀ l self,
    Appends (forM_ l body) self
      (steps_lines (flat_map steps l)) 0 (steps_outcome (flat_map steps l)).
Proof.
  intros Hbody. induction l as [|x l IH]; intros self; cbn [forM_ flat_map].
  - apply appends_ret.
  - pose proof (appends_then (body x) (forM_ l body) self (steps x)
                  (steps_lines (flat_map steps l), 0%nat, steps_outcome (flat_map steps l))
                  (Hbody x self) (fun _ => IH _)) as Hseq.
    rewrite then_summary_steps in Hseq. exact Hseq.
Qed.

Lemma flat_map_singleton {X Y : Type} (f : X → Y) (l : list X) :
  flat_map (fun x => [f x]) l = map f l.
Proof. induction l as [|x l IH]; [reflexivity|]. simpl. by rewrite IH. Qed.

(** The body of the loop over the custom lore. *)
Lemma appends_category (entry : string * JSValue) self :
  Appends
    ((fun '(key, currentLore) =>
        match currentLore with
        | JString currentLore =>
            let displayLength := strlen (removeFormat currentLore) in
            let displaySpaces := strlen longestText - displayLength in
            spaces ← lift (String_repeat " "
                       (Math_floor (inject_Z displaySpaces / 2 + 0.5)%Q + 3));
            let newTitle := spaces +:+ currentLore in
            addLore newTitle
        | _ =>
            spaces ← lift (String_repeat " "
                       (Math_floor (inject_Z (strlen longestText) / 2 + 0.5)%Q + 3));
            addLore (spaces +:+ BOLD +:+ key +:+ RESET) ;;
            match currentLore with
            | JArray lines =>
                forM_ lines (fun line =>
                  match line with
                  | JString line =>
                      let displayLength := strlen (removeFormat line) in
                      let displaySpaces := strlen longestText - displayLength in
                      spaces ← lift (String_repeat " "
                                 (Math_floor (inject_Z displaySpaces / 2 + 0.5)%Q + 3));
                      let newTitle := spaces +:+ line in
                      addLore newTitle
                  | _ => throw Unmodelled
                  end)
            | _ => throw TypeError
            end
        end) entry) self
    (steps_lines (category_steps entry)) 0 (steps_outcome (category_steps entry)).
Proof.
  destruct entry as [key currentLore].
  assert (Hline : ∀ line self',
    Appends
      (match line with
       | JString line =>
           let displayLength := strlen (removeFormat line) in
           let displaySpaces := strlen longestText - displayLength in
           spaces ← lift (String_repeat " "
                      (Math_floor (inject_Z displaySpaces / 2 + 0.5)%Q + 3));
           let newTitle := spaces +:+ line in
           addLore newTitle
       | _ => throw Unmodelled
       end) self'
      (steps_lines [match line with
                    | JString line => centered_step line
                    | _ => Throw Unmodelled
                    end]) 0
      (steps_outcome [match line with
                      | JString line => centered_step line
                      | _ => Throw Unmodelled
                      end])).
  { intros line self'.
    destruct line; try apply (appends_throw (A:=unit) Unmodelled).
    apply (appends_line _ (fun sp => sp +:+ s)). }
  assert (Hother : ∀ (tail : M unit) steps,
    (∀ self', Appends tail self' (steps_lines steps) 0 (steps_outcome steps)) →
    Appends
      (spaces ← lift (String_repeat " "
                 (Math_floor (inject_Z (strlen longestText) / 2 + 0.5)%Q + 3));
       addLore (spaces +:+ BOLD +:+ key +:+ RESET) ;; tail) self
      (steps_lines (header_step (line_padding 0) key :: steps)) 0
      (steps_outcome (header_step (line_padding 0) key :: steps))).
  { intros tail steps Htail.
    pose proof (appends_line_then
                  (String_repeat " "
                     (Math_floor (inject_Z (strlen longestText) / 2 + 0.5)%Q + 3))
                  (fun sp => sp +:+ BOLD +:+ key +:+ RESET) tail self
                  (steps_lines steps, 0%nat, steps_outcome steps)
                  (fun _ _ => Htail _)) as Hseq.
    rewrite then_summary_steps in Hseq. exact Hseq. }
  destruct currentLore as [| |b|n|s|elems|props]; cbn [category_steps snd fst];
    try (apply (Hother (throw TypeError) [Throw TypeError]);
         intros; apply (appends_throw (A:=unit) TypeError)).
  - apply (appends_line _ (fun sp => sp +:+ s)).
  - apply Hother. intros self'.
    rewrite <- (flat_map_singleton
                  (fun line => match line with
                               | JString line => centered_step line
                               | _ => Throw Unmodelled
                               end)).
    apply appends_forM. exact Hline.
Qed.

End LoreSteps.

Section LoreRun.
Import Items ItemSpec LoreSpec LoreSummary.
Context `{JsonCodec} `{ChatFormat} `{Titles}.

(** The body of the loop over the custom enchantments. *)
Lemma appends_enchantment (entry : string * JSValue) self :
  Appends
    ((fun '(enchantment, enchantmentData) =>
        name ← lift (js_get enchantmentData "name");
        let enchantmentTitle :=
          title_or (EnchantmentTitles (js_ToString name)) (js_ToString name +:+ "-failed") in
        level ← lift (js_get enchantmentData "level");
        let displayLength :=
          strlen (removeFormat (enchantmentTitle +:+ " " +:+ js_ToString level)) in
        let displaySpaces := strlen longestText - displayLength in
        spaces ← lift (String_repeat " "
                   (Math_floor (inject_Z displaySpaces / 2 + 0.5)%Q + 3));
        let newTitle := spaces +:+ enchantmentTitle +:+ " " +:+ js_ToString level in
        addLore newTitle) entry) self
    (steps_lines [enchantment_step entry]) 0 (steps_outcome [enchantment_step entry]).
Proof.
  destruct entry as [enchantment data].
  unfold enchantment_step, enchantment_text, member. cbn [snd].
  destruct (js_get data "name") as [name|e] eqn:Hname.
  - assert (Hlevel : ∃ level, js_get data "level" = Normal level)
      by (destruct data; try discriminate Hname; eexists; reflexivity).
    destruct Hlevel as [level Hlevel]. rewrite Hlevel.
    apply (appends_bind (lift (Normal name)) _ self [] 0 name); [apply appends_lift|].
    rewrite app_nil_r, with_lore_id.
    apply (appends_bind (lift (Normal level)) _ self [] 0 level); [apply appends_lift|].
    rewrite app_nil_r, with_lore_id.
    apply (appends_line _
             (fun sp => sp +:+ title_or (EnchantmentTitles (js_ToString name))
                                  (js_ToString name +:+ "-failed")
                          +:+ " " +:+ js_ToString level)).
  - apply appends_bind_throw, appends_lift.
Qed.

(** The body of the loop over the effects. *)
Lemma appends_effect (entry : string * JSValue) self :
  Appends
    ((fun '(effect, effectData) =>
        name ← lift (js_get effectData "name");
        let effectTitle :=
          title_or (ItemEffects (js_ToString name)) (js_ToString name +:+ "-failed") in
        let displayLength := strlen (removeFormat effectTitle) in
        let displaySpaces := strlen longestText - displayLength in
        spaces ← lift (String_repeat " "
                   (Math_floor (inject_Z displaySpaces / 2 + 0.5)%Q + 3));
        let newTitle := spaces +:+ effectTitle in
        addLore newTitle) entry) self
    (steps_lines [effect_step entry]) 0 (steps_outcome [effect_step entry]).
Proof.
  destruct entry as [effect data].
  unfold effect_step, effect_text, member. cbn [snd].
  destruct (js_get data "name") as [name|e] eqn:Hname.
  - apply (appends_bind (lift (Normal name)) _ self [] 0 name); [apply appends_lift|].
    rewrite app_nil_r, with_lore_id.
    apply (appends_line _
             (fun sp => sp +:+ title_or (ItemEffects (js_ToString name))
                                  (js_ToString name +:+ "-failed"))).
  - apply appends_bind_throw, appends_lift.
Qed.

(** A computation that only reads. *)
Lemma appends_pure {A B : Type} (m : M A) (k : A → M B) (a : A) self (s : Summary B) :
  m self = (Normal a, self, []) →
  AppendsS (k a) self s → AppendsS (m ≫= k) self s.
Proof.
  intros Hm Hk. unfold AppendsS in *.
  change (fst (fst s)) with ([] ++ fst (fst s)).
  change (snd (fst s)) with (0 + snd (fst s))%nat.
  apply (appends_bind m k self [] 0 a).
  - unfold Appends. rewrite Hm. cbn. rewrite app_nil_r, with_lore_id.
    by destruct (pushable self).
  - by rewrite app_nil_r, with_lore_id.
Qed.

Lemma updateLore_prefix (k : JSValue → M unit) self (s : Summary unit) :
  AppendsS (k (enchantments_of (item self))) (with_lore self []) s →
  Regenerates
    ((emit Call_updateLore ;;
      enchantments ← getCustomEnchantments;
      setLore [] ;;
      k enchantments) self) self s.
Proof.
  unfold AppendsS, Appends, Regenerates.
  intros (Hout & Hfinal & Hu & Hp & Hl).
  destruct_self self;
    cbv [mbind M_bind bind mret M_ret ret emit this set_item getCustomEnchantments
         getDynamicProperty setLore updateItem slot player item inventory_container
         equippable negb orb];
    cbn in *; destruct (k _ _) as [[c s'] evs]; cbn in *; subst;
    rewrite ?count_app; cbn; repeat split; lia.
Qed.

End LoreRun.

Section LoreRegeneration.
Import Items ItemSpec LoreSpec LoreSummary.
Context `{JsonCodec} `{ChatFormat} `{Titles}.

(** A run of [updateLore] is summarised by its steps. *)
Lemma updateLore_regenerates (self : ItemData) :
  Regenerates (updateLore self) self (updateLore_summary (item self)).
Proof.
  unfold updateLore. apply updateLore_prefix. cbv zeta.
  apply (appends_pure (getDynamicProperty "lore") _ (stored (item self) "lore"));
    [reflexivity|].
  unfold updateLore_summary, main_steps. rewrite then_summary_app.
  apply appends_then.
  - apply (appends_forM _ category_steps). intros; apply appends_category.
  - intros _.
    change (header_step ?p ?t :: ?rest) with ([header_step p t] ++ rest).
    rewrite then_summary_app.
    apply (appends_line_then _ (fun sp => sp +:+ BOLD +:+ "Enchantments" +:+ RESET)).
    intros sp _.
    apply appends_then.
    + rewrite <- (flat_map_singleton enchantment_step).
      apply appends_forM. intros; apply appends_enchantment.
    + intros _.
      apply (appends_pure getEffects _ (effects_of (item self))); [reflexivity|].
      unfold tail_summary.
      destruct (length (js_entries (effects_of (item self))) =? 0)%nat.
      * apply appends_ret.
      * unfold effect_steps.
        change (header_step ?p ?t :: ?rest) with ([header_step p t] ++ rest).
        rewrite then_summary_app.
        apply (appends_line_then _ (fun sp => sp +:+ BOLD +:+ "Effects" +:+ RESET)).
        intros sp' _.
        apply appends_then.
        -- rewrite <- (flat_map_singleton effect_step). apply appends_forM.
           intros; apply appends_effect.
        -- intros _. apply appends_updateItem.
Qed.

End LoreRegeneration.

(** *** From the steps to the lines *)

Section LoreLines.
Import Items ItemSpec LoreSpec LoreSummary.
Context `{JsonCodec} `{ChatFormat} `{Titles}.

Lemma steps_app_normal (a b : list (Completion string)) :
  steps_outcome (a ++ b) = Normal tt →
  steps_outcome a = Normal tt ∧ steps_outcome b = Normal tt
  ∧ steps_lines (a ++ b) = steps_lines a ++ steps_lines b.
Proof.
  induction a as [|[l|e] a IH]; simpl; intros Hout.
  - by destruct (steps_outcome b) as [[]|].
  - destruct (IH Hout) as (Ha & Hb & Hl). by rewrite Hl.
  - discriminate Hout.
Qed.

Lemma then_summary_normal (steps : list (Completion string)) (rest : Summary unit) :
  snd (then_summary steps rest) = Normal tt →
  steps_outcome steps = Normal tt ∧ snd rest = Normal tt
  ∧ fst (fst (then_summary steps rest)) = steps_lines steps ++ fst (fst rest)
  ∧ snd (fst (then_summary steps rest)) = snd (fst rest).
Proof.
  unfold then_summary. destruct (steps_outcome steps) as [[]|e]; simpl; [done|discriminate].
Qed.

Lemma String_repeat_spaces (n : Z) (sp : string) :
  String_repeat " " n = Normal sp → sp = spaces n.
Proof.
  unfold String_repeat, spaces. destruct (n <? 0); [discriminate|congruence].
Qed.

Lemma centered_step_line (text l : string) :
  centered_step text = Normal l → l = centered_line text.
Proof.
  unfold centered_step, centered_line.
  destruct (String_repeat _ _) as [sp|e] eqn:Hsp; [|discriminate].
  apply String_repeat_spaces in Hsp. congruence.
Qed.

Lemma header_step_line (padding : Z) (text l : string) :
  header_step padding text = Normal l → l = spaces padding +:+ BOLD +:+ text +:+ RESET.
Proof.
  unfold header_step.
  destruct (String_repeat _ _) as [sp|e] eqn:Hsp; [|discriminate].
  apply String_repeat_spaces in Hsp. congruence.
Qed.

Lemma lines_of_map {X : Type} (step : X → Completion string) (line : X → string) :
  (∀ x l, step x = Normal l → l = line x) →
  ∀ xs, steps_outcome (map step xs) = Normal tt →
        steps_lines (map step xs) = map line xs.
Proof.
  intros Hstep. induction xs as [|x xs IH]; [reflexivity|]. simpl.
  destruct (step x) as [l|e] eqn:Hx; [|discriminate].
  intros Hout. by rewrite (Hstep x l Hx), IH.
Qed.

Lemma category_lines (entry : string * JSValue) :
  steps_outcome (category_steps entry) = Normal tt →
  steps_lines (category_steps entry) = category_block entry.
Proof.
  destruct entry as [key [| |b|n|s|lines|props]];
    unfold category_steps, category_block; cbn [fst snd];
    try (cbn [steps_outcome steps_lines]; destruct (header_step _ _); discriminate).
  - cbn [steps_outcome steps_lines].
    destruct (centered_step s) as [l|e] eqn:Hs; [|discriminate].
    intros _. by rewrite (centered_step_line _ _ Hs).
  - cbn [steps_outcome steps_lines].
    destruct (header_step _ _) as [l|e] eqn:Hh; [|discriminate].
    intros Hout. rewrite (header_step_line _ _ _ Hh). f_equal.
    apply lines_of_map; [|exact Hout].
    intros [| |b|n|s|elems|props] line; try discriminate.
    apply centered_step_line.
Qed.

Lemma flat_category_lines (entries : list (string * JSValue)) :
  steps_outcome (flat_map category_steps entries) = Normal tt →
  steps_lines (flat_map category_steps entries) = flat_map category_block entries.
Proof.
  induction entries as [|entry entries IH]; [reflexivity|]. cbn [flat_map].
  intros Hout. apply steps_app_normal in Hout as (Ha & Hb & ->).
  by rewrite category_lines, IH.
Qed.

Lemma enchantment_step_line (entry : string * JSValue) (l : string) :
  enchantment_step entry = Normal l → l = centered_line (enchantment_text (snd entry)).
Proof.
  unfold enchantment_step. destruct (js_get _ _); [|discriminate].
  apply centered_step_line.
Qed.

Lemma effect_step_line (entry : string * JSValue) (l : string) :
  effect_step entry = Normal l → l = centered_line (effect_text (snd entry)).
Proof.
  unfold effect_step. destruct (js_get _ _); [|discriminate].
  apply centered_step_line.
Qed.

(** When no step fails, the lines are the lore block of the mappings. *)
Lemma summary_lines (it : ItemStack) :
  snd (updateLore_summary it) = Normal tt →
  fst (fst (updateLore_summary it))
  = regenerated_lore (custom_lore_of it) (enchantments_of it) (effects_of it).
Proof.
  unfold updateLore_summary, regenerated_lore. intros Hout.
  apply then_summary_normal in Hout as (Hmain & Htail & -> & _).
  unfold main_steps in *.
  apply steps_app_normal in Hmain as (Hcat & Hench & ->).
  rewrite (flat_category_lines _ Hcat), <- app_assoc. f_equal.
  cbn [steps_outcome steps_lines] in *.
  destruct (header_step _ "Enchantments") as [l|e] eqn:Hh; [|discriminate].
  rewrite (header_step_line _ _ _ Hh).
  rewrite (lines_of_map _ _ enchantment_step_line _ Hench).
  cbn [app]. unfold section_header. do 2 f_equal.
  unfold tail_summary in *.
  destruct (js_entries (effects_of it)) as [|entry entries] eqn:Heff; [reflexivity|].
  cbn [length Nat.eqb] in *.
  apply then_summary_normal in Htail. destruct Htail as (Heffs & _ & Hlines & _).
  rewrite Hlines.
  unfold effect_steps in *. rewrite app_nil_r.
  cbn [steps_outcome steps_lines] in *.
  destruct (header_step _ "Effects") as [l'|e] eqn:Hh'; [|discriminate].
  rewrite (header_step_line _ _ _ Hh').
  by rewrite (lines_of_map _ _ effect_step_line _ Heffs), Heff.
Qed.

(** The [updateItem] calls beyond one per line: the last call of the
    routine, reached when the effects are not empty and nothing failed. *)
Lemma summary_extra (it : ItemStack) :
  snd (fst (updateLore_summary it))
  = match snd (updateLore_summary it) with
    | Normal _ => if (length (js_entries (effects_of it)) =? 0)%nat then 0%nat else 1%nat
    | Throw _ => 0%nat
    end.
Proof.
  unfold updateLore_summary, then_summary, tail_summary, then_summary.
  destruct (steps_outcome (main_steps _ _)) as [[]|e]; [|reflexivity].
  destruct (length _ =? 0)%nat; [reflexivity|].
  by destruct (steps_outcome (effect_steps _)) as [[]|e].
Qed.

End LoreLines.

(** *** What the lore routine does *)

Section LoreProperties.
Import Items ItemSpec LoreSpec LoreSummary.
Context `{JsonCodec} `{ChatFormat} `{Titles}.

(** C2 (as amended): one run of [updateLore] calls [updateItem] once when it
    clears the lore, once for every line it adds (each [addLore] goes through
    [setLore]), and once more at the end when the effects are not empty and
    the run did not fail; each of these calls hands the item to the container
    or to the equipment when the wrapper has a slot and the player has both
    components. *)
Theorem updateLore_calls_updateItem_per_line (self : ItemData) :
  count is_updateItem (events (updateLore self))
  = (1 + length (lore (item (final (updateLore self))))
     + match outcome (updateLore self) with
       | Normal _ =>
           if (length (js_entries (effects_of (item self))) =? 0)%nat then 0 else 1
       | Throw _ => 0
       end)%nat
  ∧ count is_push (events (updateLore self))
    = (if pushable self then count is_updateItem (events (updateLore self)) else 0)%nat.
Proof.
  destruct (updateLore_regenerates self) as (Hout & Hfinal & Hu & Hp & _).
  rewrite Hu, Hp, Hfinal, Hout, summary_extra. split; reflexivity.
Qed.


(** C4 (as amended): in the scenario the lore is, in order, the centered
    line "Rare Item" (the value of the entry; its key "Info" is not shown),
    the centered bold "Enchantments" header, and the centered line
    "Sharpness 3", or "sharpness-failed 3" when the title table lacks the
    name; there is no "Effects" section. *)
Theorem scenario_lore (self : ItemData) :
  custom_lore_of (item self) = JObject [("Info", JString "Rare Item")] →
  enchantments_of (item self)
  = JObject [("sharpness", JObject [("name", JString "sharpness"); ("level", JNumber 3)])] →
  js_entries (effects_of (item self)) = [] →
  removeFormat "Rare Item" = "Rare Item" →
  removeFormat "Sharpness 3" = "Sharpness 3" →
  removeFormat "sharpness-failed 3" = "sharpness-failed 3" →
  (EnchantmentTitles "sharpness" = Some "Sharpness" →
   outcome (updateLore self) = Normal tt
   ∧ lore (item (final (updateLore self)))
     = ["         Rare Item";
        "     " +:+ BOLD +:+ "Enchantments" +:+ RESET;
        "        Sharpness 3"])
  ∧ (EnchantmentTitles "sharpness" = None →
     outcome (updateLore self) = Normal tt
     ∧ lore (item (final (updateLore self)))
       = ["         Rare Item";
          "     " +:+ BOLD +:+ "Enchantments" +:+ RESET;
          "     sharpness-failed 3"]).
Proof.
  intros Hlore Hench Heff Hf1 Hf2 Hf3.
  destruct (updateLore_regenerates self) as (Hout & Hfinal & _).
  rewrite Hout, Hfinal.
  unfold updateLore_summary, tail_summary. rewrite Hlore, Hench, Heff.
  change (main_steps _ _)
    with [centered_step "Rare Item";
          header_step (header_padding (strlen "Enchantments")) "Enchantments";
          enchantment_step
            ("sharpness", JObject [("name", JString "sharpness"); ("level", JNumber 3)])].
  assert (Hline : centered_step "Rare Item" = Normal "         Rare Item")
    by (unfold centered_step; rewrite Hf1; reflexivity).
  assert (Hheader :
    header_step (header_padding (strlen "Enchantments")) "Enchantments"
    = Normal ("     " +:+ BOLD +:+ "Enchantments" +:+ RESET)) by reflexivity.
  rewrite Hline, Hheader.
  unfold enchantment_step, enchantment_text, member, centered_step.
  change (js_get _ "name") with (Normal (JString "sharpness")).
  change (js_get _ "level") with (Normal (JNumber 3)).
  cbn [snd js_ToString].
  split; intros Htitle; rewrite Htitle; cbn [title_or String.eqb].
  - change ("Sharpness" +:+ " " +:+ Z_toString 3) with "Sharpness 3".
    rewrite Hf2. split; reflexivity.
  - change (("sharpness" +:+ "-failed") +:+ " " +:+ Z_toString 3)
      with "sharpness-failed 3".
    rewrite Hf3. split; reflexivity.
Qed.

End LoreProperties.

(** The scenario on a concrete item: the three lines, and no fourth. *)
Lemma scenario_lore_witness :
  Items.outcome (@Items.updateLore Sample.json Sample.chat Sample.titles ItemExample.rare)
  = Normal tt
  ∧ Items.lore
      (Items.item
         (Items.final
            (@Items.updateLore Sample.json Sample.chat Sample.titles ItemExample.rare)))
    = ["         Rare Item";
       "     " +:+ fmt "l" +:+ "Enchantments" +:+ fmt "r";
       "        Sharpness 3"].
Proof.
  apply (@scenario_lore Sample.json Sample.chat Sample.titles ItemExample.rare);
    vm_compute; reflexivity.
Defined.

(** C4 (as stated) fails: no line of the lore of the scenario is a centered
    "Info" line, and no line contains "Info" at all. *)
Lemma scenario_lore_has_no_Info_line :
  ((@LoreSpec.centered_line Sample.chat "Info")
   ∉ Items.lore
       (Items.item
          (Items.final
             (@Items.updateLore Sample.json Sample.chat Sample.titles ItemExample.rare))))
  ∧ (Forall (fun line => String.index 0 "Info" line = None)
       (Items.lore
          (Items.item
             (Items.final
                (@Items.updateLore Sample.json Sample.chat Sample.titles
                   ItemExample.rare))))).
Proof.
  assert (Hlore :
    Items.lore
      (Items.item
         (Items.final
            (@Items.updateLore Sample.json Sample.chat Sample.titles ItemExample.rare)))
    = ["         Rare Item";
       "     " +:+ fmt "l" +:+ "Enchantments" +:+ fmt "r";
       "        Sharpness 3"]) by (vm_compute; reflexivity).
  rewrite Hlore. split.
  - intros Hin.
    repeat (apply elem_of_cons in Hin as [Heq|Hin]; [vm_compute in Heq; discriminate Heq|]).
    by apply elem_of_nil in Hin.
  - repeat constructor.
Qed.



(** A line too long for the padding to be positive makes the routine fail
    with the RangeError of [repeat], after the lore was cleared. *)
Lemma updateLore_long_line_fails :
  Items.outcome (@Items.updateLore Sample.json Sample.chat Sample.titles ItemExample.wordy)
  = Throw RangeError
  ∧ Items.lore
      (Items.item
         (Items.final
            (@Items.updateLore Sample.json Sample.chat Sample.titles ItemExample.wordy)))
    = [].
Proof. vm_compute. split; reflexivity. Qed.

(** C2 (as stated) fails in the scenario: the item is pushed four times,
    after the clearing of the lore and after each of the three lines, and the
    [updateItem] at the end of the routine is not reached (no effects). *)
Lemma updateLore_pushes_after_every_line :
  Items.outcome (@Items.updateLore Sample.json Sample.chat Sample.titles ItemExample.rare)
  = Normal tt
  ∧ ItemSpec.count ItemSpec.is_push
      (Items.events
         (@Items.updateLore Sample.json Sample.chat Sample.titles ItemExample.rare))
    = 4%nat
  ∧ ItemSpec.count ItemSpec.is_push
      (Items.events
         (@Items.updateLore Sample.json Sample.chat Sample.titles ItemExample.rare))
    ≠ 1%nat.
Proof. vm_compute. repeat split. discriminate. Qed.

(** ** Which mutators regenerate the lore *)

Section Mutators.
Import Items ItemSpec LoreSpec LoreSummary MutatorSpec.
Context `{JsonCodec} `{ChatFormat} `{Titles}.

Lemma quiet_lift {A : Type} (c : Completion A) : Quiet (lift c).
Proof. by intros self. Qed.

Lemma quiet_getDynamicProperty key : Quiet (getDynamicProperty key).
Proof. by intros self. Qed.

Lemma quiet_setDynamicProperty key value : Quiet (setDynamicProperty key value).
Proof. intros self. destruct value; by destruct_self self. Qed.

Lemma quiet_bind {A B : Type} (m : M A) (k : A → M B) :
  Quiet m → (∀ a, Quiet (k a)) → Quiet (m ≫= k).
Proof.
  intros Hm Hk self. specialize (Hm self).
  unfold keeps_lore, mbind, M_bind, bind, outcome, final, events in *.
  destruct (m self) as [[[a|e] s1] e1]; cbn [fst snd] in *; [|exact Hm].
  specialize (Hk a s1). unfold keeps_lore, final, events in Hk.
  destruct (k a s1) as [[c2 s2] e2]. cbn [fst snd] in *.
  rewrite count_app. destruct Hm as [-> <-], Hk as [-> ->]. by split.
Qed.

Lemma quiet_getEffects : Quiet getEffects.
Proof. by intros self. Qed.

Create HintDb quiet discriminated.
#[local] Hint Resolve quiet_lift quiet_getDynamicProperty quiet_getEffects
  quiet_setDynamicProperty : quiet.
#[local] Hint Extern 2 (Quiet (_ ≫= _)) =>
  apply quiet_bind; [|intros ?; cbv beta zeta] : quiet.

Lemma quiet_addCustomLore l category : Quiet (addCustomLore l category).
Proof. unfold addCustomLore. auto with quiet. Qed.

Lemma quiet_removeCustomLore l category : Quiet (removeCustomLore l category).
Proof. unfold removeCustomLore. auto with quiet. Qed.

Lemma quiet_addEffect effect : Quiet (addEffect effect).
Proof. unfold addEffect, setEffects. auto with quiet. Qed.

Lemma quiet_removeEffect effect : Quiet (removeEffect effect).
Proof. unfold removeEffect, setEffects. auto with quiet. Qed.

(** [setCustomEnchantments] stores the mapping and runs [updateLore] once. *)
Lemma setCustomEnchantments_updates enchantments self :
  enchantments ≠ JUndefined →
  count is_updateLore (events (setCustomEnchantments enchantments self)) = 1%nat.
Proof.
  intros Hdef. unfold setCustomEnchantments.
  pose proof (quiet_setDynamicProperty "enchantments" enchantments self) as [Hq _].
  destruct (setDynamicProperty_item "enchantments" enchantments self Hdef) as [Hout _].
  unfold mbind, M_bind, bind, outcome, events in *.
  destruct (setDynamicProperty _ _ self) as [[c s1] e1]. cbn [fst snd] in *. subst c.
  destruct (updateLore_regenerates s1) as (_ & _ & _ & _ & Hl).
  unfold events in Hl. destruct (updateLore s1) as [[c2 s2] e2]. cbn [fst snd] in *.
  rewrite count_app. lia.
Qed.

(** C1 (as amended): the three mutators of the custom enchantments run
    [updateLore] (once) before they return, [addCustomEnchantment] and
    [removeCustomEnchantment] when the stored enchantments are a mapping or
    absent; the mutators of the custom lore and of the effects do not run
    [updateLore], and leave the lore of the item as it was. *)
Theorem updateLore_runs_after_enchantment_mutators_only (self : ItemData) :
  (∀ enchantments, enchantments ≠ JUndefined →
     count is_updateLore (events (setCustomEnchantments enchantments self)) = 1%nat)
  ∧ (∀ props, enchantments_of (item self) = JObject props →
       (∀ enchantment,
          count is_updateLore (events (addCustomEnchantment enchantment self)) = 1%nat)
       ∧ (∀ enchantment,
            count is_updateLore (events (removeCustomEnchantment enchantment self)) = 1%nat))
  ∧ (∀ l category, keeps_lore (addCustomLore l category self) self)
  ∧ (∀ l category, keeps_lore (removeCustomLore l category self) self)
  ∧ (∀ effects, keeps_lore (setEffects effects self) self)
  ∧ (∀ effect, keeps_lore (addEffect effect self) self)
  ∧ (∀ effect, keeps_lore (removeEffect effect self) self).
Proof.
  split; [intros; by apply setCustomEnchantments_updates|].
  split.
  - intros props Hprops. split; intros enchantment.
    + unfold addCustomEnchantment, getCustomEnchantments, getDynamicProperty.
      unfold mbind, M_bind, bind, mret, M_ret, ret, this, lift.
      change (js_or (safeJsonParser (host_getDynamicProperty (item self) "enchantments"))
                (JObject [])) with (enchantments_of (item self)).
      rewrite Hprops. cbn [js_set app].
      pose proof (setCustomEnchantments_updates
                    (JObject (props_set props (name enchantment)
                                (EnchantmentDataT_value enchantment))) self
                    ltac:(discriminate)) as Hone.
      destruct (setCustomEnchantments _ self) as [[c s] evs]. exact Hone.
    + unfold removeCustomEnchantment, getCustomEnchantments, getDynamicProperty.
      unfold mbind, M_bind, bind, mret, M_ret, ret, this, lift.
      change (js_or (safeJsonParser (host_getDynamicProperty (item self) "enchantments"))
                (JObject [])) with (enchantments_of (item self)).
      rewrite Hprops. cbn [js_delete app].
      pose proof (setCustomEnchantments_updates
                    (JObject (props_delete props enchantment)) self
                    ltac:(discriminate)) as Hone.
      destruct (setCustomEnchantments _ self) as [[c s] evs]. exact Hone.
  - split; [intros; apply quiet_addCustomLore|].
    split; [intros; apply quiet_removeCustomLore|].
    split; [intros; apply quiet_setDynamicProperty|].
    split; intros; [apply quiet_addEffect|apply quiet_removeEffect].
Qed.

End Mutators.

(** On the wrapped sword: storing the enchantments of the scenario runs
    [updateLore] once; adding the effect of the doc comment runs it not at
    all. *)
Lemma updateLore_runs_after_enchantment_mutators_only_witness :
  ItemSpec.count ItemSpec.is_updateLore
    (Items.events
       (@Items.setCustomEnchantments Sample.json Sample.chat Sample.titles
          ItemExample.sharp_enchantments ItemExample.self))
  = 1%nat
  ∧ ItemSpec.count ItemSpec.is_updateLore
      (Items.events
         (@Items.addCustomEnchantment Sample.json Sample.chat Sample.titles
            ItemExample.sharpness_3 ItemExample.self))
    = 1%nat
  ∧ MutatorSpec.keeps_lore
      (@Items.addEffect Sample.json ItemExample.speed ItemExample.self) ItemExample.self.
Proof.
  destruct (@updateLore_runs_after_enchantment_mutators_only Sample.json Sample.chat
              Sample.titles ItemExample.self)
    as (Hset & Hench & _ & _ & _ & Heffect & _).
  assert (Hmapping :
    @LoreSpec.enchantments_of Sample.json (Items.item ItemExample.self) = JObject [])
    by (vm_compute; reflexivity).
  split; [exact (Hset ItemExample.sharp_enchantments ltac:(discriminate))|].
  split; [exact (proj1 (Hench [] Hmapping) ItemExample.sharpness_3)
         |exact (Heffect ItemExample.speed)].
Defined.

(** C1 (as stated) fails for the custom lore: [addCustomLore] stores the
    new mapping and returns without a call of [updateLore]; the lore of the
    item stays empty until the caller runs [updateLore]. *)
Lemma addCustomLore_does_not_update_lore :
  Items.outcome
    (@Items.addCustomLore Sample.json (Items.LoreLine "Rare Item") (Some "Info")
       ItemExample.self)
  = Normal tt
  ∧ @LoreSpec.custom_lore_of Sample.json
      (Items.item
         (Items.final
            (@Items.addCustomLore Sample.json (Items.LoreLine "Rare Item") (Some "Info")
               ItemExample.self)))
    = ItemExample.info_lore
  ∧ (Items.Call_updateLore
     ∉ Items.events
         (@Items.addCustomLore Sample.json (Items.LoreLine "Rare Item") (Some "Info")
            ItemExample.self))
  ∧ Items.lore
      (Items.item
         (Items.final
            (@Items.addCustomLore Sample.json (Items.LoreLine "Rare Item") (Some "Info")
               ItemExample.self)))
    = [].
Proof.
  repeat split; try (vm_compute; reflexivity).
  assert (Hevents :
    Items.events
      (@Items.addCustomLore Sample.json (Items.LoreLine "Rare Item") (Some "Info")
         ItemExample.self)
    = [Items.Call_updateItem;
       Items.Container_setItem 0
         (Items.item
            (Items.final
               (@Items.addCustomLore Sample.json (Items.LoreLine "Rare Item")
                  (Some "Info") ItemExample.self)))])
    by (vm_compute; reflexivity).
  rewrite Hevents. intros Hin.
  repeat (apply elem_of_cons in Hin as [Heq|Hin]; [discriminate Heq|]).
  by apply elem_of_nil in Hin.
Qed.

(** ** Further properties of the specification *)

Section FormExtras.
Import Forms.
Context `{TypeIds}.

Lemma array_get_set_eq {A : Type} (arr : JSArray A) (i : Z) (x : A) :
  0 ≤ i → array_get (array_set arr i x) i = Some x.
Proof.
  intros Hi. unfold array_get, array_set. cbv zeta.
  destruct (Z.ltb_spec i 0) as [Hneg|_]; [lia|].
  destruct (Nat.ltb_spec (Z.to_nat i) (length arr)) as [Hlt|Hge].
  - by rewrite list_lookup_insert_eq.
  - rewrite lookup_app_r by lia.
    rewrite lookup_app_r by (rewrite length_replicate; lia).
    rewrite length_replicate, Nat.sub_diag. reflexivity.
Qed.

(** The slot count of every size class, and as many empty buttons. *)
Lemma constructor_slot_count (size : ChestSize) :
  slotCount (constructor size)
  = match size with
    | SIZE_5 => 5
    | SIZE_9 => 9
    | SIZE_18 => 18
    | SINGLE | SMALL | SIZE_27 => 27
    | SIZE_36 => 36
    | SIZE_45 => 45
    | DOUBLE | LARGE | SIZE_54 => 54
    end
  ∧ Z.of_nat (length (buttonArray (constructor size))) = slotCount (constructor size)
  ∧ ∀ slot, 0 ≤ slot < slotCount (constructor size) →
      array_get (buttonArray (constructor size)) slot = Some (EmptyString, IconUndefined).
Proof.
  destruct size; (split; [reflexivity|split; [reflexivity|]]);
    intros slot Hslot; unfold array_get;
    (destruct (Z.ltb_spec slot 0); [lia|]);
    cbn [constructor sizes default from_option id buttonArray slotCount] in *;
    rewrite lookup_replicate_2 by lia; reflexivity.
Qed.


(** For a texture the tables resolve, the icon of a glinting button is
    32768 more than the icon of the same button without glint. *)
Lemma button_glint_offset form slot name desc tex amount (ID : Z) :
  0 ≤ slot →
  match typeIdToDataId tex with
  | Some ID' => Some ID'
  | None => typeIdToID tex
  end = Some ID →
  ∃ text n,
    array_get (buttonArray (button form slot name desc (Some tex) amount (Some false))) slot
    = Some (text, IconNumber n)
    ∧ array_get (buttonArray (button form slot name desc (Some tex) amount (Some true))) slot
      = Some (text, IconNumber (n + 32768)).
Proof.
  intros Hslot Hid. unfold button. cbn [buttonArray].
  rewrite !array_get_set_eq by exact Hslot.
  change (default EmptyString (Some tex)) with tex.
  rewrite Hid. eexists _, _. split; [reflexivity|]. do 3 f_equal. cbn. lia.
Qed.

End FormExtras.

Section LoreExtras.
Import Items ItemSpec LoreSpec LoreSummary.
Context `{JsonCodec} `{ChatFormat} `{Titles}.

(** [Math.floor] of the halves, in integers. *)
Lemma Math_floor_half_up (d : Z) : Math_floor (inject_Z d / 2 + 0.5)%Q = (d + 1) / 2.
Proof.
  assert (E : (inject_Z d / 2 + 0.5 == (d + 1) # 2)%Q).
  { unfold Qeq, Qplus, Qdiv, Qmult, Qinv, inject_Z. cbn. lia. }
  unfold Math_floor. rewrite E. reflexivity.
Qed.

Lemma Math_floor_half (d : Z) : Math_floor (inject_Z d / 2)%Q = d / 2.
Proof.
  assert (E : (inject_Z d / 2 == d # 2)%Q).
  { unfold Qeq, Qplus, Qdiv, Qmult, Qinv, inject_Z. cbn. lia. }
  unfold Math_floor. rewrite E. reflexivity.
Qed.

(** The paddings in integers: [W] is 21. *)
Lemma padding_in_integers (len : Z) :
  line_padding len = (22 - len) / 2 + 3 ∧ header_padding len = (21 - len) / 2 + 1.
Proof.
  unfold line_padding, header_padding. rewrite Math_floor_half_up, Math_floor_half.
  change W with 21. split; f_equal; f_equal; lia.
Qed.

(** Running [updateLore] twice in a row gives the lore, and the outcome, of
    running it once. *)
Lemma updateLore_idempotent (self : ItemData) :
  final (updateLore (final (updateLore self))) = final (updateLore self)
  ∧ outcome (updateLore (final (updateLore self))) = outcome (updateLore self).
Proof.
  destruct (updateLore_regenerates self) as (Hout & Hfinal & _).
  destruct (updateLore_regenerates (final (updateLore self))) as (Hout' & Hfinal' & _).
  rewrite Hout', Hfinal', Hout, Hfinal. split; reflexivity.
Qed.

End LoreExtras.


(** The diamond of the sample table, with and without glint. *)
Lemma button_glint_offset_witness :
  ∃ text n,
    Forms.array_get
      (Forms.buttonArray
         (@Forms.button Sample.type_ids PatternExample.form 3 None None
            (Some "minecraft:diamond") None (Some false))) 3
    = Some (text, Forms.IconNumber n)
    ∧ Forms.array_get
        (Forms.buttonArray
           (@Forms.button Sample.type_ids PatternExample.form 3 None None
              (Some "minecraft:diamond") None (Some true))) 3
      = Some (text, Forms.IconNumber (n + 32768)).
Proof.
  exact (@button_glint_offset Sample.type_ids PatternExample.form 3 None None
           "minecraft:diamond" None 304 ltac:(lia) eq_refl).
Defined.

(** * Further properties of the code *)

(** ** Showing a chest form *)

Section ShowProperties.
Import Forms FormShow FormBuild.
Context `{TypeIds}.

Lemma array_set_dense (arr : JSArray Button) (slot : Z) (b : Button) :
  0 ≤ slot < Z.of_nat (length arr) → Forall is_Some arr →
  length (array_set arr slot b) = length arr ∧ Forall is_Some (array_set arr slot b).
Proof.
  intros Hslot Hsome. unfold array_set.
  destruct (Z.ltb_spec slot 0) as [|_]; [lia|]. cbv zeta.
  destruct (Nat.ltb_spec (Z.to_nat slot) (length arr)) as [Hlt|]; [|lia].
  split; [by rewrite length_insert|].
  apply Forall_insert; [done|by eexists].
Qed.

Lemma button_dense form slot n d t s e :
  Dense form → 0 ≤ slot < slotCount form → Dense (button form slot n d t s e).
Proof.
  intros (Hpos & Hlen & Hsome) Hslot. unfold Dense, button. cbn.
  edestruct (array_set_dense (buttonArray form) slot) as [Hlen' Hsome'];
    [lia|done|]. rewrite Hlen'. eauto.
Qed.

Lemma pattern_row_dense key row : ∀ form r c,
  0 ≤ r → 0 ≤ c → Dense form → Dense (pattern_row form key row r c).
Proof.
  induction row as [|ch rest IH]; intros form r c Hr Hc Hdense; [done|].
  cbn [pattern_row]. apply IH; [done|lia|].
  destruct (key !! _) as [data|]; [|done].
  destruct (Z.ltb_spec (c + r * numCols) (slotCount form)); [|done].
  apply button_dense; [done|]. unfold numCols in *. lia.
Qed.

Lemma pattern_rows_dense key rows : ∀ form r,
  0 ≤ r → Dense form → Dense (pattern_rows form key rows r).
Proof.
  induction rows as [|row rest IH]; intros form r Hr Hdense; [done|].
  cbn [pattern_rows]. apply IH; [lia|]. by apply pattern_row_dense.
Qed.

Lemma constructor_dense size : Dense (constructor size).
Proof.
  destruct size; unfold Dense; cbn; (split; [lia|]); (split; [reflexivity|]);
    apply Forall_replicate; by eexists.
Qed.

Lemma built_dense form : Built form → Dense form.
Proof.
  induction 1 as [size|form text _ IH|form slot n d t s e _ IH Hslot|form rows key _ IH].
  - apply constructor_dense.
  - exact IH.
  - by apply button_dense.
  - by apply pattern_rows_dense.
Qed.

Lemma show_buttons (form : ChestFormData) :
  form_buttons (show form) = omap (fmap sent) (buttonArray form).
Proof.
  unfold show. cbn. induction (buttonArray form) as [|[[text icon]|] l IH];
    cbn; by rewrite ?IH.
Qed.

Lemma omap_dense (arr : JSArray Button) :
  Forall is_Some arr →
  length (omap (fmap sent) arr) = length arr
  ∧ ∀ k, omap (fmap sent) arr !! k = (arr !! k) ≫= fmap sent.
Proof.
  induction 1 as [|x l [b ->] _ [IHlen IH]]; [done|]. cbn. split; [by rewrite IHlen|].
  intros [|k]; [done|]. apply IH.
Qed.

(** X5. A form built by the constructor, [title], [pattern] and [button]
    calls whose slots are slots of the chest is shown with exactly one button
    per slot, in slot order: the button the host receives at position [k] is
    the one of slot [k], so that the selection the response reports is the
    slot. *)
Theorem show_sends_one_button_per_slot (form : ChestFormData) :
  Built form →
  form_title (show form) = titleText form
  ∧ length (form_buttons (show form)) = Z.to_nat (slotCount form)
  ∧ ∀ k, 0 ≤ k < slotCount form →
      ∃ b, array_get (buttonArray form) k = Some b
           ∧ form_buttons (show form) !! Z.to_nat k = Some (sent b).
Proof.
  intros Hbuilt. destruct (built_dense form Hbuilt) as (Hpos & Hlen & Hsome).
  destruct (omap_dense _ Hsome) as [Hlen' Hnth].
  split; [reflexivity|]. rewrite show_buttons. split; [lia|].
  intros k Hk. rewrite Hnth. unfold array_get.
  destruct (Z.ltb_spec k 0); [lia|].
  destruct (lookup_lt_is_Some_2 (buttonArray form) (Z.to_nat k)) as [x Hx]; [lia|].
  rewrite Hx. rewrite Forall_lookup in Hsome. destruct (Hsome _ _ Hx) as [b ->].
  by exists b.
Qed.


End ShowProperties.

(** A diamond pattern on the 18-slot chest. *)
Lemma show_sends_one_button_per_slot_witness :
  length (FormShow.form_buttons
            (FormShow.show
               (@Forms.pattern Sample.type_ids PatternExample.form ["X.X"]
                  PatternExample.key))) = 18%nat.
Proof.
  exact (proj1 (proj2 (@show_sends_one_button_per_slot Sample.type_ids _
           (@FormBuild.Built_pattern Sample.type_ids _ ["X.X"] PatternExample.key
              (@FormBuild.Built_constructor Sample.type_ids Forms.SIZE_18))))).
Defined.


(** ** The wrapper and the player's inventory *)

Section OrderlyRules.
Import Items ItemSpec LoreSpec ItemMethods MethodSpec.
Context `{JsonCodec} `{ChatFormat} `{Titles} `{EnchantableHost}.

Lemma pushed_app (evs1 evs2 : list Event) :
  pushed (evs1 ++ evs2) = pushed evs1 ++ pushed evs2.
Proof.
  induction evs1 as [|e evs1 IH]; [done|]. destruct e; cbn; by rewrite ?IH.
Qed.

Lemma pushed_silent (evs : list Event) :
  (∀ e, e ∈ evs → push_slot e = None) → pushed evs = [].
Proof.
  induction evs as [|e evs IH]; [done|]. intros Hevs.
  assert (He : push_slot e = None) by (apply Hevs; left).
  rewrite <- IH by (intros e' He'; apply Hevs; by right).
  by destruct e.
Qed.

Lemma last_cons_app {X : Type} (x y : X) (l1 l2 : list X) :
  last (x :: l1) = Some y → last (x :: l1 ++ l2) = last (y :: l2).
Proof.
  intros Hlast. rewrite app_comm_cons.
  destruct l2 as [|z l2 _] using rev_ind.
  - by rewrite app_nil_r.
  - rewrite app_assoc, app_comm_cons. by rewrite !last_snoc.
Qed.

Lemma same_components_refl it : same_components it it.
Proof. by split. Qed.

Lemma same_components_trans it1 it2 it3 :
  same_components it1 it2 → same_components it2 it3 → same_components it1 it3.
Proof. intros [Ha Hb] [Hc Hd]. split; [congruence|tauto]. Qed.

Lemma silent_orderly {A : Type} (m : M A) : Silent m → Orderly m.
Proof.
  intros Hm self. destruct (Hm self) as (Hfinal & Hslot).
  unfold OrderlyRun. rewrite Hfinal, (pushed_silent _ Hslot). repeat split; try done.
  - by destruct self.
  - intros e s He Hs. rewrite (Hslot e He) in Hs. done.
Qed.

Lemma silent_ret {A : Type} (a : A) : Silent (ret a).
Proof. intros self. split; [done|]. intros e He. inversion He. Qed.

Lemma silent_lift {A : Type} (c : Completion A) : Silent (lift c).
Proof. intros self. split; [done|]. intros e He. inversion He. Qed.

Lemma silent_throw {A : Type} (e : JSError) : Silent (throw e : M A).
Proof. intros self. split; [done|]. intros e' He. inversion He. Qed.

Lemma silent_this : Silent this.
Proof. intros self. split; [done|]. intros e He. inversion He. Qed.

Lemma silent_emit (e : Event) : push_slot e = None → Silent (emit e).
Proof.
  intros He self. split; [done|]. intros e' He'.
  apply list_elem_of_singleton in He'. by subst.
Qed.

Lemma silent_debugWarn f msg : Silent (debugWarn f msg).
Proof. by apply silent_emit. Qed.

Lemma silent_bind {A B : Type} (m : M A) (k : A → M B) :
  Silent m → (∀ a, Silent (k a)) → Silent (m ≫= k).
Proof.
  intros Hm Hk self. specialize (Hm self).
  unfold mbind, M_bind, bind, final, events in *.
  destruct (m self) as [[[a|e] self1] evs1]; cbn [fst snd] in *; [|exact Hm].
  destruct Hm as [-> Hevs1]. specialize (Hk a self). unfold final, events in Hk.
  destruct (k a self) as [[c self2] evs2]; cbn [fst snd] in *.
  destruct Hk as [-> Hevs2]. split; [done|].
  intros e He. apply elem_of_app in He as [He|He]; eauto.
Qed.

Lemma silent_getDynamicProperty key : Silent (getDynamicProperty key).
Proof. apply silent_bind; [apply silent_this|]. intros self. apply silent_ret. Qed.

Lemma silent_getLore : Silent getLore.
Proof. apply silent_bind; [apply silent_this|]. intros self. apply silent_ret. Qed.

Lemma silent_getCustomLore : Silent getCustomLore.
Proof. apply silent_bind; [apply silent_getDynamicProperty|]. intros v. apply silent_ret. Qed.

Lemma silent_getCustomEnchantments : Silent getCustomEnchantments.
Proof. apply silent_bind; [apply silent_getDynamicProperty|]. intros v. apply silent_ret. Qed.

Lemma silent_getEffects : Silent getEffects.
Proof. apply silent_bind; [apply silent_getDynamicProperty|]. intros v. apply silent_ret. Qed.

Lemma orderly_bind {A B : Type} (m : M A) (k : A → M B) :
  Orderly m → (∀ a, Orderly (k a)) → Orderly (m ≫= k).
Proof.
  intros Hm Hk self. specialize (Hm self).
  unfold OrderlyRun, mbind, M_bind, bind, final, events in *.
  destruct (m self) as [[[a|e] self1] evs1]; cbn [fst snd] in *; [|exact Hm].
  destruct Hm as (Hfin1 & Hcomp1 & Hslot1 & Hsync1 & Hnone1).
  specialize (Hk a self1). unfold OrderlyRun, final, events in Hk.
  destruct (k a self1) as [[c self2] evs2]; cbn [fst snd] in *.
  destruct Hk as (Hfin2 & Hcomp2 & Hslot2 & Hsync2 & Hnone2).
  assert (Hpushable : pushable self1 = pushable self) by (by rewrite Hfin1).
  assert (Hslot : slot self1 = slot self) by (by rewrite Hfin1).
  rewrite Hpushable in *. rewrite Hslot in *.
  split; [|split; [|split; [|split]]].
  - rewrite Hfin2, Hfin1. reflexivity.
  - by eapply same_components_trans.
  - intros e s He. apply elem_of_app in He as [He|He]; eauto.
  - intros Hp. rewrite pushed_app.
    rewrite (last_cons_app _ _ _ _ (Hsync1 Hp)). auto.
  - intros Hp. rewrite pushed_app, Hnone1, Hnone2; done.
Qed.

Lemma orderly_forM {X : Type} (body : X → M unit) (l : list X) :
  (∀ x, Orderly (body x)) → Orderly (forM_ l body).
Proof.
  intros Hbody. induction l as [|x l IH]; [apply silent_orderly, silent_ret|].
  cbn [forM_]. apply orderly_bind; [done|]. by intros _.
Qed.

(** After a silent step the run goes on from the same wrapper. *)
Lemma run_after_silent {A B : Type} (m : M A) (k : A → M B) self :
  Silent m →
  (∀ a, outcome (m self) = Normal a → OrderlyRun self (k a self)) →
  OrderlyRun self ((m ≫= k) self).
Proof.
  intros Hm Hk. pose proof (silent_orderly m Hm self) as Hrun.
  destruct (Hm self) as [Hfinal Hevs]. apply pushed_silent in Hevs.
  unfold OrderlyRun, mbind, M_bind, bind, final, events, outcome in *.
  destruct (m self) as [[[a|e] self1] evs1]; cbn [fst snd] in *; [|exact Hrun].
  subst self1. specialize (Hk a eq_refl).
  destruct (k a self) as [[c self2] evs2]; cbn [fst snd] in *.
  destruct Hk as (Hfin2 & Hcomp2 & Hslot2 & Hsync2 & Hnone2).
  destruct Hrun as (_ & _ & Hslot1 & _ & _).
  split; [done|]. split; [done|]. split; [|split].
  - intros e s He. apply elem_of_app in He as [He|He]; eauto.
  - intros Hp. rewrite pushed_app, Hevs. auto.
  - intros Hp. rewrite pushed_app, Hevs. auto.
Qed.

Lemma orderly_updateItem : Orderly updateItem.
Proof.
  intros self. destruct_self self;
    cbv [OrderlyRun updateItem mbind M_bind bind mret M_ret ret emit this final events
         pushable slot player item inventory_container equippable negb orb andb fst snd
         app with_item pushed push_slot last];
    (split; [reflexivity|]); (split; [apply same_components_refl|]);
    (split; [|by split]);
    intros ev sl He Hs; repeat (apply elem_of_cons in He as [->|He]); try done;
    try (by inversion He); cbn in Hs; congruence.
Qed.

(** A write to the item, handed over at once. *)
Lemma run_write (it : ItemStack) self :
  same_components (item self) it →
  OrderlyRun self ((set_item it ;; updateItem) self).
Proof.
  intros Hcomp. destruct_self self;
    cbv [OrderlyRun updateItem set_item mbind M_bind bind mret M_ret ret emit this final
         events pushable slot player item inventory_container equippable negb orb andb
         fst snd app with_item pushed push_slot last] in *;
    (split; [reflexivity|]); (split; [exact Hcomp|]);
    (split; [|by split]);
    intros ev sl He Hs; repeat (apply elem_of_cons in He as [->|He]); try done;
    try (by inversion He); cbn in Hs; congruence.
Qed.

Lemma run_this {B : Type} (k : ItemData → M B) self :
  OrderlyRun self (k self self) → OrderlyRun self ((this ≫= k) self).
Proof.
  intros Hk. apply run_after_silent; [apply silent_this|].
  intros a Ha. injection Ha as <-. exact Hk.
Qed.

Lemma run_lift {A B : Type} (c : Completion A) (k : A → M B) self :
  (∀ a, c = Normal a → OrderlyRun self (k a self)) →
  OrderlyRun self ((lift c ≫= k) self).
Proof. intros Hk. apply run_after_silent; [apply silent_lift|]. exact Hk. Qed.

Lemma run_emit {B : Type} (e : Event) (k : unit → M B) self :
  push_slot e = None → OrderlyRun self (k tt self) →
  OrderlyRun self ((emit e ≫= k) self).
Proof.
  intros He Hk. apply run_after_silent; [by apply silent_emit|].
  by intros [] _.
Qed.

End OrderlyRules.

(** Methods built from silent steps. *)
Ltac silent_step :=
  lazymatch goal with
  | |- MethodSpec.Silent (mbind _ _) => apply silent_bind; [|intros ?]
  | |- MethodSpec.Silent (mret _) => apply silent_ret
  | |- MethodSpec.Silent (Items.ret _) => apply silent_ret
  | |- MethodSpec.Silent (Items.lift _) => apply silent_lift
  | |- MethodSpec.Silent (Items.throw _) => apply silent_throw
  | |- MethodSpec.Silent Items.this => apply silent_this
  | |- MethodSpec.Silent (Items.debugWarn _ _) => apply silent_debugWarn
  | |- MethodSpec.Silent (Items.emit _) => apply silent_emit; reflexivity
  | |- MethodSpec.Silent (Items.getDynamicProperty _) => apply silent_getDynamicProperty
  | |- MethodSpec.Silent Items.getLore => apply silent_getLore
  | |- MethodSpec.Silent Items.getCustomLore => apply silent_getCustomLore
  | |- MethodSpec.Silent Items.getCustomEnchantments => apply silent_getCustomEnchantments
  | |- MethodSpec.Silent Items.getEffects => apply silent_getEffects
  | |- MethodSpec.Silent (match ?x with _ => _ end) =>
      first [progress cbv beta iota | destruct x]
  end.

Ltac silent := repeat silent_step.

Section OrderlyMethods.
Import Items ItemSpec LoreSpec ItemMethods MethodSpec.
Context `{JsonCodec} `{ChatFormat} `{Titles} `{EnchantableHost}.

Lemma same_components_setEnchantments it f :
  same_components it (host_setEnchantments it f).
Proof.
  split; [done|]. unfold host_setEnchantments. cbn.
  destruct (enchantable it); cbn; split; intros [? ?]; by eexists.
Qed.

Lemma same_components_assignDamage it d it' :
  host_assignDamage it d = Normal it' → same_components it it'.
Proof.
  unfold host_assignDamage. destruct (durability it) as [c|] eqn:Hc; [|done].
  destruct (_ && _); [|done]. intros [= <-]. split; [|done].
  unfold host_setDamage. cbn. by rewrite Hc.
Qed.

Lemma orderly_setDynamicProperty key value : Orderly (setDynamicProperty key value).
Proof.
  destruct value; try (apply silent_orderly; apply silent_throw);
    intros self; apply run_this; apply run_write; by split.
Qed.

Lemma orderly_setLore l : Orderly (setLore l).
Proof. intros self. apply run_this. apply run_write. by split. Qed.

Lemma orderly_addLore l : Orderly (addLore l).
Proof.
  apply orderly_bind; [apply silent_orderly, silent_getLore|].
  intros currentLore. apply orderly_setLore.
Qed.

Lemma orderly_removeLore l : Orderly (removeLore l).
Proof.
  apply orderly_bind; [apply silent_orderly, silent_getLore|].
  intros currentLore. apply orderly_setLore.
Qed.

Lemma orderly_addCustomLore l category : Orderly (addCustomLore l category).
Proof.
  apply orderly_bind; [apply silent_orderly, silent_getDynamicProperty|]. intros v.
  apply orderly_bind; [apply silent_orderly, silent_lift|]. intros customLore.
  apply orderly_setDynamicProperty.
Qed.

Lemma orderly_removeCustomLore l category : Orderly (removeCustomLore l category).
Proof.
  apply orderly_bind; [apply silent_orderly, silent_getDynamicProperty|]. intros v.
  apply orderly_bind; [apply silent_orderly, silent_lift|]. intros customLore.
  apply orderly_setDynamicProperty.
Qed.

Lemma orderly_removeEnchantment enchantment : Orderly (removeEnchantment enchantment).
Proof.
  intros self. apply run_this. destruct (EnchantableComponent self) as [[]|].
  - apply run_emit; [done|]. apply run_write. apply same_components_setEnchantments.
  - apply silent_orderly, silent_debugWarn.
Qed.

Lemma orderly_removeAllEnchantments : Orderly removeAllEnchantments.
Proof.
  intros self. apply run_this. destruct (EnchantableComponent self) as [[]|].
  - apply orderly_updateItem.
  - apply silent_orderly, silent_debugWarn.
Qed.

Lemma orderly_addEnchantment enchantment : Orderly (addEnchantment enchantment).
Proof.
  intros self. apply run_this. destruct (EnchantableComponent self) as [[]|].
  - apply run_lift. intros enchantments _. apply run_write.
    apply same_components_setEnchantments.
  - apply silent_orderly, silent_debugWarn.
Qed.

Lemma orderly_addEnchantments enchantments : Orderly (addEnchantments enchantments).
Proof.
  intros self. apply run_this. destruct (EnchantableComponent self) as [[]|].
  - apply run_lift. intros enchantments' _. apply run_write.
    apply same_components_setEnchantments.
  - apply silent_orderly, silent_debugWarn.
Qed.

Lemma orderly_setDamage d : Orderly (setDamage d).
Proof.
  intros self. apply run_this. destruct (DurabilityComponent self) as [[]|].
  - apply run_lift. intros it Hit. apply run_write.
    by apply same_components_assignDamage in Hit.
  - apply silent_orderly, silent_debugWarn.
Qed.

Lemma orderly_setDurability d : Orderly (setDurability d).
Proof.
  intros self. apply run_this. destruct (DurabilityComponent self) as [[]|].
  - apply run_lift. intros it Hit. apply run_write.
    by apply same_components_assignDamage in Hit.
  - apply silent_orderly, silent_debugWarn.
Qed.

Lemma orderly_addDamage d : Orderly (addDamage d).
Proof.
  intros self. apply run_this. destruct (DurabilityComponent self) as [[]|].
  - apply run_lift. intros it Hit. apply run_write.
    by apply same_components_assignDamage in Hit.
  - apply silent_orderly, silent_debugWarn.
Qed.

Lemma silent_getEnchantments : Silent getEnchantments.
Proof. unfold getEnchantments. silent. Qed.

Lemma silent_getEnchantment enchantment : Silent (getEnchantment enchantment).
Proof. unfold getEnchantment. silent. Qed.

Lemma silent_canAddEnchantment enchantment : Silent (canAddEnchantment enchantment).
Proof. unfold canAddEnchantment. silent. Qed.

Lemma silent_hasEnchantment enchantment : Silent (hasEnchantment enchantment).
Proof. unfold hasEnchantment. silent. Qed.

Lemma silent_getCustomEnchantment enchantment : Silent (getCustomEnchantment enchantment).
Proof. unfold getCustomEnchantment. silent. Qed.

Lemma silent_getDurability : Silent getDurability.
Proof. unfold getDurability. silent. Qed.

Lemma silent_getDamage : Silent getDamage.
Proof. unfold getDamage. silent. Qed.

End OrderlyMethods.

(** Methods built from orderly ones. *)
Ltac orderly_step :=
  lazymatch goal with
  | |- MethodSpec.Orderly (mbind _ _) => apply orderly_bind; [|intros ?]
  | |- MethodSpec.Orderly (Items.forM_ _ _) => apply orderly_forM; intros ?
  | |- MethodSpec.Orderly (Items.setLore _) => apply orderly_setLore
  | |- MethodSpec.Orderly (Items.addLore _) => apply orderly_addLore
  | |- MethodSpec.Orderly (Items.setDynamicProperty _ _) => apply orderly_setDynamicProperty
  | |- MethodSpec.Orderly Items.updateItem => apply orderly_updateItem
  | |- MethodSpec.Orderly (match ?x with _ => _ end) =>
      first [progress cbv beta iota | destruct x]
  | |- MethodSpec.Orderly (let _ := _ in _) => cbv zeta
  | |- MethodSpec.Orderly _ => apply silent_orderly; silent
  end.

Ltac orderly := repeat orderly_step.

Section OrderlyCalls.
Import Items ItemSpec LoreSpec ItemMethods MethodSpec.
Context `{JsonCodec} `{ChatFormat} `{Titles} `{EnchantableHost}.

Lemma orderly_updateLore : Orderly updateLore.
Proof. unfold updateLore. orderly. Qed.

Lemma orderly_setCustomEnchantments enchantments :
  Orderly (setCustomEnchantments enchantments).
Proof.
  apply orderly_bind; [apply orderly_setDynamicProperty|]. intros _.
  apply orderly_updateLore.
Qed.

Lemma orderly_void {A : Type} (m : M A) : Silent m → Orderly (void m).
Proof. intros Hm. apply silent_orderly. unfold void. silent. exact Hm. Qed.

(** Every method is orderly. *)
Lemma run_orderly (c : Call) : Orderly (run c).
Proof.
  destruct c; cbn [run];
    lazymatch goal with
    | |- Orderly (void _) =>
        apply orderly_void;
        lazymatch goal with
        | |- Silent (getDynamicProperty _) => apply silent_getDynamicProperty
        | |- Silent getLore => apply silent_getLore
        | |- Silent getCustomLore => apply silent_getCustomLore
        | |- Silent getEnchantments => apply silent_getEnchantments
        | |- Silent (getEnchantment _) => apply silent_getEnchantment
        | |- Silent (canAddEnchantment _) => apply silent_canAddEnchantment
        | |- Silent (hasEnchantment _) => apply silent_hasEnchantment
        | |- Silent getCustomEnchantments => apply silent_getCustomEnchantments
        | |- Silent (getCustomEnchantment _) => apply silent_getCustomEnchantment
        | |- Silent getEffects => apply silent_getEffects
        | |- Silent getDurability => apply silent_getDurability
        | |- Silent getDamage => apply silent_getDamage
        end
    | |- Orderly (setDynamicProperty _ _) => apply orderly_setDynamicProperty
    | |- Orderly (setLore _) => apply orderly_setLore
    | |- Orderly (addLore _) => apply orderly_addLore
    | |- Orderly (removeLore _) => apply orderly_removeLore
    | |- Orderly (addCustomLore _ _) => apply orderly_addCustomLore
    | |- Orderly (removeCustomLore _ _) => apply orderly_removeCustomLore
    | |- Orderly (addEnchantment _) => apply orderly_addEnchantment
    | |- Orderly (addEnchantments _) => apply orderly_addEnchantments
    | |- Orderly (removeEnchantment _) => apply orderly_removeEnchantment
    | |- Orderly removeAllEnchantments => apply orderly_removeAllEnchantments
    | |- Orderly (setCustomEnchantments _) => apply orderly_setCustomEnchantments
    | |- Orderly (addCustomEnchantment _) =>
        unfold addCustomEnchantment;
        apply orderly_bind; [orderly|]; intros ?;
        apply orderly_bind; [orderly|]; intros ?; apply orderly_setCustomEnchantments
    | |- Orderly (removeCustomEnchantment _) =>
        unfold removeCustomEnchantment;
        apply orderly_bind; [orderly|]; intros ?;
        apply orderly_bind; [orderly|]; intros ?; apply orderly_setCustomEnchantments
    | |- Orderly (setEffects _) => apply orderly_setDynamicProperty
    | |- Orderly (addEffect _) => unfold addEffect, setEffects; orderly
    | |- Orderly (removeEffect _) => unfold removeEffect, setEffects; orderly
    | |- Orderly (setDurability _) => apply orderly_setDurability
    | |- Orderly (setDamage _) => apply orderly_setDamage
    | |- Orderly (addDamage _) => apply orderly_addDamage
    | |- Orderly repairItem => apply orderly_setDurability
    | |- Orderly updateItem => apply orderly_updateItem
    | |- Orderly updateLore => apply orderly_updateLore
    end.
Qed.

Lemma run_all_orderly (calls : list Call) : Orderly (run_all calls).
Proof.
  induction calls as [|c calls IH]; [apply silent_orderly, silent_ret|].
  cbn [run_all]. apply orderly_bind; [apply run_orderly|]. by intros _.
Qed.

End OrderlyCalls.

Section InventoryProperties.
Import Items ItemSpec LoreSpec ItemMethods MethodSpec.
Context `{JsonCodec} `{ChatFormat} `{Titles} `{EnchantableHost}.

Lemma pushed_nil_no_push (evs : list Event) :
  pushed evs = [] → ∀ e, e ∈ evs → is_push e = false.
Proof.
  induction evs as [|e' evs IH]; intros Hevs e He; [inversion He|].
  apply elem_of_cons in He as [->|He].
  - by destruct e'.
  - apply IH; [|done]. by destruct e'.
Qed.

(** X7. Whatever methods are called on a wrapper that has a slot (the
    player having a container and an equippable component), and however the
    sequence ends, the item last handed to the player is the item the
    wrapper holds; when nothing was handed over the item has not changed.
    Every change of the item is propagated before the next step. *)
Theorem inventory_follows_the_wrapper (calls : list Call) (self : ItemData) :
  pushable self = true →
  last (item self :: pushed (events (run_all calls self)))
  = Some (item (final (run_all calls self))).
Proof.
  intros Hp. destruct (run_all_orderly calls self) as (_ & _ & _ & Hsync & _). auto.
Qed.

(** X8. A wrapper built without a slot, or for a player without a container
    or without an equippable component, hands nothing over: whatever methods
    are called, no [setItem] and no [setEquipment] is made, so that the
    changes stay in the wrapper's own copy of the item. *)
Theorem no_slot_nothing_handed_over (calls : list Call) (self : ItemData) :
  pushable self = false →
  count is_push (events (run_all calls self)) = 0%nat
  ∧ ∀ e, e ∈ events (run_all calls self) → is_push e = false.
Proof.
  intros Hp. destruct (run_all_orderly calls self) as (_ & _ & _ & _ & Hnone).
  specialize (Hnone Hp). split; [|by apply pushed_nil_no_push].
  induction (events (run_all calls self)) as [|e evs IH]; [done|].
  destruct e; cbn in *; try done; by apply IH.
Qed.

(** X9. No method changes the slot, the player, the maximum durability or
    the component views of the wrapper, and every [setItem] and
    [setEquipment] it makes writes to the wrapper's own slot. *)
Theorem methods_write_to_own_slot (calls : list Call) (self : ItemData) :
  final (run_all calls self) = with_item self (item (final (run_all calls self)))
  ∧ ∀ e s, e ∈ events (run_all calls self) → push_slot e = Some s → slot self = Some s.
Proof.
  destruct (run_all_orderly calls self) as (Hfinal & _ & Hslot & _). by split.
Qed.

Lemma constructor_consistent (it : ItemStack) (p : Player) (s : option Slot) :
  consistent (constructor it p s) = true.
Proof.
  destruct it as [props l [c|] [enchantments|]]; unfold consistent; cbn;
    rewrite ?Z.eqb_refl; reflexivity.
Qed.

Lemma consistent_same_components (self : ItemData) (it : ItemStack) :
  same_components (item self) it → consistent self = true →
  consistent (with_item self it) = true.
Proof.
  intros [Hmax Hench]. unfold consistent. cbn [item with_item DurabilityComponent
    EnchantableComponent maxDurability].
  destruct (durability (item self)) as [c|], (durability it) as [c'|]; try done;
    destruct (enchantable (item self)) as [l|], (enchantable it) as [l'|]; try done;
    cbn in Hmax; try (injection Hmax as <-); try done.
  - exfalso. destruct Hench as [Hench _]. destruct Hench; [by eexists|done].
  - exfalso. destruct Hench as [_ Hench]. destruct Hench; [by eexists|done].
  - exfalso. destruct Hench as [Hench _]. destruct Hench; [by eexists|done].
  - exfalso. destruct Hench as [_ Hench]. destruct Hench; [by eexists|done].
Qed.

(** X10. The component views stay valid. After the constructor and any
    sequence of method calls, however it ends, the wrapper has a durability
    view exactly when its item has a durability component, its maximum
    durability is the one of that component, and it has an enchantable view
    exactly when its item has an enchantable component. *)
Theorem wrapper_stays_consistent (it : ItemStack) (p : Player) (s : option Slot)
    (calls : list Call) :
  consistent (final (run_all calls (constructor it p s))) = true.
Proof.
  destruct (run_all_orderly calls (constructor it p s)) as (Hfinal & Hcomp & _).
  rewrite Hfinal. apply consistent_same_components; [done|].
  apply constructor_consistent.
Qed.

End InventoryProperties.

(** The sword of slot 0: a line of lore, a custom enchantment, some damage. *)
Lemma inventory_follows_the_wrapper_witness :
  last (Items.item ItemExample.self
        :: MethodSpec.pushed
             (Items.events
                (@MethodSpec.run_all Sample.json Sample.chat Sample.titles
                   HostExample.enchanting
                   [MethodSpec.call_addLore "Forged";
                    MethodSpec.call_addCustomEnchantment ItemExample.sharpness_3;
                    MethodSpec.call_setDamage 12]
                   ItemExample.self)))
  = Some (Items.item
            (Items.final
               (@MethodSpec.run_all Sample.json Sample.chat Sample.titles
                  HostExample.enchanting
                  [MethodSpec.call_addLore "Forged";
                   MethodSpec.call_addCustomEnchantment ItemExample.sharpness_3;
                   MethodSpec.call_setDamage 12]
                  ItemExample.self))).
Proof.
  exact (@inventory_follows_the_wrapper Sample.json Sample.chat Sample.titles
           HostExample.enchanting _ ItemExample.self eq_refl).
Defined.

(** The same sword wrapped without a slot. *)
Lemma no_slot_nothing_handed_over_witness :
  ItemSpec.count ItemSpec.is_push
    (Items.events
       (@MethodSpec.run_all Sample.json Sample.chat Sample.titles HostExample.enchanting
          [MethodSpec.call_addLore "Forged"; MethodSpec.call_setDamage 12]
          (Items.constructor ItemExample.sword ItemExample.steve None)))
  = 0%nat.
Proof.
  exact (proj1 (@no_slot_nothing_handed_over Sample.json Sample.chat Sample.titles
                  HostExample.enchanting _
                  (Items.constructor ItemExample.sword ItemExample.steve None) eq_refl)).
Defined.

(** ** Removing a line of lore *)

Section RemoveLore.
Import Items ItemSpec LoreSpec ItemMethods MethodSpec LoreEdit.
Context `{JsonCodec} `{ChatFormat} `{Titles} `{EnchantableHost}.

Lemma Array_indexOf_from_absent (arr : list string) (x : string) : ∀ i,
  x ∉ arr → Array_indexOf_from arr x i = -1.
Proof.
  induction arr as [|y arr IH]; intros i Hx; [done|]. cbn.
  destruct (String.eqb_spec y x) as [->|_].
  - exfalso. apply Hx. left.
  - apply IH. intros Hin. apply Hx. by right.
Qed.

Lemma Array_indexOf_from_first (pre post : list string) (x : string) : ∀ i,
  x ∉ pre → Array_indexOf_from (pre ++ x :: post) x i = i + Z.of_nat (length pre).
Proof.
  induction pre as [|y pre IH]; intros i Hx; cbn.
  - rewrite String.eqb_refl. lia.
  - destruct (String.eqb_spec y x) as [->|_].
    + exfalso. apply Hx. left.
    + rewrite IH; [lia|]. intros Hin. apply Hx. by right.
Qed.

Lemma Array_splice1_at {A : Type} (pre post : list A) (x : A) :
  Array_splice1 (pre ++ x :: post) (Z.of_nat (length pre)) = pre ++ post.
Proof.
  unfold Array_splice1. rewrite length_app. cbn [length].
  destruct (Z.ltb_spec (Z.of_nat (length pre)) 0); [lia|].
  rewrite Z.min_l by lia. rewrite Nat2Z.id.
  rewrite take_app_length. f_equal.
  rewrite drop_app_ge by lia. replace (_ - _)%nat with 1%nat by lia. reflexivity.
Qed.

Lemma removedAt_take_drop (l : list string) (k : nat) :
  (k < length l)%nat → RemovedAt l k (take k l ++ drop (S k) l).
Proof.
  intros Hk. split; [|split].
  - rewrite length_app, length_take, length_drop. lia.
  - intros i Hi. rewrite lookup_app_l by (rewrite length_take; lia).
    by rewrite lookup_take_lt.
  - intros i Hi. rewrite lookup_app_r by (rewrite length_take; lia).
    rewrite length_take, lookup_drop. f_equal. lia.
Qed.

Lemma removeLore_run (l : LoreRef) (self : ItemData) :
  outcome (removeLore l self) = Normal tt
  ∧ final (removeLore l self) = with_lore self (lore_after l (lore (item self)))
  ∧ count is_updateItem (events (removeLore l self)) = 1%nat
  ∧ count is_push (events (removeLore l self)) = (if pushable self then 1 else 0)%nat.
Proof.
  destruct_self self; destruct l;
    cbv [removeLore getLore setLore updateItem set_item mbind M_bind bind mret M_ret ret
         emit this outcome final events pushable slot player item lore
         inventory_container equippable negb orb andb fst snd with_lore with_item
         host_setLore lore_after];
    repeat split.
Qed.

Lemma final_bind {A B : Type} (m : M A) (k : A → M B) (a : A) self :
  outcome (m self) = Normal a →
  final ((m ≫= k) self) = final (k a (final (m self)))
  ∧ outcome ((m ≫= k) self) = outcome (k a (final (m self))).
Proof.
  unfold mbind, M_bind, bind, outcome, final.
  destruct (m self) as [[c self1] evs1]. cbn [fst snd]. intros ->.
  by destruct (k a self1) as [[c2 self2] evs2].
Qed.

Lemma lore_after_text_found (line : string) (pre post : list string) :
  line ∉ pre → lore_after (LoreText line) (pre ++ line :: post) = pre ++ post.
Proof.
  intros Hpre. unfold lore_after, Array_indexOf.
  rewrite Array_indexOf_from_first by done.
  destruct (Z.eqb_spec (0 + Z.of_nat (length pre)) (-1)); [lia|].
  rewrite Z.add_0_l. apply Array_splice1_at.
Qed.

(** X11. [removeLore] with a text removes the first line equal to it, and
    that line only: later occurrences stay. *)
Theorem removeLore_removes_first_occurrence (line : string) (pre post : list string)
    (self : ItemData) :
  lore (item self) = pre ++ line :: post → line ∉ pre →
  outcome (removeLore (LoreText line) self) = Normal tt
  ∧ lore (item (final (removeLore (LoreText line) self))) = pre ++ post.
Proof.
  intros Hlore Hpre. destruct (removeLore_run (LoreText line) self) as (Hout & Hfinal & _).
  split; [done|]. rewrite Hfinal. cbn [with_lore with_item item host_setLore lore].
  rewrite Hlore. by apply lore_after_text_found.
Qed.

(** X12. [removeLore] with a text that is no line of the lore changes
    nothing and raises nothing; it still sets the lore and calls
    [updateItem] once, so the unchanged item is handed over again. *)
Theorem removeLore_absent_line (line : string) (self : ItemData) :
  line ∉ lore (item self) →
  outcome (removeLore (LoreText line) self) = Normal tt
  ∧ final (removeLore (LoreText line) self) = self
  ∧ count is_updateItem (events (removeLore (LoreText line) self)) = 1%nat
  ∧ count is_push (events (removeLore (LoreText line) self))
    = (if pushable self then 1 else 0)%nat.
Proof.
  intros Habsent.
  destruct (removeLore_run (LoreText line) self) as (Hout & Hfinal & Hupdate & Hpush).
  repeat split; try done. rewrite Hfinal. unfold lore_after, Array_indexOf.
  rewrite Array_indexOf_from_absent by done. cbn. apply with_lore_id.
Qed.

(** X13. [addLore] followed by [removeLore] of the same text gives the
    wrapper back as it was when the text was no line of the lore before. *)
Theorem addLore_then_removeLore (line : string) (self : ItemData) :
  line ∉ lore (item self) →
  outcome ((addLore line ;; removeLore (LoreText line)) self) = Normal tt
  ∧ final ((addLore line ;; removeLore (LoreText line)) self) = self.
Proof.
  intros Habsent. destruct (appends_addLore line self) as (Hout1 & Hfinal1 & _).
  destruct (final_bind (addLore line) (λ _, removeLore (LoreText line)) tt self Hout1)
    as [-> ->].
  destruct (removeLore_run (LoreText line) (final (addLore line self)))
    as (Hout2 & Hfinal2 & _).
  split; [done|]. rewrite Hfinal2, Hfinal1.
  cbn [with_lore with_item item host_setLore lore].
  rewrite (lore_after_text_found line (lore (item self)) []) by done.
  rewrite app_nil_r. by destruct self as [[props l d ench] sl p mx dc ec].
Qed.

(** X14. [removeLore] with an index that is a line of the lore removes that
    line and keeps the others in order; with an index at or past the end it
    changes nothing and raises nothing. *)
Theorem removeLore_index (n : Z) (self : ItemData) :
  0 ≤ n →
  outcome (removeLore (LoreIndex n) self) = Normal tt
  ∧ (n < Z.of_nat (length (lore (item self))) →
     RemovedAt (lore (item self)) (Z.to_nat n)
       (lore (item (final (removeLore (LoreIndex n) self)))))
  ∧ (Z.of_nat (length (lore (item self))) ≤ n →
     final (removeLore (LoreIndex n) self) = self).
Proof.
  intros Hn. destruct (removeLore_run (LoreIndex n) self) as (Hout & Hfinal & _).
  split; [done|]. rewrite Hfinal. cbn [with_lore with_item item host_setLore lore].
  unfold lore_after, Array_splice1. destruct (Z.ltb_spec n 0); [lia|]. split.
  - intros Hlt. rewrite Z.min_l by lia. apply removedAt_take_drop. lia.
  - intros Hge. rewrite Z.min_r by lia. rewrite Nat2Z.id.
    rewrite firstn_all, drop_ge by lia. rewrite app_nil_r. apply with_lore_id.
Qed.

(** X15. [removeLore] with a negative index counts from the end: [-1]
    removes the last line; an index below minus the number of lines removes
    the first line. *)
Theorem removeLore_negative_index (n : Z) (self : ItemData) :
  n < 0 → lore (item self) ≠ [] →
  outcome (removeLore (LoreIndex n) self) = Normal tt
  ∧ RemovedAt (lore (item self))
      (Z.to_nat (Z.of_nat (length (lore (item self))) + n))
      (lore (item (final (removeLore (LoreIndex n) self)))).
Proof.
  intros Hn Hlore. destruct (removeLore_run (LoreIndex n) self) as (Hout & Hfinal & _).
  split; [done|]. rewrite Hfinal. cbn [with_lore with_item item host_setLore lore].
  unfold lore_after, Array_splice1. destruct (Z.ltb_spec n 0); [|lia].
  assert (Hlen : (0 < length (lore (item self)))%nat)
    by (destruct (lore (item self)); [done|cbn; lia]).
  replace (Z.to_nat (Z.max (Z.of_nat (length (lore (item self))) + n) 0))
    with (Z.to_nat (Z.of_nat (length (lore (item self))) + n)) by lia.
  apply removedAt_take_drop. lia.
Qed.

End RemoveLore.

(** The second of two equal lines stays. *)
Lemma removeLore_removes_first_occurrence_witness :
  Items.lore
    (Items.item
       (Items.final
          (ItemMethods.removeLore (ItemMethods.LoreText "b")
             (LoreSpec.with_lore ItemExample.self ["a"; "b"; "c"; "b"]))))
  = ["a"; "c"; "b"].
Proof.
  exact (proj2 (removeLore_removes_first_occurrence "b" ["a"] ["c"; "b"]
                  (LoreSpec.with_lore ItemExample.self ["a"; "b"; "c"; "b"]) eq_refl
                  ltac:(intros Hin; apply list_elem_of_singleton in Hin; discriminate))).
Defined.

(** No line of the lore is "d". *)
Lemma removeLore_absent_line_witness :
  Items.final
    (ItemMethods.removeLore (ItemMethods.LoreText "d")
       (LoreSpec.with_lore ItemExample.self ["a"; "b"]))
  = LoreSpec.with_lore ItemExample.self ["a"; "b"].
Proof.
  refine (proj1 (proj2 (removeLore_absent_line "d"
                          (LoreSpec.with_lore ItemExample.self ["a"; "b"]) _))).
  intros Hin. repeat (apply elem_of_cons in Hin as [Hin|Hin]; [discriminate|]).
  inversion Hin.
Defined.

(** A line "d" added to two other lines, and removed. *)
Lemma addLore_then_removeLore_witness :
  Items.final
    ((Items.addLore "d" ;; ItemMethods.removeLore (ItemMethods.LoreText "d"))
       (LoreSpec.with_lore ItemExample.self ["a"; "b"]))
  = LoreSpec.with_lore ItemExample.self ["a"; "b"].
Proof.
  refine (proj2 (addLore_then_removeLore "d"
                   (LoreSpec.with_lore ItemExample.self ["a"; "b"]) _)).
  intros Hin. repeat (apply elem_of_cons in Hin as [Hin|Hin]; [discriminate|]).
  inversion Hin.
Defined.

(** Index 1 of three lines; index 3 is past the end. *)
Lemma removeLore_index_witness :
  LoreEdit.RemovedAt ["a"; "b"; "c"] 1
    (Items.lore
       (Items.item
          (Items.final
             (ItemMethods.removeLore (ItemMethods.LoreIndex 1)
                (LoreSpec.with_lore ItemExample.self ["a"; "b"; "c"])))))
  ∧ Items.final
      (ItemMethods.removeLore (ItemMethods.LoreIndex 3)
         (LoreSpec.with_lore ItemExample.self ["a"; "b"; "c"]))
    = LoreSpec.with_lore ItemExample.self ["a"; "b"; "c"].
Proof.
  split.
  - exact (proj1 (proj2 (removeLore_index 1
                           (LoreSpec.with_lore ItemExample.self ["a"; "b"; "c"])
                           ltac:(lia))) ltac:(cbn; lia)).
  - exact (proj2 (proj2 (removeLore_index 3
                           (LoreSpec.with_lore ItemExample.self ["a"; "b"; "c"])
                           ltac:(lia))) ltac:(cbn; lia)).
Defined.

(** Index -1 removes the third of three lines, index -7 the first. *)
Lemma removeLore_negative_index_witness :
  LoreEdit.RemovedAt ["a"; "b"; "c"] 2
    (Items.lore
       (Items.item
          (Items.final
             (ItemMethods.removeLore (ItemMethods.LoreIndex (-1))
                (LoreSpec.with_lore ItemExample.self ["a"; "b"; "c"])))))
  ∧ LoreEdit.RemovedAt ["a"; "b"; "c"] 0
      (Items.lore
         (Items.item
            (Items.final
               (ItemMethods.removeLore (ItemMethods.LoreIndex (-7))
                  (LoreSpec.with_lore ItemExample.self ["a"; "b"; "c"]))))).
Proof.
  split.
  - exact (proj2 (removeLore_negative_index (-1)
                    (LoreSpec.with_lore ItemExample.self ["a"; "b"; "c"])
                    ltac:(lia) ltac:(discriminate))).
  - exact (proj2 (removeLore_negative_index (-7)
                    (LoreSpec.with_lore ItemExample.self ["a"; "b"; "c"])
                    ltac:(lia) ltac:(discriminate))).
Defined.

(** ** Durability *)

Section Durability.
Import Items ItemSpec LoreSpec ItemMethods MethodSpec.
Context `{JsonCodec} `{ChatFormat} `{Titles} `{EnchantableHost}.

Lemma bind_this {B : Type} (k : ItemData → M B) self : (this ≫= k) self = k self self.
Proof.
  unfold mbind, M_bind, bind, this. by destruct (k self self) as [[c self'] evs].
Qed.

Lemma bind_lift_normal {A B : Type} (a : A) (k : A → M B) self :
  (lift (Normal a) ≫= k) self = k a self.
Proof.
  unfold mbind, M_bind, bind, lift. by destruct (k a self) as [[c self'] evs].
Qed.

Lemma bind_lift_throw {A B : Type} (e : JSError) (k : A → M B) self :
  (lift (Throw e) ≫= k) self = (Throw e, self, []).
Proof. reflexivity. Qed.

(** A write to the item: stored, then handed over by one [updateItem]. *)
Lemma write_run (it : ItemStack) self :
  outcome ((set_item it ;; updateItem) self) = Normal tt
  ∧ final ((set_item it ;; updateItem) self) = with_item self it
  ∧ count is_updateItem (events ((set_item it ;; updateItem) self)) = 1%nat
  ∧ count is_push (events ((set_item it ;; updateItem) self))
    = (if pushable self then 1 else 0)%nat.
Proof. destruct_self self; repeat split. Qed.

Lemma consistent_durability self :
  consistent self = true → DurabilityComponent self ≠ None →
  ∃ c, durability (item self) = Some c ∧ component_maxDurability c = maxDurability self.
Proof.
  unfold consistent. intros Hcons Hdc.
  destruct (durability (item self)) as [c|], (DurabilityComponent self) as [[]|];
    try done. exists c. split; [done|]. apply andb_prop in Hcons as [Hmax _]. lia.
Qed.

Lemma assign_damage_run (d : Z) (c : ItemDurabilityComponent) self :
  durability (item self) = Some c → 0 ≤ d ≤ component_maxDurability c →
  let m := (it ← lift (host_assignDamage (item self) d); set_item it ;; updateItem) in
  outcome (m self) = Normal tt
  ∧ final (m self) = with_item self (host_setDamage (item self) d)
  ∧ count is_updateItem (events (m self)) = 1%nat
  ∧ count is_push (events (m self)) = (if pushable self then 1 else 0)%nat.
Proof.
  intros Hc Hd m. subst m. unfold host_assignDamage. rewrite Hc.
  destruct (Z.leb_spec 0 d); [|lia].
  destruct (Z.leb_spec d (component_maxDurability c)); [|lia].
  cbn [andb]. rewrite bind_lift_normal. apply write_run.
Qed.

Lemma getDamage_run self :
  DurabilityComponent self ≠ None →
  getDamage self = (Normal (host_getDamage (item self)), self, []).
Proof.
  intros Hdc. unfold getDamage. rewrite bind_this.
  by destruct (DurabilityComponent self) as [[]|].
Qed.

Lemma getDurability_run self :
  DurabilityComponent self ≠ None →
  getDurability self = (Normal (maxDurability self - host_getDamage (item self)), self, []).
Proof.
  intros Hdc. unfold getDurability. rewrite bind_this.
  by destruct (DurabilityComponent self) as [[]|].
Qed.

Lemma getDamage_after_set self c d :
  durability (item self) = Some c →
  host_getDamage (item (with_item self (host_setDamage (item self) d))) = d.
Proof. intros Hc. unfold host_getDamage, host_setDamage. cbn. by rewrite Hc. Qed.

(** X16. On a wrapper with a durability component, a durability between 0
    and the maximum is read back as it was set, the damage being the
    maximum less the durability; and a damage in that range is read back as
    it was set, the durability being the maximum less the damage. Each
    setter calls [updateItem] once. *)
Theorem durability_round_trip (d : Z) (self : ItemData) :
  consistent self = true → DurabilityComponent self ≠ None →
  0 ≤ d ≤ maxDurability self →
  (outcome (setDurability d self) = Normal tt
   ∧ outcome (getDurability (final (setDurability d self))) = Normal d
   ∧ outcome (getDamage (final (setDurability d self))) = Normal (maxDurability self - d)
   ∧ count is_updateItem (events (setDurability d self)) = 1%nat)
  ∧ (outcome (setDamage d self) = Normal tt
     ∧ outcome (getDamage (final (setDamage d self))) = Normal d
     ∧ outcome (getDurability (final (setDamage d self))) = Normal (maxDurability self - d)
     ∧ count is_updateItem (events (setDamage d self)) = 1%nat).
Proof.
  intros Hcons Hdc Hd. destruct (consistent_durability self Hcons Hdc) as (c & Hc & Hmax).
  assert (Heq1 : setDurability d self
                 = (it ← lift (host_assignDamage (item self) (maxDurability self - d));
                    set_item it ;; updateItem) self).
  { unfold setDurability. rewrite bind_this. by destruct (DurabilityComponent self) as [[]|]. }
  assert (Heq2 : setDamage d self
                 = (it ← lift (host_assignDamage (item self) d);
                    set_item it ;; updateItem) self).
  { unfold setDamage. rewrite bind_this. by destruct (DurabilityComponent self) as [[]|]. }
  rewrite Heq1, Heq2.
  destruct (assign_damage_run (maxDurability self - d) c self Hc ltac:(lia))
    as (Hout1 & Hfinal1 & Hupdate1 & _).
  destruct (assign_damage_run d c self Hc ltac:(lia)) as (Hout2 & Hfinal2 & Hupdate2 & _).
  rewrite Hfinal1, Hfinal2.
  rewrite !getDamage_run, !getDurability_run by done.
  unfold outcome in *. cbn [fst].
  rewrite !(getDamage_after_set self c) by done.
  cbn [maxDurability with_item].
  repeat split; try done. f_equal. lia.
Qed.

(** X17. On a wrapper with a durability component, [addDamage] adds to the
    damage, and takes as much from the durability, when the sum is between 0
    and the maximum. *)
Theorem addDamage_adds (d : Z) (self : ItemData) :
  consistent self = true → DurabilityComponent self ≠ None →
  0 ≤ host_getDamage (item self) + d ≤ maxDurability self →
  outcome (addDamage d self) = Normal tt
  ∧ outcome (getDamage (final (addDamage d self)))
    = Normal (host_getDamage (item self) + d)
  ∧ outcome (getDurability (final (addDamage d self)))
    = Normal (maxDurability self - host_getDamage (item self) - d)
  ∧ count is_updateItem (events (addDamage d self)) = 1%nat.
Proof.
  intros Hcons Hdc Hd. destruct (consistent_durability self Hcons Hdc) as (c & Hc & Hmax).
  assert (Heq : addDamage d self
                = (it ← lift (host_assignDamage (item self) (host_getDamage (item self) + d));
                   set_item it ;; updateItem) self).
  { unfold addDamage. rewrite bind_this. by destruct (DurabilityComponent self) as [[]|]. }
  rewrite Heq.
  destruct (assign_damage_run (host_getDamage (item self) + d) c self Hc ltac:(lia))
    as (Hout & Hfinal & Hupdate & _).
  rewrite Hfinal. rewrite getDamage_run, getDurability_run by done.
  unfold outcome in *. cbn [fst].
  rewrite !(getDamage_after_set self c) by done. cbn [maxDurability with_item].
  repeat split; try done. f_equal. lia.
Qed.

(** X18. [repairItem] is [setDurability(0)]: on a wrapper with a
    durability component it leaves the item with durability 0, its damage
    at the maximum. *)
Theorem repairItem_sets_durability_to_zero (self : ItemData) :
  consistent self = true → DurabilityComponent self ≠ None → 0 ≤ maxDurability self →
  outcome (repairItem self) = Normal tt
  ∧ outcome (getDurability (final (repairItem self))) = Normal 0
  ∧ outcome (getDamage (final (repairItem self))) = Normal (maxDurability self).
Proof.
  intros Hcons Hdc Hmax. destruct (consistent_durability self Hcons Hdc) as (c & Hc & Hmaxc).
  assert (Heq : repairItem self
                = (it ← lift (host_assignDamage (item self) (maxDurability self - 0));
                   set_item it ;; updateItem) self).
  { unfold repairItem, setDurability. rewrite bind_this.
    by destruct (DurabilityComponent self) as [[]|]. }
  rewrite Heq.
  destruct (assign_damage_run (maxDurability self - 0) c self Hc ltac:(lia))
    as (Hout & Hfinal & _).
  rewrite Hfinal. rewrite getDamage_run, getDurability_run by done.
  unfold outcome in *. cbn [fst].
  rewrite !(getDamage_after_set self c) by done. cbn [maxDurability with_item].
  repeat split; try done; f_equal; lia.
Qed.

(** X19. On a wrapper without a durability component the durability
    methods warn on the console and do nothing else: the setters leave the
    wrapper as it was and make no [updateItem], the getters return 0, and
    none of them raises an error. *)
Theorem no_durability_component (d : Z) (self : ItemData) :
  DurabilityComponent self = None →
  (∃ msg, setDurability d self = (Normal tt, self, [Console_warn msg]))
  ∧ (∃ msg, setDamage d self = (Normal tt, self, [Console_warn msg]))
  ∧ (∃ msg, addDamage d self = (Normal tt, self, [Console_warn msg]))
  ∧ (∃ msg, repairItem self = (Normal tt, self, [Console_warn msg]))
  ∧ (∃ msg, getDurability self = (Normal 0, self, [Console_warn msg]))
  ∧ (∃ msg, getDamage self = (Normal 0, self, [Console_warn msg])).
Proof.
  intros Hdc.
  unfold repairItem, setDurability, setDamage, addDamage, getDurability, getDamage.
  rewrite !bind_this, Hdc. repeat split; eexists; reflexivity.
Qed.

End Durability.

(** The sword of the example, of maximum durability 250. *)
Lemma durability_round_trip_witness :
  Items.outcome
    (ItemMethods.getDurability
       (Items.final (ItemMethods.setDurability 100 ItemExample.self)))
  = Normal 100
  ∧ Items.outcome
      (ItemMethods.getDamage (Items.final (ItemMethods.setDurability 100 ItemExample.self)))
    = Normal 150.
Proof.
  pose proof (durability_round_trip 100 ItemExample.self eq_refl ltac:(discriminate)
                ltac:(cbn; lia)) as [(_ & Hdurability & Hdamage & _) _].
  split; [exact Hdurability|exact Hdamage].
Defined.

(** The wrapped sword has damage 0; 30 are added. *)
Lemma addDamage_adds_witness :
  Items.outcome
    (ItemMethods.getDamage (Items.final (ItemMethods.addDamage 30 ItemExample.self)))
  = Normal 30.
Proof.
  exact (proj1 (proj2 (addDamage_adds 30 ItemExample.self eq_refl ltac:(discriminate)
                         ltac:(cbn; lia)))).
Defined.

(** The repaired sword has durability 0 and damage 250. *)
Lemma repairItem_sets_durability_to_zero_witness :
  Items.outcome
    (ItemMethods.getDurability (Items.final (ItemMethods.repairItem ItemExample.self)))
  = Normal 0
  ∧ Items.outcome
      (ItemMethods.getDamage (Items.final (ItemMethods.repairItem ItemExample.self)))
    = Normal 250.
Proof.
  exact (proj2 (repairItem_sets_durability_to_zero ItemExample.self eq_refl
                  ltac:(discriminate) ltac:(cbn; lia))).
Defined.

(** The item of the scenario has no durability component. *)
Lemma no_durability_component_witness :
  ∃ msg,
    ItemMethods.setDurability 5 ItemExample.rare
    = (Normal tt, ItemExample.rare, [Items.Console_warn msg]).
Proof.
  exact (proj1 (no_durability_component 5 ItemExample.rare eq_refl)).
Defined.

(** ** Built-in enchantments *)

Section Enchantments.
Import Items ItemSpec LoreSpec ItemMethods MethodSpec.
Context `{JsonCodec} `{ChatFormat} `{Titles} `{EnchantableHost}.

(** X20. On a wrapper without an enchantable component the methods on the
    built-in enchantments warn on the console and do nothing else: the
    getters return the empty list, [undefined] and [false], the others leave
    the wrapper as it was and make no [updateItem], and none raises an
    error or asks the host. *)
Theorem no_enchantable_component (type : string) (e : Enchantment)
    (es : list Enchantment) (self : ItemData) :
  EnchantableComponent self = None →
  (∃ msg, getEnchantments self = (Normal [], self, [Console_warn msg]))
  ∧ (∃ msg, getEnchantment type self = (Normal None, self, [Console_warn msg]))
  ∧ (∃ msg, hasEnchantment type self = (Normal false, self, [Console_warn msg]))
  ∧ (∃ msg, canAddEnchantment e self = (Normal false, self, [Console_warn msg]))
  ∧ (∃ msg, addEnchantment e self = (Normal tt, self, [Console_warn msg]))
  ∧ (∃ msg, addEnchantments es self = (Normal tt, self, [Console_warn msg]))
  ∧ (∃ msg, removeEnchantment type self = (Normal tt, self, [Console_warn msg]))
  ∧ (∃ msg, removeAllEnchantments self = (Normal tt, self, [Console_warn msg])).
Proof.
  intros Hec.
  unfold getEnchantments, getEnchantment, hasEnchantment, canAddEnchantment,
    addEnchantment, addEnchantments, removeEnchantment, removeAllEnchantments.
  rewrite !bind_this, Hec. repeat split; eexists; reflexivity.
Qed.

Lemma consistent_enchantable self :
  consistent self = true → EnchantableComponent self ≠ None →
  ∃ l, enchantable (item self) = Some l.
Proof.
  unfold consistent. intros Hcons Hec. apply andb_prop in Hcons as [_ Hcons].
  destruct (enchantable (item self)) as [l|], (EnchantableComponent self) as [[]|];
    try done. by exists l.
Qed.

Lemma getEnchantments_run self :
  EnchantableComponent self ≠ None →
  getEnchantments self = (Normal (host_getEnchantments (item self)), self, []).
Proof.
  intros Hec. unfold getEnchantments. rewrite bind_this.
  by destruct (EnchantableComponent self) as [[]|].
Qed.

(** X21. On a wrapper with an enchantable component, [addEnchantment] and
    [addEnchantments] hand the decision to the host. Enchantments the host
    rejects are an error of the call, the wrapper is as before and no
    [updateItem] is made; when the host takes them, its new list is the one
    read afterwards, and [updateItem] is called once. [canAddEnchantment]
    gives the host's answer and changes nothing. *)
Theorem addEnchantment_host_decides (e : Enchantment) (es : list Enchantment)
    (self : ItemData) :
  consistent self = true → EnchantableComponent self ≠ None →
  (∀ err, host_addEnchantment (host_getEnchantments (item self)) e = Throw err →
     addEnchantment e self = (Throw err, self, []))
  ∧ (∀ l, host_addEnchantment (host_getEnchantments (item self)) e = Normal l →
       outcome (addEnchantment e self) = Normal tt
       ∧ outcome (getEnchantments (final (addEnchantment e self))) = Normal l
       ∧ count is_updateItem (events (addEnchantment e self)) = 1%nat)
  ∧ (∀ err, host_addEnchantments (host_getEnchantments (item self)) es = Throw err →
       addEnchantments es self = (Throw err, self, []))
  ∧ (∀ l, host_addEnchantments (host_getEnchantments (item self)) es = Normal l →
       outcome (addEnchantments es self) = Normal tt
       ∧ outcome (getEnchantments (final (addEnchantments es self))) = Normal l
       ∧ count is_updateItem (events (addEnchantments es self)) = 1%nat)
  ∧ canAddEnchantment e self
    = (host_canAddEnchantment (host_getEnchantments (item self)) e, self, []).
Proof.
  intros Hcons Hec. destruct (consistent_enchantable self Hcons Hec) as [l0 Hl0].
  assert (Hone : addEnchantment e self
                 = (enchantments ← lift (host_addEnchantment
                                           (host_getEnchantments (item self)) e);
                    set_item (host_setEnchantments (item self) (fun _ => enchantments)) ;;
                    updateItem) self).
  { unfold addEnchantment. rewrite bind_this.
    by destruct (EnchantableComponent self) as [[]|]. }
  assert (Hmany : addEnchantments es self
                  = (enchantments ← lift (host_addEnchantments
                                            (host_getEnchantments (item self)) es);
                     set_item (host_setEnchantments (item self) (fun _ => enchantments)) ;;
                     updateItem) self).
  { unfold addEnchantments. rewrite bind_this.
    by destruct (EnchantableComponent self) as [[]|]. }
  assert (Hwrite : ∀ l,
    outcome ((set_item (host_setEnchantments (item self) (fun _ => l)) ;; updateItem) self)
    = Normal tt
    ∧ outcome (getEnchantments
                 (final ((set_item (host_setEnchantments (item self) (fun _ => l)) ;;
                          updateItem) self))) = Normal l
    ∧ count is_updateItem
        (events ((set_item (host_setEnchantments (item self) (fun _ => l)) ;;
                  updateItem) self)) = 1%nat).
  { intros l.
    destruct (write_run (host_setEnchantments (item self) (fun _ => l)) self)
      as (Hout & Hfinal & Hupdate & _).
    rewrite Hfinal. rewrite getEnchantments_run by done.
    repeat split; try done. unfold outcome. cbn [fst]. f_equal.
    unfold host_getEnchantments, host_setEnchantments. cbn. by rewrite Hl0. }
  rewrite Hone, Hmany. split; [|split; [|split; [|split]]].
  - intros err ->. apply bind_lift_throw.
  - intros l ->. rewrite bind_lift_normal. apply Hwrite.
  - intros err ->. apply bind_lift_throw.
  - intros l ->. rewrite bind_lift_normal. apply Hwrite.
  - unfold canAddEnchantment. rewrite bind_this.
    by destruct (EnchantableComponent self) as [[]|].
Qed.

Lemma existsb_filter_ne (type type' : string) (l : list Enchantment) :
  existsb (fun e => String.eqb (ench_type e) type')
    (filter (fun e => ench_type e ≠ type) l)
  = existsb (fun e => String.eqb (ench_type e) type') l && negb (String.eqb type type').
Proof.
  induction l as [|e l IH]; [done|]. rewrite filter_cons.
  destruct (decide (ench_type e ≠ type)) as [Hne|Heq]; cbn [existsb]; rewrite IH.
  - destruct (String.eqb_spec (ench_type e) type') as [<-|_]; [|done].
    destruct (String.eqb_spec type (ench_type e)) as [Heq|_]; [by symmetry in Heq|].
    reflexivity.
  - assert (Htype : ench_type e = type) by (by destruct (decide (ench_type e = type))).
    rewrite Htype. destruct (String.eqb type type'); cbn;
      rewrite ?andb_false_r, ?andb_true_r; reflexivity.
Qed.

Lemma find_filter_eq (type : string) (l : list Enchantment) :
  List.find (fun e => String.eqb (ench_type e) type)
    (filter (fun e => ench_type e ≠ type) l) = None.
Proof.
  induction l as [|e l IH]; [done|]. rewrite filter_cons.
  destruct (decide (ench_type e ≠ type)) as [Hne|_]; [|done].
  cbn. destruct (String.eqb_spec (ench_type e) type); [done|exact IH].
Qed.

Lemma host_hasEnchantment_remove (it : ItemStack) (type type' : string) :
  host_hasEnchantment (host_removeEnchantment it type) type'
  = host_hasEnchantment it type' && negb (String.eqb type type').
Proof.
  unfold host_hasEnchantment, host_getEnchantments, host_removeEnchantment,
    host_setEnchantments. cbn [enchantable].
  destruct (enchantable it) as [l|]; [|done]. apply existsb_filter_ne.
Qed.

Lemma host_getEnchantment_remove (it : ItemStack) (type : string) :
  host_getEnchantment (host_removeEnchantment it type) type = None.
Proof.
  unfold host_getEnchantment, host_getEnchantments, host_removeEnchantment,
    host_setEnchantments. cbn [enchantable].
  destruct (enchantable it) as [l|]; [|done]. apply find_filter_eq.
Qed.

Lemma hasEnchantment_run type self :
  EnchantableComponent self ≠ None →
  hasEnchantment type self = (Normal (host_hasEnchantment (item self) type), self, []).
Proof.
  intros Hec. unfold hasEnchantment. rewrite bind_this.
  by destruct (EnchantableComponent self) as [[]|].
Qed.

Lemma getEnchantment_run type self :
  EnchantableComponent self ≠ None →
  getEnchantment type self = (Normal (host_getEnchantment (item self) type), self, []).
Proof.
  intros Hec. unfold getEnchantment. rewrite bind_this.
  by destruct (EnchantableComponent self) as [[]|].
Qed.

(** X22. On a wrapper with an enchantable component, after
    [removeEnchantment] of a type the item has no enchantment of that type
    ([hasEnchantment] is [false], [getEnchantment] is [undefined]), and
    [hasEnchantment] answers for every other type as before. *)
Theorem removeEnchantment_removes (type : string) (self : ItemData) :
  EnchantableComponent self ≠ None →
  outcome (removeEnchantment type self) = Normal tt
  ∧ outcome (hasEnchantment type (final (removeEnchantment type self))) = Normal false
  ∧ outcome (getEnchantment type (final (removeEnchantment type self))) = Normal None
  ∧ ∀ type', type' ≠ type →
      outcome (hasEnchantment type' (final (removeEnchantment type self)))
      = outcome (hasEnchantment type' self).
Proof.
  intros Hec.
  assert (Hrun : outcome (removeEnchantment type self) = Normal tt
                 ∧ final (removeEnchantment type self)
                   = with_item self (host_removeEnchantment (item self) type)).
  { unfold removeEnchantment. rewrite bind_this.
    destruct (EnchantableComponent self) as [[]|]; [|done].
    destruct_self self; by split. }
  destruct Hrun as [Hout Hfinal]. rewrite Hfinal.
  split; [done|]. split; [|split].
  - rewrite hasEnchantment_run by done. unfold outcome. cbn [fst item with_item].
    rewrite host_hasEnchantment_remove, String.eqb_refl. by rewrite andb_false_r.
  - rewrite getEnchantment_run by done. unfold outcome. cbn [fst item with_item].
    by rewrite host_getEnchantment_remove.
  - intros type' Hne. rewrite !hasEnchantment_run by done.
    unfold outcome. cbn [fst item with_item]. rewrite host_hasEnchantment_remove.
    destruct (String.eqb_spec type type'); [congruence|]. by rewrite andb_true_r.
Qed.

End Enchantments.

(** The item of the scenario has no enchantable component. *)
Lemma no_enchantable_component_witness :
  ∃ msg,
    ItemMethods.hasEnchantment "sharpness" ItemExample.rare
    = (Normal false, ItemExample.rare, [Items.Console_warn msg]).
Proof.
  exact (proj1 (proj2 (proj2 (@no_enchantable_component HostExample.enchanting
                                "sharpness" ItemExample.sharpness_1 []
                                ItemExample.rare eq_refl)))).
Defined.

(** The example host rejects level 9 and takes level 3. *)
Lemma addEnchantment_host_decides_witness :
  @ItemMethods.addEnchantment HostExample.enchanting
    {| Items.ench_type := "unbreaking"; Items.ench_level := 9 |} ItemExample.self
  = (Throw Unmodelled, ItemExample.self, [])
  ∧ Items.outcome
      (ItemMethods.getEnchantments
         (Items.final
            (@ItemMethods.addEnchantment HostExample.enchanting
               {| Items.ench_type := "unbreaking"; Items.ench_level := 3 |}
               ItemExample.self)))
    = Normal [ItemExample.sharpness_1;
              {| Items.ench_type := "unbreaking"; Items.ench_level := 3 |}].
Proof.
  split.
  - exact (proj1 (@addEnchantment_host_decides HostExample.enchanting
                    {| Items.ench_type := "unbreaking"; Items.ench_level := 9 |} []
                    ItemExample.self eq_refl ltac:(discriminate)) Unmodelled eq_refl).
  - exact (proj1 (proj2 (proj1 (proj2 (@addEnchantment_host_decides
                    HostExample.enchanting
                    {| Items.ench_type := "unbreaking"; Items.ench_level := 3 |} []
                    ItemExample.self eq_refl ltac:(discriminate))) _ eq_refl))).
Defined.

(** The sword loses its sharpness. *)
Lemma removeEnchantment_removes_witness :
  Items.outcome
    (ItemMethods.hasEnchantment "sharpness"
       (Items.final (Items.removeEnchantment "sharpness" ItemExample.self)))
  = Normal false.
Proof.
  exact (proj1 (proj2 (removeEnchantment_removes "sharpness" ItemExample.self
                         ltac:(discriminate)))).
Defined.

(** ** The trace of a queued form *)

Section QueueTrace.
Import Forms FormSpec QueueSpec.
Variables Player ActionFormData : Type.
Implicit Types (player : Player) (form : ActionFormData).


End QueueTrace.

(** ** Dynamic properties *)

Section PropertyFrame.
Import Items ItemSpec LoreSpec LoreSummary ItemMethods MethodSpec.
Context `{JsonCodec} `{ChatFormat} `{Titles}.

Lemma setDynamicProperty_final key value self :
  value ≠ JUndefined →
  final (setDynamicProperty key value self)
  = with_item self
      (host_setDynamicProperty (item self) key
         (if typeof_object value then JString (safeJsonStringify value) else value)).
Proof.
  intros Hdef. destruct_self self; destruct value; try congruence; reflexivity.
Qed.

(** X24. [setDynamicProperty] writes one key: every other key reads as
    before, through [ItemData] and through [WorldDataT], and the lore, the
    durability and the built-in enchantments of the item are as before. *)
Theorem setDynamicProperty_frame (key key' : string) (value : JSValue)
    (self : ItemData) (w : Worlds.WorldDataT) :
  key ≠ key' →
  outcome (getDynamicProperty key' (final (setDynamicProperty key value self)))
  = outcome (getDynamicProperty key' self)
  ∧ lore (item (final (setDynamicProperty key value self))) = lore (item self)
  ∧ durability (item (final (setDynamicProperty key value self))) = durability (item self)
  ∧ enchantable (item (final (setDynamicProperty key value self)))
    = enchantable (item self)
  ∧ ∀ w', Worlds.setDynamicProperty w key value = Normal w' →
          Worlds.getDynamicProperty w' key' = Worlds.getDynamicProperty w key'.
Proof.
  intros Hne.
  assert (Hcases : value = JUndefined ∨ value ≠ JUndefined)
    by (destruct value; (by left) || (by right)).
  destruct Hcases as [->|Hdef].
  - repeat split; try done.
  - rewrite setDynamicProperty_final by done. rewrite !getDynamicProperty_run.
    unfold outcome. cbn [fst item with_item].
    rewrite stored_after_set_ne by done. repeat split.
    intros w' Hw'. destruct value; try done; injection Hw' as <-;
      unfold Worlds.getDynamicProperty; cbn; by rewrite lookup_insert_ne.
Qed.

(** X25. The last write wins: writing a key twice leaves the wrapper as
    the second write alone does. *)
Theorem setDynamicProperty_last_write_wins (key : string) (value1 value2 : JSValue)
    (self : ItemData) :
  value1 ≠ JUndefined → value2 ≠ JUndefined →
  final (setDynamicProperty key value2 (final (setDynamicProperty key value1 self)))
  = final (setDynamicProperty key value2 self).
Proof.
  intros Hdef1 Hdef2. rewrite !setDynamicProperty_final by done.
  unfold with_item, host_setDynamicProperty. cbn. by rewrite insert_insert_eq.
Qed.

(** X26. [updateLore] changes the lore and nothing else: however it ends,
    the dynamic properties (so the three mappings it reads), the durability
    and the built-in enchantments of the item are as before. *)
Theorem updateLore_changes_only_the_lore (self : ItemData) :
  dynamicProperties (item (final (updateLore self))) = dynamicProperties (item self)
  ∧ durability (item (final (updateLore self))) = durability (item self)
  ∧ enchantable (item (final (updateLore self))) = enchantable (item self)
  ∧ ∀ key, outcome (getDynamicProperty key (final (updateLore self)))
           = outcome (getDynamicProperty key self).
Proof.
  destruct (updateLore_regenerates self) as (_ & Hfinal & _).
  rewrite Hfinal. by repeat split.
Qed.

End PropertyFrame.

(** Writing the effects of the rare item leaves its custom lore. *)
Lemma setDynamicProperty_frame_witness :
  Items.outcome
    (@Items.getDynamicProperty Sample.json "lore"
       (Items.final
          (@Items.setDynamicProperty Sample.json "effects" ItemExample.speed
             ItemExample.rare)))
  = Items.outcome (@Items.getDynamicProperty Sample.json "lore" ItemExample.rare).
Proof.
  exact (proj1 (@setDynamicProperty_frame Sample.json "effects" "lore" ItemExample.speed
                  ItemExample.rare ItemExample.world ltac:(discriminate))).
Defined.

(** Two writes of the key "mana". *)
Lemma setDynamicProperty_last_write_wins_witness :
  Items.final
    (@Items.setDynamicProperty Sample.json "mana" (JNumber 2)
       (Items.final
          (@Items.setDynamicProperty Sample.json "mana" (JNumber 1) ItemExample.self)))
  = Items.final (@Items.setDynamicProperty Sample.json "mana" (JNumber 2) ItemExample.self).
Proof.
  exact (@setDynamicProperty_last_write_wins Sample.json "mana" (JNumber 1) (JNumber 2)
           ItemExample.self ltac:(discriminate) ltac:(discriminate)).
Defined.

(** ** The stored mappings *)

Section Mappings.
Import Items ItemSpec LoreSpec LoreSummary ItemMethods MethodSpec.
Context `{JsonCodec} `{ChatFormat} `{Titles}.

Lemma props_lookup_set_eq props k v : props_lookup (props_set props k v) k = Some v.
Proof.
  induction props as [|[k' v'] props IH]; cbn.
  - by rewrite String.eqb_refl.
  - destruct (String.eqb_spec k' k) as [->|Hne]; cbn.
    + by rewrite String.eqb_refl.
    + destruct (String.eqb_spec k' k); [done|exact IH].
Qed.

Lemma props_lookup_set_ne props k k' v :
  k ≠ k' → props_lookup (props_set props k v) k' = props_lookup props k'.
Proof.
  intros Hne. induction props as [|[k0 v0] props IH]; cbn.
  - by destruct (String.eqb_spec k k').
  - destruct (String.eqb_spec k0 k) as [->|Hne0]; cbn.
    + by destruct (String.eqb_spec k k').
    + by rewrite IH.
Qed.

Lemma props_delete_set props k v :
  props_lookup props k = None → props_delete (props_set props k v) k = props.
Proof.
  induction props as [|[k0 v0] props IH]; cbn.
  - by rewrite String.eqb_refl.
  - destruct (String.eqb_spec k0 k) as [->|Hne]; [done|]. intros Hnone. cbn.
    destruct (String.eqb_spec k0 k); [done|]. by rewrite IH.
Qed.

Lemma stored_same_properties (it it' : ItemStack) key :
  dynamicProperties it' = dynamicProperties it → stored it' key = stored it key.
Proof. intros Heq. unfold stored, host_getDynamicProperty. by rewrite Heq. Qed.

Lemma getCustomEnchantment_run k self :
  getCustomEnchantment k self = (js_member (enchantments_of (item self)) k, self, []).
Proof.
  unfold getCustomEnchantment, getCustomEnchantments.
  unfold mbind, M_bind, bind, mret, M_ret, ret, lift. rewrite getDynamicProperty_run.
  reflexivity.
Qed.

Lemma addCustomEnchantment_final e props self :
  enchantments_of (item self) = JObject props →
  final (addCustomEnchantment e self)
  = final (setCustomEnchantments
             (JObject (props_set props (name e) (EnchantmentDataT_value e))) self).
Proof.
  intros Hprops. unfold addCustomEnchantment, getCustomEnchantments.
  unfold mbind at 1 2 3, M_bind, bind, mret, M_ret, ret, lift.
  rewrite getDynamicProperty_run.
  change (js_or (stored (item self) "enchantments") (JObject []))
    with (enchantments_of (item self)).
  rewrite Hprops. cbn [js_set].
  by destruct (setCustomEnchantments _ self) as [[c s] evs].
Qed.

Lemma removeCustomEnchantment_final k props self :
  enchantments_of (item self) = JObject props →
  final (removeCustomEnchantment k self)
  = final (setCustomEnchantments (JObject (props_delete props k)) self).
Proof.
  intros Hprops. unfold removeCustomEnchantment, getCustomEnchantments.
  unfold mbind at 1 2 3, M_bind, bind, mret, M_ret, ret, lift.
  rewrite getDynamicProperty_run.
  change (js_or (stored (item self) "enchantments") (JObject []))
    with (enchantments_of (item self)).
  rewrite Hprops. cbn [js_delete].
  by destruct (setCustomEnchantments _ self) as [[c s] evs].
Qed.

(** The stored mapping after [setCustomEnchantments], however its
    [updateLore] ends. *)
Lemma setCustomEnchantments_stored (props : list (string * JSValue)) self :
  JSON_parse (JSON_stringify (JObject props)) = Some (JObject props) →
  enchantments_of (item (final (setCustomEnchantments (JObject props) self)))
  = JObject props.
Proof.
  intros Hrt. unfold setCustomEnchantments.
  destruct (setDynamicProperty_item "enchantments" (JObject props) self ltac:(discriminate))
    as [Hout Hitem].
  destruct (final_bind (setDynamicProperty "enchantments" (JObject props))
              (λ _, updateLore) tt self Hout) as [-> _].
  destruct (updateLore_regenerates (final (setDynamicProperty "enchantments"
                                             (JObject props) self)))
    as (_ & -> & _).
  unfold enchantments_of.
  rewrite (stored_same_properties
             (item (final (setDynamicProperty "enchantments" (JObject props) self))))
    by reflexivity.
  rewrite Hitem, stored_after_set. cbn. unfold safeJsonStringify. by rewrite Hrt.
Qed.


Lemma getCustomLore_run self :
  getCustomLore self = (Normal (custom_lore_of (item self)), self, []).
Proof.
  unfold getCustomLore. unfold mbind, M_bind, bind, mret, M_ret, ret.
  rewrite getDynamicProperty_run. reflexivity.
Qed.

(** A custom lore mapping written by [setDynamicProperty] is the one read. *)
Lemma custom_lore_stored (props : list (string * JSValue)) self :
  JSON_parse (JSON_stringify (JObject props)) = Some (JObject props) →
  outcome (setDynamicProperty "lore" (JObject props) self) = Normal tt
  ∧ custom_lore_of (item (final (setDynamicProperty "lore" (JObject props) self)))
    = JObject props.
Proof.
  intros Hrt.
  destruct (setDynamicProperty_item "lore" (JObject props) self ltac:(discriminate))
    as [Hout Hitem].
  split; [done|]. unfold custom_lore_of. rewrite Hitem, stored_after_set. cbn.
  unfold safeJsonStringify. by rewrite Hrt.
Qed.

Lemma addCustomLore_run l category props self :
  custom_lore_of (item self) = JObject props →
  addCustomLore l category self
  = setDynamicProperty "lore"
      (JObject (props_set props (lore_key l category) (LoreArg_value l))) self.
Proof.
  intros Hprops. unfold addCustomLore.
  unfold mbind at 1 2, M_bind, bind, lift. rewrite getDynamicProperty_run.
  change (js_or (stored (item self) "lore") (JObject [])) with (custom_lore_of (item self)).
  rewrite Hprops. cbn [js_set].
  by destruct (setDynamicProperty "lore" _ self) as [[c s] evs].
Qed.

Lemma removeCustomLore_run l category props self :
  custom_lore_of (item self) = JObject props →
  removeCustomLore l category self
  = setDynamicProperty "lore" (JObject (props_delete props (lore_key l category))) self.
Proof.
  intros Hprops. unfold removeCustomLore.
  unfold mbind at 1 2, M_bind, bind, lift. rewrite getDynamicProperty_run.
  change (js_or (stored (item self) "lore") (JObject [])) with (custom_lore_of (item self)).
  rewrite Hprops. cbn [js_delete].
  by destruct (setDynamicProperty "lore" _ self) as [[c s] evs].
Qed.


End Mappings.



Section EnchantmentRoundTrip.
Import Items ItemSpec LoreSpec LoreSummary ItemMethods MethodSpec.
Context `{JsonCodec} `{ChatFormat} `{Titles}.

(** What [setCustomEnchantments] leaves: the lore [updateLore] makes of the
    item that stores the mapping, and the other keys as they were. *)
Lemma setCustomEnchantments_final (props : list (string * JSValue)) self :
  let stored_item := host_setDynamicProperty (item self) "enchantments"
                       (JString (safeJsonStringify (JObject props))) in
  lore (item (final (setCustomEnchantments (JObject props) self)))
  = fst (fst (updateLore_summary stored_item))
  ∧ ∀ key, key ≠ "enchantments" →
      stored (item (final (setCustomEnchantments (JObject props) self))) key
      = stored (item self) key.
Proof.
  intros stored_item. unfold setCustomEnchantments.
  destruct (setDynamicProperty_item "enchantments" (JObject props) self ltac:(discriminate))
    as [Hout Hitem].
  destruct (final_bind (setDynamicProperty "enchantments" (JObject props))
              (λ _, updateLore) tt self Hout) as [-> _].
  destruct (updateLore_regenerates (final (setDynamicProperty "enchantments"
                                             (JObject props) self)))
    as (_ & -> & _).
  cbn [with_lore with_item item host_setLore lore]. rewrite Hitem.
  split; [reflexivity|]. intros key Hkey.
  rewrite (stored_same_properties
             (host_setDynamicProperty (item self) "enchantments"
                (JString (safeJsonStringify (JObject props))))) by reflexivity.
  by apply stored_after_set_ne.
Qed.

Lemma updateLore_summary_same (it it' : ItemStack) :
  custom_lore_of it' = custom_lore_of it → enchantments_of it' = enchantments_of it →
  effects_of it' = effects_of it → updateLore_summary it' = updateLore_summary it.
Proof. unfold updateLore_summary. by intros -> -> ->. Qed.

(** X29. Adding a custom enchantment under a name that was not in use and
    removing it again gives back the stored enchantments and the lore: the
    mapping [getCustomEnchantments] returns is the one from before, and the
    lore of the item is the lore [updateLore] makes of the item as it was
    before the two calls. The stored enchantments are a mapping or absent,
    and the two mappings are ones that [JSON.parse] rebuilds from their
    [JSON.stringify] text. *)
Theorem addCustomEnchantment_then_removeCustomEnchantment (e : EnchantmentDataT)
    (props : list (string * JSValue)) (self : ItemData) :
  enchantments_of (item self) = JObject props →
  props_lookup props (name e) = None →
  JSON_parse (JSON_stringify (JObject props)) = Some (JObject props) →
  JSON_parse (JSON_stringify
                (JObject (props_set props (name e) (EnchantmentDataT_value e))))
  = Some (JObject (props_set props (name e) (EnchantmentDataT_value e))) →
  outcome (getCustomEnchantments
             (final (removeCustomEnchantment (name e)
                       (final (addCustomEnchantment e self)))))
  = Normal (JObject props)
  ∧ lore (item (final (removeCustomEnchantment (name e)
                         (final (addCustomEnchantment e self)))))
    = lore (item (final (updateLore self))).
Proof.
  intros Hprops Hfresh Hrt Hrt'.
  pose proof (setCustomEnchantments_stored _ self Hrt') as Hstored1.
  destruct (setCustomEnchantments_final
              (props_set props (name e) (EnchantmentDataT_value e)) self)
    as [_ Hkeys1].
  rewrite <- (addCustomEnchantment_final e props self Hprops) in Hstored1, Hkeys1.
  rewrite (removeCustomEnchantment_final (name e) _ _ Hstored1).
  rewrite props_delete_set by done.
  set (self1 := final (addCustomEnchantment e self)) in *.
  pose proof (setCustomEnchantments_stored props self1 Hrt) as Hstored2.
  destruct (setCustomEnchantments_final props self1) as [Hlore2 Hkeys2].
  split.
  - unfold getCustomEnchantments. unfold mbind, M_bind, bind, mret, M_ret, ret.
    rewrite getDynamicProperty_run. unfold outcome. cbn [fst]. f_equal. exact Hstored2.
  - rewrite Hlore2.
    destruct (updateLore_regenerates self) as (_ & -> & _).
    cbn [with_lore with_item item host_setLore lore]. f_equal. f_equal.
    apply updateLore_summary_same.
    + unfold custom_lore_of. rewrite stored_after_set_ne by done.
      by rewrite Hkeys1.
    + unfold enchantments_of at 1. rewrite stored_after_set. cbn.
      unfold safeJsonStringify. by rewrite Hrt, Hprops.
    + unfold effects_of. rewrite stored_after_set_ne by done.
      by rewrite Hkeys1.
Qed.

End EnchantmentRoundTrip.

(** Sharpness 3 added to the item that stores the Stats category and no
    enchantment, and removed again. *)
Lemma addCustomEnchantment_then_removeCustomEnchantment_witness :
  Items.lore
    (Items.item
       (Items.final
          (@Items.removeCustomEnchantment Sample.json Sample.chat Sample.titles "sharpness"
             (Items.final
                (@Items.addCustomEnchantment Sample.json Sample.chat Sample.titles
                   ItemExample.sharpness_3 ItemExample.stats)))))
  = Items.lore
      (Items.item
         (Items.final
            (@Items.updateLore Sample.json Sample.chat Sample.titles ItemExample.stats))).
Proof.
  assert (Hmapping :
    @LoreSpec.enchantments_of Sample.json (Items.item ItemExample.stats) = JObject [])
    by (vm_compute; reflexivity).
  exact (proj2 (@addCustomEnchantment_then_removeCustomEnchantment Sample.json Sample.chat
                  Sample.titles ItemExample.sharpness_3 [] ItemExample.stats Hmapping
                  eq_refl ltac:(vm_compute; reflexivity) ltac:(vm_compute; reflexivity))).
Defined.
